(** * Swift (swift-go): node secrets, pair parsing, create-URL validation and
      the decode-as-JSON handler.

    A shallow embedding of the Go sources [node.go] (node, makeNonce,
    scramble/unscramble, encrypt/decrypt, getSecret, sortSecrets),
    [handlerCreate.go] (createURL, createPair, isReserved) and
    [handlerDecodeAsJSON.go], together with the parts of the Go standard
    library these functions call (strconv.Atoi, time.Parse for the layout
    2006-01-02, base64.RawURLEncoding, hash/fnv, regexp on a fixed pattern).

    Conventions
    - a Go [string] is a [string]; a [[]byte] is a [list byte]; a slice that
      may be [nil] is an [option (list byte)];
    - a Go result pair [(T, error)] is a Coq pair [T * option error] where the
      code can return both components independently, [None] being [nil];
    - [int] is the 64-bit two's-complement integer, carried in [Z];
    - a [time.Time] is the instant it denotes, in nanoseconds since the Unix
      epoch ([UTC()] changes the location only, never the instant);
    - a run-time panic is an explicit [Panics] outcome. *)

From Stdlib Require Import ZArith Lia List Permutation Sorted.
From Stdlib Require Import Strings.String Strings.Ascii Strings.Byte.
From Stdlib Require Import DecimalString.
From stdpp Require Import gmap strings list.

Local Open Scope string_scope.
Local Open Scope Z_scope.

(** ** Go values shared by all files of the package *)

Module Go.

(** The dynamic type of an [error] value.  [errorString] is what
    [errors.New] and [fmt.Errorf] build; the others are the error types of
    the standard library functions used here ([CorruptInputError] without
    the offset it carries, [ParseError] with its layout, value and message
    and without the layout element and value element it carries);
    [Foreign] stands for an error handed back by a collaborator outside
    these sources. *)
Inductive error : Type :=
| errorString (msg : string)
| NumError (func num : string) (reason : string)
| ParseError (layout value : string) (reason : string)
| CorruptInputError
| Foreign (tag : string).

(** A run-time panic. *)
Inductive runtime_error : Type :=
| IndexOutOfRange (index length : nat)
| NilDereference.

(** What a call does: it returns, or it panics. *)
Inductive outcome (A : Type) : Type :=
| Returns (a : A)
| Panics (p : runtime_error).
Arguments Returns {A} a.
Arguments Panics {A} p.

Abbreviation bytes := (list byte).

(** [[]byte(s)] and [string(b)]. *)
Definition bytes_of_string (s : string) : bytes := list_byte_of_string s.
Definition string_of_bytes (b : bytes) : string := string_of_list_byte b.

(** [time.Time], as an instant in nanoseconds since the Unix epoch. *)
Definition Time := Z.
Definition Duration := Z.

Definition minDuration : Duration := - 2 ^ 63.
Definition maxDuration : Duration := 2 ^ 63 - 1.

(** [t.Before(u)], [t.After(u)] *)
Definition Before (t u : Time) : bool := t <? u.
Definition After (t u : Time) : bool := u <? t.

(** [t.Sub(u)]: the difference, saturated at the ends of [Duration]. *)
Definition Sub (t u : Time) : Duration :=
  let d := t - u in
  if d <? minDuration then minDuration
  else if maxDuration <? d then maxDuration
  else d.

End Go.
Export Go.

(** ** node.go *)

(** [crypto] (crypto.go) is not part of these sources: its methods are
    carried as the fields of a record, one value per key.  [compressAndEncrypt]
    draws a fresh nonce, so it takes the random bytes it reads. *)
Record crypto : Type := {
  gcm_NonceSize : nat;
  encryptWithNonce : bytes -> bytes -> bytes;
  crypto_decrypt : bytes -> option bytes * option error;
  compressAndEncrypt : bytes -> bytes -> option bytes * option error;
  decryptAndDecompress : bytes -> option bytes * option error
}.

Record secret : Type := {
  timeStamp : Time;
  secret_crypto : crypto
}.

Inductive role_t : Type := roleAccess | roleStorage.

Record node : Type := {
  network : string;
  domain : string;
  hash : Z;
  created : Time;
  expires : Time;
  role : role_t;
  secrets : list secret;
  scrambler : secret;
  nonce : bytes;
  alive : bool
}.

Definition set_secrets (n : node) (ss : list secret) : node :=
  {| network := network n; domain := domain n; hash := hash n;
     created := created n; expires := expires n; role := role n;
     secrets := ss; scrambler := scrambler n; nonce := nonce n;
     alive := alive n |}.

(** *** makeNonce

<<
  n := make([]byte, s.crypto.gcm.NonceSize())
  c := 0
  for i := 0; i < len(n); i++ {
      n[i] = d[c]
      c++
      if c >= len(d) { c = 0 }
  }
  return n
>>
    [makeNonce_loop k i c n] runs the [k] remaining iterations from the loop
    state [(i, c, n)]; reading [d[c]] out of range panics. *)
Fixpoint makeNonce_loop (d : bytes) (k i c : nat) (n : bytes) : outcome bytes :=
  match k with
  | O => Returns n
  | S k' =>
      match d !! c with
      | None => Panics (IndexOutOfRange c (length d))
      | Some x =>
          let n' := <[i := x]> n in
          let c1 := S c in
          let c2 := if (length d <=? c1)%nat then O else c1 in
          makeNonce_loop d k' (S i) c2 n'
      end
  end.

Definition makeNonce (s : secret) (d : bytes) : outcome bytes :=
  let n := replicate (gcm_NonceSize (secret_crypto s)) "000"%byte in
  makeNonce_loop d (length n) 0 0 n.

(** *** fnv.New32a, Write, Sum32 *)
Definition fnv_offset32 : Z := 2166136261.
Definition fnv_prime32 : Z := 16777619.

Definition fnv32a (d : bytes) : Z :=
  fold_left
    (fun h b => (Z.lxor h (Z.of_N (Byte.to_N b)) * fnv_prime32) mod 2 ^ 32)
    d fnv_offset32.

(** *** decrypt

<<
  var err error
  for _, s := range n.secrets {
      b, err := s.crypto.decryptAndDecompress(d)
      if err == nil { return b, nil }
  }
  return nil, err
>>
    The [err] assigned in the loop body is a new variable of the body's
    scope ([:=]); the [err] returned after the loop is the outer one, which
    nothing assigns.  [outer_err] is that outer variable. *)
Fixpoint decrypt_loop (ss : list secret) (d : bytes) (outer_err : option error)
  : option bytes * option error :=
  match ss with
  | [] => (None, outer_err)
  | s :: ss' =>
      let '(b, err) := decryptAndDecompress (secret_crypto s) d in
      match err with
      | None => (b, None)
      | Some _ => decrypt_loop ss' d outer_err
      end
  end.

Definition decrypt (n : node) (d : bytes) : option bytes * option error :=
  decrypt_loop (secrets n) d None.

(** *** addSecret, getSecret *)
Definition addSecret (n : node) (s : secret) : node :=
  set_secrets n (secrets n ++ [s]).

Definition getSecret (n : node) : option secret * option error :=
  match secrets n with
  | s :: _ => (Some s, None)
  | [] => (None,
           Some (errorString ("No secrets for node '" +:+ domain n +:+ "'")))
  end.

(** *** encrypt *)
Definition encrypt (n : node) (rand d : bytes) : option bytes * option error :=
  match getSecret n with
  | (_, Some err) => (None, Some err)
  | (Some s, None) => compressAndEncrypt (secret_crypto s) rand d
  | (None, None) => (None, None) (* not reachable: getSecret never does *)
  end.

(** *** sortSecrets

<<
  sort.Slice(n.secrets, func(i, j int) bool {
      return n.secrets[i].timeStamp.Sub(n.secrets[j].timeStamp) < 0
  })
>>
    [sort.Slice] belongs to the Go library and its algorithm changes between
    releases; what callers may rely on is its contract ([sorts], below).
    [sortSecrets] therefore takes the sorting routine it calls. *)
Definition sorter : Type :=
  forall A : Type, (A -> A -> bool) -> list A -> list A.

Definition secretLess (a b : secret) : bool :=
  Sub (timeStamp a) (timeStamp b) <? 0.

Definition sortSecrets (sort_Slice : sorter) (n : node) : node :=
  set_secrets n (sort_Slice secret secretLess (secrets n)).

(** The contract of [sort.Slice] for a [less] that is a strict weak order:
    the slice is permuted, and afterwards no element is [less] than one
    standing before it. *)
Definition strict_weak_order {A} (less : A -> A -> bool) : Prop :=
  (forall a, less a a = false) /\
  (forall a b c, less a b = true -> less b c = true -> less a c = true) /\
  (forall a b c, less a b = false -> less b c = false -> less a c = false).

Definition ordered_by {A} (less : A -> A -> bool) (l : list A) : Prop :=
  forall (i j : nat) (a b : A),
    (i < j)%nat -> l !! i = Some a -> l !! j = Some b -> less b a = false.

Definition sorts (srt : sorter) : Prop :=
  forall (A : Type) (less : A -> A -> bool) (l : list A),
    strict_weak_order less ->
    Permutation l (srt A less l) /\ ordered_by less (srt A less l).

(** Insertion sort, which is what [sort.Slice] runs on a slice of at most
    twelve elements:
<<
  for i := a + 1; i < b; i++ {
      for j := i; j > a && data.Less(j, j-1); j-- { data.Swap(j, j-1) }
  }
>>
    [sink less x front] moves [x] down from the end of the sorted prefix,
    given back to front, while it is [less] than its left neighbour. *)
Fixpoint sink {A} (less : A -> A -> bool) (x : A) (front : list A) : list A :=
  match front with
  | [] => [x]
  | y :: front' =>
      if less x y then y :: sink less x front' else x :: y :: front'
  end.

Definition insertionSort : sorter :=
  fun A less l =>
    reverse (fold_left (fun front x => sink less x front) l []).

(** *** newNode

    [newSecretFromKey] (secret.go) is not part of these sources and is
    passed in. *)
Definition newNode
    (newSecretFromKey : string -> Time -> option secret * option error)
    (network' domain' : string) (created' expires' : Time) (role' : role_t)
    (scrambleKey : string) : outcome (option node * option error) :=
  let h := fnv32a (bytes_of_string domain') in
  match newSecretFromKey scrambleKey created' with
  | (_, Some err) => Returns (None, Some err)
  | (None, None) => Panics NilDereference
  | (Some s, None) =>
      match makeNonce s (bytes_of_string domain') with
      | Panics p => Panics p
      | Returns nonce' =>
          Returns
            (Some {| network := network'; domain := domain'; hash := h;
                     created := created'; expires := expires';
                     role := role'; secrets := []; scrambler := s;
                     nonce := nonce'; alive := false |},
             None)
      end
  end.

(** ** encoding/base64: RawURLEncoding (URL alphabet, no padding) *)

Module base64.

Definition encodeURL : string :=
  "ABCDEFGHIJKLMNOPQRSTUVWXYZabcdefghijklmnopqrstuvwxyz0123456789-_".

Definition uint_of_byte (b : byte) : Z := Z.of_N (Byte.to_N b).

(** [byte(x)]: the low eight bits. *)
Definition byte_of_uint (x : Z) : byte :=
  match Byte.of_N (Z.to_N (Z.land x 255)) with
  | Some b => b
  | None => "000"%byte
  end.

(** [enc.encode[i]] *)
Definition encodeChar (i : Z) : ascii :=
  match String.get (Z.to_nat i) encodeURL with
  | Some c => c
  | None => "A"%char
  end.

(** [enc.decodeMap[c]], [None] standing for the entry 0xFF. *)
Fixpoint index_of (c : ascii) (s : string) (i : Z) : option Z :=
  match s with
  | EmptyString => None
  | String c' s' => if Ascii.eqb c c' then Some i else index_of c s' (i + 1)
  end.

Definition decodeChar (c : ascii) : option Z := index_of c encodeURL 0.

(** [Encode]: three bytes give four characters; a remainder of one byte
    gives two and of two bytes gives three, with no padding. *)
Fixpoint Encode (src : bytes) : list ascii :=
  match src with
  | [] => []
  | [b0] =>
      let v := Z.shiftl (uint_of_byte b0) 16 in
      [encodeChar (Z.land (Z.shiftr v 18) 63);
       encodeChar (Z.land (Z.shiftr v 12) 63)]
  | [b0; b1] =>
      let v := Z.lor (Z.shiftl (uint_of_byte b0) 16)
                     (Z.shiftl (uint_of_byte b1) 8) in
      [encodeChar (Z.land (Z.shiftr v 18) 63);
       encodeChar (Z.land (Z.shiftr v 12) 63);
       encodeChar (Z.land (Z.shiftr v 6) 63)]
  | b0 :: b1 :: b2 :: rest =>
      let v := Z.lor (Z.lor (Z.shiftl (uint_of_byte b0) 16)
                            (Z.shiftl (uint_of_byte b1) 8))
                     (uint_of_byte b2) in
      encodeChar (Z.land (Z.shiftr v 18) 63)
      :: encodeChar (Z.land (Z.shiftr v 12) 63)
      :: encodeChar (Z.land (Z.shiftr v 6) 63)
      :: encodeChar (Z.land v 63)
      :: Encode rest
  end.

Definition EncodeToString (src : bytes) : string :=
  string_of_list_ascii (Encode src).

(** [decodeQuantum], over the input with the ignored characters removed.
    [None] is a [CorruptInputError]. *)
Definition quantum (d0 d1 d2 d3 : Z) : Z :=
  Z.lor (Z.lor (Z.lor (Z.shiftl d0 18) (Z.shiftl d1 12)) (Z.shiftl d2 6)) d3.

Fixpoint Decode (src : list ascii) : option bytes :=
  match src with
  | [] => Some []
  | [_] => None
  | [c0; c1] =>
      match decodeChar c0, decodeChar c1 with
      | Some d0, Some d1 =>
          let v := quantum d0 d1 0 0 in
          Some [byte_of_uint (Z.shiftr v 16)]
      | _, _ => None
      end
  | [c0; c1; c2] =>
      match decodeChar c0, decodeChar c1, decodeChar c2 with
      | Some d0, Some d1, Some d2 =>
          let v := quantum d0 d1 d2 0 in
          Some [byte_of_uint (Z.shiftr v 16); byte_of_uint (Z.shiftr v 8)]
      | _, _, _ => None
      end
  | c0 :: c1 :: c2 :: c3 :: rest =>
      match decodeChar c0, decodeChar c1, decodeChar c2, decodeChar c3 with
      | Some d0, Some d1, Some d2, Some d3 =>
          let v := quantum d0 d1 d2 d3 in
          match Decode rest with
          | Some out =>
              Some (byte_of_uint (Z.shiftr v 16)
                    :: byte_of_uint (Z.shiftr v 8)
                    :: byte_of_uint v :: out)
          | None => None
          end
      | _, _, _, _ => None
      end
  end.

(** Carriage returns and line feeds in the input are skipped. *)
Definition ignored (c : ascii) : bool :=
  Ascii.eqb c "010"%char || Ascii.eqb c "013"%char.

(** [DecodeString].  On an error Go also returns the bytes decoded so
    far; no caller here looks at them, and they are given as [nil]. *)
Definition DecodeString (s : string) : option bytes * option error :=
  match Decode (List.filter (fun c => negb (ignored c))
                  (list_ascii_of_string s)) with
  | Some out => (Some out, None)
  | None => (None, Some CorruptInputError)
  end.

End base64.

(** *** unscramble, scramble *)
Definition unscramble (n : node) (s : string) : string * option error :=
  match base64.DecodeString s with
  | (_, Some err) => ("", Some err)
  | (b, None) =>
      match crypto_decrypt (secret_crypto (scrambler n)) (default [] b) with
      | (_, Some err) => ("", Some err)
      | (d, None) => (string_of_bytes (default [] d), None)
      end
  end.

Definition scramble (n : node) (s : string) : string :=
  base64.EncodeToString
    (encryptWithNonce (secret_crypto (scrambler n)) (bytes_of_string s)
       (nonce n)).

(** ** The standard library calls of handlerCreate.go *)

(** Results of the functions that return either a value or an error, never
    both. *)
Inductive result (A : Type) : Type :=
| Ok (a : A)
| Err (e : error).
Arguments Ok {A} a.
Arguments Err {A} e.

Definition isDigit (c : ascii) : bool :=
  ((48 <=? nat_of_ascii c) && (nat_of_ascii c <=? 57))%nat.

Definition digitVal (c : ascii) : Z := Z.of_nat (nat_of_ascii c) - 48.

(** [s[i:]] and [s[:i]] for an index within the string. *)
Definition slice_from (s : string) (i : nat) : string :=
  substring i (String.length s - i) s.
Definition slice_to (s : string) (i : nat) : string := substring 0 i s.

(** [fmt.Sprintf("%d", x)] *)
Definition itoa (x : Z) : string := NilZero.string_of_int (Z.to_int x).

Module strconv.

Definition ErrSyntax : string := "invalid syntax".
Definition ErrRange : string := "value out of range".

(** How the scan of [ParseUint] over the characters after the sign ends:
    with the value of a run of decimal digits, at the first character that
    is not one, or at the first digit with which the value no longer fits
    64 bits. *)
Inductive scan : Type :=
| scanValue (n : Z)
| scanSyntax
| scanRange.

(** The loop of [ParseUint] in base 10: the characters are met from left
    to right, so of a character that is not a digit and a digit that
    overflows the earlier one decides. *)
Fixpoint digits (s : string) (acc : Z) : scan :=
  match s with
  | EmptyString => scanValue acc
  | String c s' =>
      if isDigit c
      then let n := acc * 10 + digitVal c in
           if 2 ^ 64 - 1 <? n then scanRange else digits s' n
      else scanSyntax
  end.

(** [strconv.Atoi], [int] being 64 bits wide: an optional sign and at
    least one decimal digit; a value outside [int] is a range error and
    gives the nearest bound. *)
Definition Atoi (s : string) : Z * option error :=
  let syntax := (0, Some (NumError "Atoi" s ErrSyntax)) in
  let '(neg, body) :=
    match s with
    | String "-" s' => (true, s')
    | String "+" s' => (false, s')
    | _ => (false, s)
    end in
  match body with
  | EmptyString => syntax
  | _ =>
      match digits body 0 with
      | scanSyntax => syntax
      | scanRange =>
          (if neg then - 2 ^ 63 else 2 ^ 63 - 1,
           Some (NumError "Atoi" s ErrRange))
      | scanValue n =>
          let v := if neg then - n else n in
          if v <? - 2 ^ 63 then (- 2 ^ 63, Some (NumError "Atoi" s ErrRange))
          else if 2 ^ 63 - 1 <? v
               then (2 ^ 63 - 1, Some (NumError "Atoi" s ErrRange))
               else (v, None)
      end
  end.

End strconv.

Module time.

(** The clock.  Each [time.Now()] is a new reading: [reading c i] is the
    [i]-th one and [ticks c] counts those taken so far. *)
Record Clock : Type := { reading : nat -> Time; ticks : nat }.

Definition Now (c : Clock) : Time * Clock :=
  (reading c (ticks c), {| reading := reading c; ticks := S (ticks c) |}).

Definition isLeap (year : Z) : bool :=
  (year mod 4 =? 0) && (negb (year mod 100 =? 0) || (year mod 400 =? 0)).

Definition daysIn (month year : Z) : Z :=
  if month =? 2 then (if isLeap year then 29 else 28)
  else if (month =? 4) || (month =? 6) || (month =? 9) || (month =? 11)
       then 30 else 31.

(** Days from 1970-01-01 to the given day of the proleptic Gregorian
    calendar. *)
Definition daysSinceEpoch (year month day : Z) : Z :=
  let y := if month <=? 2 then year - 1 else year in
  let era := y / 400 in
  let yoe := y - era * 400 in
  let mp := if 2 <? month then month - 3 else month + 9 in
  let doy := (153 * mp + 2) / 5 + day - 1 in
  let doe := yoe * 365 + yoe / 4 - yoe / 100 + doy in
  era * 146097 + doe - 719468.

(** [time.Date(year, month, day, 0, 0, 0, 0, time.UTC)] *)
Definition Date (year month day : Z) : Time :=
  daysSinceEpoch year month day * 86400 * 1000000000.

(** The zero [Time]: January 1, year 1, 00:00:00 UTC. *)
Definition zero : Time := Date 1 1 1.

(** [getnum(s, true)]: exactly two digits. *)
Definition getnum (s : string) : option (Z * string) :=
  match s with
  | String a (String b rest) =>
      if isDigit a && isDigit b
      then Some (digitVal a * 10 + digitVal b, rest) else None
  | _ => None
  end.

(** The literal ["-"] of the layout. *)
Definition skip (s : string) : option string :=
  match s with
  | String "-" rest => Some rest
  | _ => None
  end.

(** The year of the layout: four characters, all digits. *)
Definition getyear (s : string) : option (Z * string) :=
  match s with
  | String a (String b (String c (String d rest))) =>
      if isDigit a && isDigit b && isDigit c && isDigit d
      then Some (((digitVal a * 10 + digitVal b) * 10 + digitVal c) * 10
                 + digitVal d, rest)
      else None
  | _ => None
  end.

Definition layout : string := "2006-01-02".

Definition lowerhex (n : N) : ascii :=
  match String.get (N.to_nat n) "0123456789abcdef" with
  | Some c => c
  | None => "0"%char
  end.

(** [quote(s)]: the text between double quotes, a backslash before a
    double quote or a backslash, and every byte below the space or
    outside ASCII as a backslash, [x] and two hexadecimal digits. *)
Fixpoint quoteBytes (s : string) : string :=
  match s with
  | EmptyString => EmptyString
  | String c s' =>
      let n := N_of_ascii c in
      if ((n <? 32) || (128 <=? n))%N
      then String "092" (String "x" (String (lowerhex (n / 16))
             (String (lowerhex (n mod 16)) (quoteBytes s'))))
      else if Ascii.eqb c "034" || Ascii.eqb c "092"
           then String "092" (String c (quoteBytes s'))
           else String c (quoteBytes s')
  end.

Definition quote (s : string) : string :=
  String "034" (quoteBytes s +:+ String "034" EmptyString).

(** [time.Parse("2006-01-02", value)]: year, ["-"], month, ["-"], day and
    nothing after; the month is 1..12 and the day exists in that month. *)
Definition Parse (value : string) : result Time :=
  let bad := Err (ParseError layout value "") in
  match getyear value with
  | None => bad
  | Some (year, v1) =>
  match skip v1 with
  | None => bad
  | Some v2 =>
  match getnum v2 with
  | None => bad
  | Some (month, v3) =>
  if (month <=? 0) || (12 <? month)
  then Err (ParseError layout value ": month out of range") else
  match skip v3 with
  | None => bad
  | Some v4 =>
  match getnum v4 with
  | None => bad
  | Some (day, v5) =>
  match v5 with
  | String _ _ =>
      Err (ParseError layout value (": extra text: " +:+ quote v5))
  | EmptyString =>
      if (day <? 1) || (daysIn month year <? day)
      then Err (ParseError layout value ": day out of range")
      else Ok (Date year month day)
  end end end end end end.

End time.

(** ** handlerCreate.go *)

Definition browserWarningParam := "browserWarning".
Definition titleParam := "title".
Definition messageParam := "message".
Definition returnURLParam := "returnUrl".
Definition progressColorParam := "progressColor".
Definition backgroundColorParam := "backgroundColor".
Definition messageColorParam := "messageColor".
Definition tableParam := "table".
Definition xforwarededfor := "X-FORWARDED-FOR".
Definition remoteAddr := "remoteAddr".
Definition bounces := "bounces".
Definition stateParam := "state".
Definition accessKey := "accessKey".

(** *** operationCharacterRegEx: the pattern [\<|\>|\+] *)
Definition isOperationCharacter (c : ascii) : bool :=
  Ascii.eqb c "<" || Ascii.eqb c ">" || Ascii.eqb c "+".

(** [operationCharacterRegEx.FindStringIndex(k)]: the start and the end of
    the leftmost match, or [nil]. *)
Fixpoint findFrom (k : string) (i : nat) : option (list nat) :=
  match k with
  | EmptyString => None
  | String c k' =>
      if isOperationCharacter c then Some [i; S i] else findFrom k' (S i)
  end.

Definition FindStringIndex (k : string) : option (list nat) := findFrom k 0.

(** *** pair *)
Inductive conflict_t : Type :=
| conflictInvalid | conflictAdd | conflictOldest | conflictNewest.

Module Pair.
Record pair : Type := {
  key : string;
  value : string;
  conflict : conflict_t;
  created : Time;
  expires : Time;
  cookieWriteTime : Time
}.
End Pair.

(** [i[j]] on the match, which always has two entries, and [k[j]] at an
    index the match gives, which is always within [k]. *)
Definition at_ (i : list nat) (j : nat) : nat := nth j i O.
Definition charAt (k : string) (j : nat) : ascii :=
  match String.get j k with Some c => c | None => zero end.

Definition errNoOperation (k : string) : error :=
  errorString
    ("Key '" +:+ k +:+ "' must include a '+' to add the value " +:+
     "to a list of values, or '<' (oldest wins) or '>' (newest wins) " +:+
     "character to determine how to resolve two values for the same " +:+
     "key, followed by a date in YYYY-MM-DD format to indicate when " +:+
     "the value expires and is automatically deleted").

Definition errOnlyOne (k : string) : error :=
  errorString
    ("Key '" +:+ k +:+ "' must contained only one '+', '<' or '>' character").

Definition errNotFuture (date : string) : error :=
  errorString ("Key expiry date '" +:+ date +:+ "' must be in the future").

(** *** createPair *)
Definition createPair (clk : time.Clock) (k v : string)
  : result Pair.pair * time.Clock :=
  match FindStringIndex k with
  | None => (Err (errNoOperation k), clk)
  | Some i =>
      if (2 <? length i)%nat
         || negb (Z.of_nat (at_ i 1) - Z.of_nat (at_ i 0) =? 1)
      then (Err (errOnlyOne k), clk)
      else
        let c := charAt k (at_ i 0) in
        let conflict' :=
          if Ascii.eqb c "+" then Some conflictAdd
          else if Ascii.eqb c "<" then Some conflictOldest
          else if Ascii.eqb c ">" then Some conflictNewest
          else None in
        match conflict' with
        | None =>
            (Err (errorString ("Character '" +:+ String c "" +:+ "' invalid")),
             clk)
        | Some cf =>
            let date := slice_from k (at_ i 0 + 1) in
            match time.Parse date with
            | Err e => (Err e, clk)
            | Ok expires' =>
                let '(now1, clk1) := time.Now clk in
                if Before expires' now1
                then (Err (errNotFuture date), clk1)
                else
                  let '(now2, clk2) := time.Now clk1 in
                  (Ok {| Pair.key := slice_to k (at_ i 0);
                         Pair.value := v;
                         Pair.conflict := cf;
                         Pair.created := now2;
                         Pair.expires := expires';
                         Pair.cookieWriteTime := time.zero |},
                   clk2)
            end
        end
  end.

(** *** isReserved *)
Definition isReserved (s : string) : bool :=
  String.eqb s titleParam
  || String.eqb s messageParam
  || String.eqb s returnURLParam
  || String.eqb s progressColorParam
  || String.eqb s messageColorParam
  || String.eqb s backgroundColorParam
  || String.eqb s tableParam
  || String.eqb s browserWarningParam
  || String.eqb s xforwarededfor
  || String.eqb s remoteAddr
  || String.eqb s bounces
  || String.eqb s stateParam
  || String.eqb s accessKey.

(** *** The collaborators of createURL *)

(** A [float64] and a [float32], each as its IEEE 754 bit pattern. *)
Inductive float64 : Type := Float64frombits (b : Z).
Inductive float32 : Type := Float32frombits (b : Z).

(** The constant [0] of type [float32]. *)
Definition float32_zero : float32 := Float32frombits 0.

(** [url.Values] and [Values.Get]: the first value of the key, or the empty
    string. *)
Abbreviation Values := (gmap string (list string)).

Definition Values_Get (v : Values) (key : string) : string :=
  match v !! key with
  | Some (x :: _) => x
  | _ => ""
  end.

(** The fields of [*url.URL] the code reads, and [String()]. *)
Module URL.
Record t : Type := { Scheme : string; Host : string; String : string }.
End URL.

(** A [*http.Request]: [ParseForm()] gives the form and an error. *)
Module Request.
Record t : Type := {
  Host : string;
  RemoteAddr : string;
  Header_Get : string -> string;
  ParseForm : Values * option error
}.
End Request.

(** [s.config] *)
Module Config.
Record t : Type := {
  NodeCount : Z;
  Title : string;
  Message : string;
  MessageColor : string;
  BackgroundColor : string;
  ProgressColor : string
}.
End Config.

Module HTML.
Record t : Type := {
  Title : string;
  Message : string;
  MessageColor : string;
  BackgroundColor : string;
  ProgressColor : string
}.
End HTML.

(** The [nodes] of a network, with the routing method the code calls. *)
Record nodes : Type := {
  getHomeNode : string -> string -> result node
}.

Module Operation.
Record operation : Type := {
  network : nodes;
  accessNode : string;
  homeNode : string;
  nextNode : option node;
  nodeCount : Z;
  returnURL : string;
  state : string;
  table : string;
  values : list Pair.pair;
  browserWarning : float32;
  HTML : HTML.t
}.

Definition set_network (o : operation) (x : nodes) : operation :=
  {| network := x; accessNode := accessNode o; homeNode := homeNode o;
     nextNode := nextNode o; nodeCount := nodeCount o;
     returnURL := returnURL o; state := state o; table := table o;
     values := values o; browserWarning := browserWarning o;
     HTML := HTML o |}.

Definition set_accessNode (o : operation) (x : string) : operation :=
  {| network := network o; accessNode := x; homeNode := homeNode o;
     nextNode := nextNode o; nodeCount := nodeCount o;
     returnURL := returnURL o; state := state o; table := table o;
     values := values o; browserWarning := browserWarning o;
     HTML := HTML o |}.

Definition set_homeNode (o : operation) (x : string) : operation :=
  {| network := network o; accessNode := accessNode o; homeNode := x;
     nextNode := nextNode o; nodeCount := nodeCount o;
     returnURL := returnURL o; state := state o; table := table o;
     values := values o; browserWarning := browserWarning o;
     HTML := HTML o |}.

Definition set_nextNode (o : operation) (x : option node) : operation :=
  {| network := network o; accessNode := accessNode o;
     homeNode := homeNode o; nextNode := x; nodeCount := nodeCount o;
     returnURL := returnURL o; state := state o; table := table o;
     values := values o; browserWarning := browserWarning o;
     HTML := HTML o |}.

Definition set_nodeCount (o : operation) (x : Z) : operation :=
  {| network := network o; accessNode := accessNode o;
     homeNode := homeNode o; nextNode := nextNode o; nodeCount := x;
     returnURL := returnURL o; state := state o; table := table o;
     values := values o; browserWarning := browserWarning o;
     HTML := HTML o |}.

Definition set_returnURL (o : operation) (x : string) : operation :=
  {| network := network o; accessNode := accessNode o;
     homeNode := homeNode o; nextNode := nextNode o;
     nodeCount := nodeCount o; returnURL := x; state := state o;
     table := table o; values := values o;
     browserWarning := browserWarning o; HTML := HTML o |}.

Definition set_state (o : operation) (x : string) : operation :=
  {| network := network o; accessNode := accessNode o;
     homeNode := homeNode o; nextNode := nextNode o;
     nodeCount := nodeCount o; returnURL := returnURL o; state := x;
     table := table o; values := values o;
     browserWarning := browserWarning o; HTML := HTML o |}.

Definition set_table (o : operation) (x : string) : operation :=
  {| network := network o; accessNode := accessNode o;
     homeNode := homeNode o; nextNode := nextNode o;
     nodeCount := nodeCount o; returnURL := returnURL o; state := state o;
     table := x; values := values o; browserWarning := browserWarning o;
     HTML := HTML o |}.

Definition set_values (o : operation) (x : list Pair.pair) : operation :=
  {| network := network o; accessNode := accessNode o;
     homeNode := homeNode o; nextNode := nextNode o;
     nodeCount := nodeCount o; returnURL := returnURL o; state := state o;
     table := table o; values := x; browserWarning := browserWarning o;
     HTML := HTML o |}.

Definition set_browserWarning (o : operation) (x : float32) : operation :=
  {| network := network o; accessNode := accessNode o;
     homeNode := homeNode o; nextNode := nextNode o;
     nodeCount := nodeCount o; returnURL := returnURL o; state := state o;
     table := table o; values := values o; browserWarning := x;
     HTML := HTML o |}.

Definition set_HTML (o : operation) (x : HTML.t) : operation :=
  {| network := network o; accessNode := accessNode o;
     homeNode := homeNode o; nextNode := nextNode o;
     nodeCount := nodeCount o; returnURL := returnURL o; state := state o;
     table := table o; values := values o;
     browserWarning := browserWarning o; HTML := x |}.
End Operation.

(** [s.store], [s.config] and the access check of [*Services]. *)
Record Store : Type := {
  getNode : string -> option node * option error;
  getNodes : string -> result nodes
}.

Record Services : Type := {
  config : Config.t;
  store : Store;
  getAccessAllowed : Request.t -> bool
}.

(** What createURL calls and these sources do not hold: [newOperation] and
    [getNextURL] (operation.go), [url.Parse], [strconv.ParseFloat] and the
    conversion to [float32], and the order in which [range] walks the form,
    which Go leaves open. *)
Record Lib : Type := {
  newOperation : Services -> node -> Operation.operation;
  getNextURL : Operation.operation -> result URL.t;
  url_Parse : string -> result URL.t;
  strconv_ParseFloat : string -> Z -> float64 * option error;
  float32_of : float64 -> float32;
  range : Values -> list (string * list string)
}.

(** [byte(c)] *)
Definition byte_of_int (c : Z) : Z := c mod 256.

Definition bind {A B} (r : result A) (f : A -> result B) : result B :=
  match r with
  | Ok a => f a
  | Err e => Err e
  end.

Notation "'attempt' x <- r ; k" := (bind r (fun x => k))
  (at level 10, x name, r at level 100, k at level 200).

(** *** createURL, block by block *)

(** "Get the node associated with the request" and "If the node is not an
    access node then return an error". *)
Definition accessNodeOf (s : Services) (r : Request.t) : result node :=
  match getNode (store s) (Request.Host r) with
  | (_, Some err) => Err err
  | (None, None) =>
      Err (errorString
             ("Host '" +:+ Request.Host r +:+ "' is not a Swift node"))
  | (Some a, None) =>
      match role a with
      | roleAccess => Ok a
      | _ =>
          Err (errorString
                 ("Domain '" +:+ domain a +:+ "' is not an access node"))
      end
  end.

(** "Set the node count." *)
Definition setNodeCount (s : Services) (form : Values)
    (o : Operation.operation) : result Operation.operation :=
  if negb (String.eqb (Values_Get form bounces) "") then
    match strconv.Atoi (Values_Get form bounces) with
    | (_, Some err) => Err err
    | (c, None) =>
        if c <=? 0 then Err (errorString "Bounces must be greater than 0")
        else if c <? 255 then Ok (Operation.set_nodeCount o (byte_of_int c))
        else Err (errorString
                    ("Bounces '" +:+ itoa c +:+ "' must be less than 255"))
    end
  else Ok (Operation.set_nodeCount o (Config.NodeCount (config s))).

(** "Set the return URL that will have the encrypted data appended to it." *)
Definition setReturnURL (lib : Lib) (form : Values)
    (o : Operation.operation) : result Operation.operation :=
  attempt ru <- url_Parse lib (Values_Get form returnURLParam);
  if String.eqb (URL.Host ru) ""
  then Err (errorString ("Missing host from URL '" +:+ URL.String ru +:+ "'"))
  else if String.eqb (URL.Scheme ru) ""
  then Err (errorString
              ("Missing scheme from URL '" +:+ URL.String ru +:+ "'"))
  else Ok (Operation.set_returnURL o (URL.String ru)).

(** "Set any state information if provided" and "Set the table that will be
    used for the storage of the key value pairs". *)
Definition setStateAndTable (form : Values)
    (o : Operation.operation) : result Operation.operation :=
  let o1 := Operation.set_state o (Values_Get form stateParam) in
  let o2 := Operation.set_table o1 (Values_Get form tableParam) in
  if String.eqb (Operation.table o2) ""
  then Err (errorString "Missing table name")
  else Ok o2.

(** "Set the browser warning probability if provided." *)
Definition setBrowserWarning (lib : Lib) (form : Values)
    (o : Operation.operation) : Operation.operation :=
  match strconv_ParseFloat lib (Values_Get form browserWarningParam) 32 with
  | (b, None) => Operation.set_browserWarning o (float32_of lib b)
  | (_, Some _) => Operation.set_browserWarning o float32_zero
  end.

(** "Set the user interface parameters from the optional parameters provided
    or from the configuration". *)
Definition orDefault (x dflt : string) : string :=
  if String.eqb x "" then dflt else x.

Definition setHTML (s : Services) (form : Values)
    (o : Operation.operation) : Operation.operation :=
  Operation.set_HTML o
    {| HTML.Title :=
         orDefault (Values_Get form titleParam) (Config.Title (config s));
       HTML.Message :=
         orDefault (Values_Get form messageParam) (Config.Message (config s));
       HTML.MessageColor :=
         orDefault (Values_Get form messageColorParam)
           (Config.MessageColor (config s));
       HTML.BackgroundColor :=
         orDefault (Values_Get form backgroundColorParam)
           (Config.BackgroundColor (config s));
       HTML.ProgressColor :=
         orDefault (Values_Get form progressColorParam)
           (Config.ProgressColor (config s)) |}.

(** "Add the key value pairs from the form parameters." *)
Fixpoint addPairs (kvs : list (string * list string)) (clk : time.Clock)
    (o : Operation.operation) : result Operation.operation * time.Clock :=
  match kvs with
  | [] => (Ok o, clk)
  | (k, v) :: rest =>
      match negb (isReserved k), v with
      | true, v0 :: _ =>
          match createPair clk k v0 with
          | (Err err, clk') => (Err err, clk')
          | (Ok p, clk') =>
              match Pair.conflict p with
              | conflictInvalid =>
                  (Err (errorString
                          "Pair does not contain valid conflict flag"), clk')
              | _ =>
                  addPairs rest clk'
                    (Operation.set_values o (Operation.values o ++ [p]))
              end
          end
      | _, _ => addPairs rest clk o
      end
  end.

(** "For this network and request find the home node" and "Store the home
    node for the operation". *)
Definition setHomeNode (r : Request.t) (form : Values)
    (o : Operation.operation) : result Operation.operation :=
  let xff := orDefault (Values_Get form xforwarededfor)
               (Request.Header_Get r "X-FORWARDED-FOR") in
  let ra := orDefault (Values_Get form remoteAddr) (Request.RemoteAddr r) in
  attempt n <- getHomeNode (Operation.network o) xff ra;
  Ok (Operation.set_homeNode (Operation.set_nextNode o (Some n)) (domain n)).

(** The blocks before the loop over the form. *)
Definition prepare (lib : Lib) (s : Services) (r : Request.t)
  : result Operation.operation :=
  attempt a <- accessNodeOf s r;
  let o := newOperation lib s a in
  attempt nw <- getNodes (store s) (network a);
  let o := Operation.set_network o nw in
  let o := Operation.set_accessNode o (domain a) in
  match Request.ParseForm r with
  | (_, Some err) => Err err
  | (form, None) =>
      attempt o <- setNodeCount s form o;
      attempt o <- setReturnURL lib form o;
      attempt o <- setStateAndTable form o;
      Ok (setHTML s form (setBrowserWarning lib form o))
  end.

(** The operation as it stands when createURL asks it for the next URL. *)
Definition buildOperation (lib : Lib) (s : Services) (r : Request.t)
    (clk : time.Clock) : result Operation.operation * time.Clock :=
  match prepare lib s r with
  | Err err => (Err err, clk)
  | Ok o =>
      let form := fst (Request.ParseForm r) in
      match addPairs (range lib form) clk o with
      | (Err err, clk') => (Err err, clk')
      | (Ok o', clk') => (setHomeNode r form o', clk')
      end
  end.

Definition createURL (lib : Lib) (s : Services) (r : Request.t)
    (clk : time.Clock) : result string * time.Clock :=
  match buildOperation lib s r clk with
  | (Err err, clk') => (Err err, clk')
  | (Ok o, clk') =>
      match getNextURL lib o with
      | Err err => (Err err, clk')
      | Ok u => (Ok (URL.String u), clk')
      end
  end.

(** ** handlerDecodeAsJSON.go *)

Definition StatusBadRequest : Z := 400.
Definition StatusUnauthorized : Z := 401.
Definition StatusInternalServerError : Z := 500.

(** What the handler does to its [http.ResponseWriter], in order.
    [returnAPIError(s, w, err, code)] is not part of these sources: the call
    is recorded with its error and its status code. *)
Inductive event : Type :=
| HeaderSet (name val : string)
| Write (b : bytes)
| returnAPIError (err : error) (code : Z).

(** What the handler calls and these sources do not hold: [getAccessNode],
    [DecodeResults], the [Results] it returns with its [Values] and
    [IsTimeStampValid], [json.Marshal], and whether [w.Write] fails. *)
Record DecodeLib : Type := {
  Results : Type;
  Results_Values : Results -> list Pair.pair;
  IsTimeStampValid : Results -> bool;
  DecodeResults : bytes -> result Results;
  getAccessNode : Services -> Request.t -> result node;
  json_Marshal : list Pair.pair -> bytes * option error;
  w_Write : bytes -> option error
}.

Definition HandlerDecodeAsJSON (lib : DecodeLib) (s : Services)
    (r : Request.t) : list event :=
  match Request.ParseForm r with
  | (_, Some err) => [returnAPIError err StatusInternalServerError]
  | (form, None) =>
  if negb (getAccessAllowed s r)
  then [returnAPIError (errorString "Not authorized") StatusUnauthorized]
  else
  match getAccessNode lib s r with
  | Err err => [returnAPIError err StatusInternalServerError]
  | Ok n =>
  match base64.DecodeString (Values_Get form "data") with
  | (_, Some err) => [returnAPIError err StatusBadRequest]
  | (in_, None) =>
  match decrypt n (default [] in_) with
  | (_, Some err) => [returnAPIError err StatusBadRequest]
  | (None, None) =>
      [returnAPIError (errorString "Could not decrypt input")
         StatusBadRequest]
  | (Some d, None) =>
  match DecodeResults lib d with
  | Err err => [returnAPIError err StatusBadRequest]
  | Ok a =>
  if negb (IsTimeStampValid lib a)
  then [returnAPIError
          (errorString "Results expired and can no longer be decrypted")
          StatusBadRequest]
  else
  match json_Marshal lib (Results_Values lib a) with
  | (_, Some err) => [returnAPIError err StatusInternalServerError]
  | (b, None) =>
      [HeaderSet "Access-Control-Allow-Origin" "*";
       HeaderSet "Content-Type" "application/json";
       HeaderSet "Cache-Control" "no-cache";
       HeaderSet "Content-Length" (itoa (Z.of_nat (length b)));
       Write b]
      ++ match w_Write lib b with
         | Some err => [returnAPIError err StatusInternalServerError]
         | None => []
         end
  end end end end end end.

(** ** node.go and handlerCreate.go: the remaining functions *)

(** *** isActive

<<
  return n.expires.After(time.Now().UTC()) && len(n.secrets) > 0
>>
    The clock is read before the secrets are counted. *)
Definition isActive (n : node) (clk : time.Clock) : bool * time.Clock :=
  let '(now, clk') := time.Now clk in
  (After (expires n) now && (0 <? length (secrets n))%nat, clk').

(** *** getValueFromCookie

    [readTime] and [pair.setFromBuffer] (pair.go) are not part of these
    sources, nor is the declaration that fixes the zero value of the
    conflict field.  [readTime] takes the buffer and gives it back without
    the bytes it consumed; [setFromBuffer] fills the pair it is called on
    from the rest.  [error_Error] is [err.Error()]. *)
Module Cookie.
Record t : Type := { Name : string; Value : string }.
End Cookie.

Record CookieLib : Type := {
  zeroConflict : conflict_t;
  readTime : bytes -> (Time * option error) * bytes;
  setFromBuffer : Pair.pair -> bytes -> Pair.pair * option error;
  error_Error : error -> string
}.

(** [var p pair] *)
Definition zeroPair (lib : CookieLib) : Pair.pair :=
  {| Pair.key := ""; Pair.value := ""; Pair.conflict := zeroConflict lib;
     Pair.created := time.zero; Pair.expires := time.zero;
     Pair.cookieWriteTime := time.zero |}.

Definition set_cookieWriteTime (p : Pair.pair) (t : Time) : Pair.pair :=
  {| Pair.key := Pair.key p; Pair.value := Pair.value p;
     Pair.conflict := Pair.conflict p; Pair.created := Pair.created p;
     Pair.expires := Pair.expires p; Pair.cookieWriteTime := t |}.

Definition errZeroLength (name : string) : error :=
  errorString ("Value for cookie '" +:+ name +:+ "' zero length").

Definition errTimeInvalid (name : string) : error :=
  errorString ("Time for cookie '" +:+ name +:+ "' invalid").

Definition errCookieValue (name msg : string) : error :=
  errorString ("Value for cookie '" +:+ name +:+ "' error '" +:+ msg +:+ "'").

Definition getValueFromCookie (lib : CookieLib) (n : node) (c : Cookie.t)
  : option Pair.pair * option error :=
  match base64.DecodeString (Cookie.Value c) with
  | (_, Some err) => (None, Some err)
  | (v, None) =>
  match decrypt n (default [] v) with
  | (_, Some err) => (None, Some err)
  | (d, None) =>
  match default [] d with
  | [] => (None, Some (errZeroLength (Cookie.Name c)))
  | _ =>
  match readTime lib (default [] d) with
  | ((_, Some _), _) => (None, Some (errTimeInvalid (Cookie.Name c)))
  | ((t, None), b) =>
  match setFromBuffer lib (set_cookieWriteTime (zeroPair lib) t) b with
  | (_, Some err) =>
      (None, Some (errCookieValue (Cookie.Name c) (error_Error lib err)))
  | (p, None) => (Some p, None)
  end end end end end.

(** *** SetHomeNodeHeaders

<<
  if r.Header.Get("X-FORWARDED-FOR") != "" {
      q.Set("X-FORWARDED-FOR", r.Header.Get("X-FORWARDED-FOR"))
  }
  q.Set("remoteAddr", r.RemoteAddr)
>>
    [Values.Set] replaces what the key held by the one value. *)
Definition Values_Set (q : Values) (key val : string) : Values :=
  <[key := [val]]> q.

Definition SetHomeNodeHeaders (r : Request.t) (q : Values) : Values :=
  let q1 :=
    if negb (String.eqb (Request.Header_Get r "X-FORWARDED-FOR") "")
    then Values_Set q "X-FORWARDED-FOR"
           (Request.Header_Get r "X-FORWARDED-FOR")
    else q in
  Values_Set q1 "remoteAddr" (Request.RemoteAddr r).

(** *** HandlerCreate

    [write] tells whether [w.Write] fails on the bytes it is given. *)
Definition HandlerCreate (lib : Lib) (write : bytes -> option error)
    (s : Services) (r : Request.t) (clk : time.Clock)
  : list event * time.Clock :=
  if negb (getAccessAllowed s r)
  then ([returnAPIError (errorString "Not authorized") StatusUnauthorized],
        clk)
  else
    match createURL lib s r clk with
    | (Err err, clk') => ([returnAPIError err StatusBadRequest], clk')
    | (Ok u, clk') =>
        let b := bytes_of_string u in
        (([HeaderSet "Content-Type" "text/plain; charset=utf-8";
           HeaderSet "Cache-Control" "no-cache";
           HeaderSet "Content-Length" (itoa (Z.of_nat (length b)));
           Write b]
          ++ match write b with
             | Some err => [returnAPIError err StatusInternalServerError]
             | None => []
             end)%list,
         clk')
    end.

(** ** Vocabulary of the statements *)

(** How many of the characters [+], [<], [>] a key holds. *)
Definition countOperationCharacters (k : string) : nat :=
  length (List.filter isOperationCharacter (list_ascii_of_string k)).

(** The conflict policy each operation character selects. *)
Definition policyOf (c : ascii) : conflict_t :=
  if Ascii.eqb c "+" then conflictAdd
  else if Ascii.eqb c "<" then conflictOldest
  else if Ascii.eqb c ">" then conflictNewest
  else conflictInvalid.

(** The clock after [n] more readings. *)
Definition advance (n : nat) (c : time.Clock) : time.Clock :=
  {| time.reading := time.reading c; time.ticks := (n + time.ticks c)%nat |}.

(** [opens c p nonce]: what [encryptWithNonce] seals under [nonce],
    [decrypt] of the same key opens again. *)
Definition opens (c : crypto) (p nonce : bytes) : Prop :=
  crypto_decrypt c (encryptWithNonce c p nonce) = (Some p, None).

(** A secret fails on a ciphertext when its [decryptAndDecompress] returns
    an error. *)
Definition failsOn (s : secret) (d : bytes) : Prop :=
  exists e, snd (decryptAndDecompress (secret_crypto s) d) = Some e.

(** The four sextets of a 24-bit value, as [Encode] takes them. *)
Definition sextet (v : Z) (shift : Z) : Z := Z.land (Z.shiftr v shift) 63.

(** In the prefix that insertion sort keeps back to front, an element is
    never [less] than one found further on. *)
Definition back {A} (less : A -> A -> bool) (a b : A) : Prop :=
  less a b = false.

(** A date written as YYYY-MM-DD, each field padded with zeros: what
    [Format("2006-01-02")] prints for the years 0 to 9999. *)
Definition digitChar (n : Z) : ascii := ascii_of_nat (Z.to_nat (48 + n mod 10)).

Definition formatDate (year month day : Z) : string :=
  String (digitChar (year / 1000)) (String (digitChar (year / 100))
  (String (digitChar (year / 10)) (String (digitChar year)
  (String "-" (String (digitChar (month / 10)) (String (digitChar month)
  (String "-" (String (digitChar (day / 10)) (String (digitChar day)
  ""))))))))).

(** A day of the calendar, with a four-digit year. *)
Definition validDate (year month day : Z) : Prop :=
  0 <= year <= 9999 /\ 1 <= month <= 12 /\
  1 <= day <= time.daysIn month year.

(** The formal reading of "node.decrypt returns an error when no secret
    succeeds, also when there is no secret". *)
Definition decrypt_reports_error : Prop :=
  forall (n : node) (d : bytes),
    Forall (fun s => failsOn s d) (secrets n) ->
    exists e, snd (decrypt n d) = Some e.

(** The formal reading of the sentence "after sortSecrets, getSecret returns
    the secret with the greatest timeStamp". *)
Definition getSecret_returns_newest (srt : sorter) : Prop :=
  forall (n : node) (s : secret),
    getSecret (sortSecrets srt n) = (Some s, None) ->
    forall s', In s' (secrets n) -> timeStamp s' <= timeStamp s.

(** The formal reading of "createPair fails whenever the parsed date is not
    strictly after the current time". *)
Definition createPair_requires_strictly_after : Prop :=
  forall (clk : time.Clock) (pre post v : string) (c : ascii) (t : Time),
    countOperationCharacters pre = 0%nat ->
    isOperationCharacter c = true ->
    countOperationCharacters post = 0%nat ->
    time.Parse post = Ok t ->
    ~ time.reading clk (time.ticks clk) < t ->
    exists e, fst (createPair clk (pre ++ String c post) v) = Err e.

(** The characters of the URL-safe base64 alphabet: letters, digits, [-]
    and [_]. *)
Definition urlSafe (c : ascii) : bool :=
  let n := nat_of_ascii c in
  ((65 <=? n) && (n <=? 90) || (97 <=? n) && (n <=? 122)
   || (48 <=? n) && (n <=? 57) || (n =? 45) || (n =? 95))%nat.

(** The form fields the loop of createURL turns into pairs: not reserved,
    and with at least one value. *)
Definition eligible (kv : string * list string) : bool :=
  negb (isReserved (fst kv))
  && match snd kv with [] => false | _ :: _ => true end.

(** The names isReserved knows. *)
Definition reservedNames : list string :=
  [titleParam; messageParam; returnURLParam; progressColorParam;
   messageColorParam; backgroundColorParam; tableParam; browserWarningParam;
   xforwarededfor; remoteAddr; bounces; stateParam; accessKey].

(** One day, in nanoseconds. *)
Definition nsPerDay : Z := 86400 * 1000000000.

(** [madeFrom kv p]: the pair [p] is what the form field [kv] stands for:
    its key is the text before the single operation character of the field
    name, its policy the one of that character, its expiry the date after
    it, and its value the first value of the field. *)
Definition madeFrom (kv : string * list string) (p : Pair.pair) : Prop :=
  exists (c : ascii) (year month day : Z) (v0 : string) (rest : list string),
    kv = (Pair.key p ++ String c (formatDate year month day), v0 :: rest) /\
    countOperationCharacters (Pair.key p) = 0%nat /\
    isOperationCharacter c = true /\
    validDate year month day /\
    Pair.conflict p = policyOf c /\
    Pair.conflict p <> conflictInvalid /\
    Pair.expires p = time.Date year month day /\
    Pair.value p = v0 /\
    Pair.cookieWriteTime p = time.zero.

(** A secret opens a ciphertext when its [decryptAndDecompress] returns no
    error. *)
Definition opensWith (s : secret) (d : bytes) (b : option bytes) : Prop :=
  decryptAndDecompress (secret_crypto s) d = (b, None).

(** The three shapes a response of the two handlers can have: one error and
    nothing else; the headers and the body; the headers, the body and the
    error of the failed write. *)
Inductive responseShape : list event -> Prop :=
| shapeError (e : error) (code : Z) :
    (code = 400 \/ code = 401 \/ code = 500) ->
    responseShape [returnAPIError e code]
| shapeBody (hs : list event) (b : bytes) :
    Forall (fun ev => exists k v, ev = HeaderSet k v) hs ->
    In (HeaderSet "Content-Length" (itoa (Z.of_nat (length b)))) hs ->
    responseShape (hs ++ [Write b])%list
| shapeBroken (hs : list event) (b : bytes) (e : error) :
    Forall (fun ev => exists k v, ev = HeaderSet k v) hs ->
    responseShape (hs ++ [Write b; returnAPIError e 500])%list.


(** ** Concrete values used to run the definitions *)

Module Fixture.

Definition xor (key b : byte) : byte :=
  base64.byte_of_uint
    (Z.lxor (base64.uint_of_byte key) (base64.uint_of_byte b)).

Definition authFailed : error :=
  errorString "cipher: message authentication failed".

(** A stand-in cipher with a twelve-byte nonce: the output is the nonce,
    then the key byte as the tag, then the masked plaintext. *)
Definition seal (key : byte) (p nonce : bytes) : bytes :=
  (nonce ++ key :: map (xor key) p)%list.

Definition open (key : byte) (b : bytes) : option bytes * option error :=
  match drop 12 b with
  | tag :: ct =>
      if Byte.eqb tag key then (Some (map (xor key) ct), None)
      else (None, Some authFailed)
  | [] => (None, Some authFailed)
  end.

Definition cipher (key : byte) : crypto :=
  {| gcm_NonceSize := 12;
     encryptWithNonce := seal key;
     crypto_decrypt := open key;
     compressAndEncrypt :=
       fun rand p => (Some (seal key p (take 12 rand)), None);
     decryptAndDecompress := open key |}.

Definition older : secret :=
  {| timeStamp := 1000; secret_crypto := cipher "001" |}.
Definition newer : secret :=
  {| timeStamp := 2000; secret_crypto := cipher "002" |}.
Definition scrambleSecret : secret :=
  {| timeStamp := 500; secret_crypto := cipher "007" |}.

Definition newSecretFromKey (k : string) (t : Time)
  : option secret * option error :=
  (Some {| timeStamp := t; secret_crypto := cipher "007" |}, None).

(** An access node without secrets, as [newNode] builds it. *)
Definition bare : node :=
  {| network := "net"; domain := "a.example"; hash := 0;
     created := 500; expires := 9000; role := roleAccess;
     secrets := []; scrambler := scrambleSecret;
     nonce := list_byte_of_string "a.examplea.e"; alive := true |}.

(** The same node after its two secrets were added, the older first. *)
Definition rotated : node := addSecret (addSecret bare older) newer.

(** A ciphertext no key of the node opens. *)
Definition garbage : bytes := list_byte_of_string "000000000000Zjunk".

Definition clockAt (t : Time) : time.Clock :=
  {| time.reading := fun i => t + Z.of_nat i; time.ticks := 0 |}.

Definition emptyHTML : HTML.t :=
  {| HTML.Title := ""; HTML.Message := ""; HTML.MessageColor := "";
     HTML.BackgroundColor := ""; HTML.ProgressColor := "" |}.

Definition network1 : nodes := {| getHomeNode := fun _ _ => Ok rotated |}.

Definition services : Services :=
  {| config := {| Config.NodeCount := 10; Config.Title := "t";
                  Config.Message := "m"; Config.MessageColor := "black";
                  Config.BackgroundColor := "white";
                  Config.ProgressColor := "blue" |};
     store := {| getNode := fun _ => (Some rotated, None);
                 getNodes := fun _ => Ok network1 |};
     getAccessAllowed := fun _ => true |}.

(** A [url.Parse] that knows one URL, and a [ParseFloat] that knows one
    number. *)
Definition lib : Lib :=
  {| newOperation := fun _ _ =>
       {| Operation.network := network1; Operation.accessNode := "";
          Operation.homeNode := ""; Operation.nextNode := None;
          Operation.nodeCount := 0; Operation.returnURL := "";
          Operation.state := ""; Operation.table := "";
          Operation.values := []; Operation.browserWarning := float32_zero;
          Operation.HTML := emptyHTML |};
     getNextURL := fun o =>
       Ok {| URL.Scheme := "https"; URL.Host := Operation.homeNode o;
             URL.String := "https://" +:+ Operation.homeNode o |};
     url_Parse := fun s =>
       if String.eqb s "https://r.example/"
       then Ok {| URL.Scheme := "https"; URL.Host := "r.example";
                  URL.String := s |}
       else Err (Foreign "url.Parse");
     strconv_ParseFloat := fun s _ =>
       if String.eqb s "0.5" then (Float64frombits 4602678819172646912, None)
       else (Float64frombits 0,
             Some (NumError "ParseFloat" s strconv.ErrSyntax));
     float32_of := fun f =>
       match f with Float64frombits b =>
         if b =? 4602678819172646912 then Float32frombits 1056964608
         else Float32frombits 0
       end;
     range := fun v => map_to_list v |}.

Definition request (form : Values) : Request.t :=
  {| Request.Host := "a.example"; Request.RemoteAddr := "10.0.0.1:99";
     Request.Header_Get := fun _ => "";
     Request.ParseForm := (form, None) |}.

Definition baseForm : Values :=
  {[ "returnUrl" := ["https://r.example/"]; "table" := ["tbl"] ]}.

Definition withBounces (b : string) : Values :=
  <["bounces" := [b]]> baseForm.

Definition withWarning (w : string) : Values :=
  <["browserWarning" := [w]]> baseForm.

(** The [data] parameter carrying [plain] sealed under the newer key. *)
Definition sealed (plain : string) : string :=
  base64.EncodeToString
    (seal "002" (list_byte_of_string plain)
       (list_byte_of_string "000000000000")).

Definition dataForm (data : string) : Values := {[ "data" := [data] ]}.

(** A decoder of results that reads the first byte as the freshness flag. *)
Definition decodeLib (writeFails : bool) : DecodeLib :=
  {| Results := bytes;
     Results_Values := fun _ => [];
     IsTimeStampValid := fun a =>
       match a with b :: _ => Byte.eqb b "F" | [] => false end;
     DecodeResults := fun d =>
       match d with
       | [] => Err (Foreign "DecodeResults")
       | _ => Ok d
       end;
     getAccessNode := fun _ _ => Ok rotated;
     json_Marshal := fun _ => (list_byte_of_string "[]", None);
     w_Write := fun _ =>
       if writeFails then Some (Foreign "Write") else None |}.

End Fixture.

(** ** Further concrete values *)

Module Scenario.

(** A cookie codec that keeps the write time in the first byte and the
    key of the pair in the rest. *)
Definition cookieLib : CookieLib :=
  {| zeroConflict := conflictInvalid;
     readTime := fun b =>
       match b with
       | t :: rest => ((Z.of_N (Byte.to_N t), None), rest)
       | [] => ((0, Some (Foreign "readTime")), [])
       end;
     setFromBuffer := fun p b =>
       match b with
       | [] => (p, Some (Foreign "setFromBuffer"))
       | _ =>
           ({| Pair.key := string_of_bytes b; Pair.value := "";
               Pair.conflict := conflictAdd;
               Pair.created := Pair.created p;
               Pair.expires := Pair.expires p;
               Pair.cookieWriteTime := Pair.cookieWriteTime p |}, None)
       end;
     error_Error := fun _ => "short buffer" |}.

Definition cookie (value : string) : Cookie.t :=
  {| Cookie.Name := "swift"; Cookie.Value := value |}.

(** A form with one stored pair and one field that is no pair. *)
Definition pairForm : Values :=
  <["age+2099-01-01" := ["30"]]> Fixture.baseForm.

Definition brokenForm : Values :=
  <["colour" := ["red"]]> pairForm.

(** The request another node forwards, with the client's addresses. *)
Definition forwarded : Request.t :=
  {| Request.Host := "b.example"; Request.RemoteAddr := "192.0.2.7:4000";
     Request.Header_Get := fun name =>
       if String.eqb name "X-FORWARDED-FOR" then "198.51.100.9" else "";
     Request.ParseForm := (∅, None) |}.

End Scenario.

(** * Properties *)

(** ** node.decrypt *)

(** A secret that opens the ciphertext ends the search: the secrets after
    it are not consulted. *)
Lemma decrypt_loop_success (s : secret) (ss : list secret) (d : bytes)
    (b : option bytes) (outer : option error) :
  decryptAndDecompress (secret_crypto s) d = (b, None) ->
  decrypt_loop (s :: ss) d outer = (b, None).
Proof. intros H. simpl. rewrite H. reflexivity. Qed.

(** A secret that fails is passed over. *)
Lemma decrypt_loop_skip (s : secret) (ss : list secret) (d : bytes)
    (outer : option error) :
  failsOn s d ->
  decrypt_loop (s :: ss) d outer = decrypt_loop ss d outer.
Proof.
  intros [e He]. simpl.
  destruct (decryptAndDecompress (secret_crypto s) d) as [b err].
  simpl in He. subst err. reflexivity.
Qed.

(** The first secret that succeeds decides the result. *)
Lemma decrypt_first_success (n : node) (d : bytes) (pre post : list secret)
    (s : secret) (b : option bytes) :
  secrets n = (pre ++ s :: post)%list ->
  Forall (fun s' => failsOn s' d) pre ->
  decryptAndDecompress (secret_crypto s) d = (b, None) ->
  decrypt n d = (b, None).
Proof.
  unfold decrypt. intros -> Hpre Hs.
  induction Hpre as [|s' pre' Hs' _ IH]; simpl app.
  - apply decrypt_loop_success, Hs.
  - rewrite decrypt_loop_skip by exact Hs'. exact IH.
Qed.

(** When every secret fails, the loop ends with the outer [err], which is
    still [nil]: no error is reported. *)
Lemma decrypt_loop_all_fail (ss : list secret) (d : bytes)
    (outer : option error) :
  Forall (fun s => failsOn s d) ss ->
  decrypt_loop ss d outer = (None, outer).
Proof.
  induction 1 as [|s ss' Hs _ IH]; [reflexivity|].
  rewrite decrypt_loop_skip by exact Hs. exact IH.
Qed.

Lemma decrypt_none_succeeds (n : node) (d : bytes) :
  Forall (fun s => failsOn s d) (secrets n) ->
  decrypt n d = (None, None).
Proof. apply decrypt_loop_all_fail. Qed.

(** C1, as stated, fails: a node without secrets has no secret that
    succeeds, and decrypt returns a nil plaintext with a nil error. *)
Lemma decrypt_reports_error_counterexample :
  secrets Fixture.bare = [] /\
  decrypt Fixture.bare Fixture.garbage = (None, None) /\
  ~ decrypt_reports_error.
Proof.
  split; [reflexivity|]. split; [reflexivity|].
  intros Hclaim.
  destruct (Hclaim Fixture.bare Fixture.garbage) as [e He].
  - constructor.
  - discriminate He.
Qed.

(** C1, amended.  node.decrypt tries the secrets of the node in sequence
    order and returns what the first secret whose decryptAndDecompress
    succeeds gives, with a nil error; on a node without secrets it returns a
    nil plaintext and a nil error. *)
Theorem decrypt_first_success_wins (n : node) (d : bytes) :
  (forall (pre post : list secret) (s : secret) (b : option bytes),
      secrets n = (pre ++ s :: post)%list ->
      Forall (fun s' => failsOn s' d) pre ->
      decryptAndDecompress (secret_crypto s) d = (b, None) ->
      decrypt n d = (b, None)) /\
  (secrets n = [] -> decrypt n d = (None, None)).
Proof.
  split.
  - intros pre post s b. apply decrypt_first_success.
  - intros Hnone. unfold decrypt. rewrite Hnone. reflexivity.
Qed.

Lemma decrypt_first_success_wins_witness :
  decrypt Fixture.rotated
    (Fixture.seal "002" (list_byte_of_string "payload")
       (list_byte_of_string "000000000000"))
  = (Some (list_byte_of_string "payload"), None) /\
  decrypt Fixture.bare Fixture.garbage = (None, None).
Proof.
  split.
  - apply (proj1 (decrypt_first_success_wins Fixture.rotated _)
             [Fixture.older] [] Fixture.newer).
    + reflexivity.
    + repeat constructor. eexists. vm_compute. reflexivity.
    + vm_compute. reflexivity.
  - apply (proj2 (decrypt_first_success_wins Fixture.bare Fixture.garbage)).
    reflexivity.
Defined.

(** ** makeNonce *)

Lemma succ_mod_wrap (i L : nat) :
  (0 < L)%nat ->
  (if (L <=? S (i mod L))%nat then O else S (i mod L)) = (S i mod L)%nat.
Proof.
  intros HL.
  pose proof (Nat.mod_upper_bound i L ltac:(lia)) as Hb.
  destruct (Nat.leb_spec L (S (i mod L))) as [Hle|Hlt].
  - assert (Hm : (i mod L = L - 1)%nat) by lia.
    rewrite (Nat.div_mod_eq i L) at 1. rewrite Hm.
    replace (S (L * (i / L) + (L - 1)))%nat with ((1 + i / L) * L)%nat by lia.
    symmetry. apply Nat.Div0.mod_mul.
  - rewrite (Nat.div_mod_eq i L) at 2.
    replace (S (L * (i / L) + i mod L))%nat
      with (S (i mod L) + (i / L) * L)%nat by lia.
    rewrite Nat.Div0.mod_add. symmetry. apply Nat.mod_small. lia.
Qed.

(** The loop invariant: with [c = i mod len(d)] on entry, the remaining
    iterations fill [n[i..]] cyclically from [d] and leave [n[..i]] alone. *)
Lemma makeNonce_loop_spec (d : bytes) (k : nat) :
  (0 < length d)%nat ->
  forall (i : nat) (n : bytes),
    (i + k = length n)%nat ->
    exists n',
      makeNonce_loop d k i (i mod length d) n = Returns n' /\
      length n' = length n /\
      (forall j, (j < i)%nat -> n' !! j = n !! j) /\
      (forall j, (i <= j < i + k)%nat -> n' !! j = d !! (j mod length d)%nat).
Proof.
  intros Hd. induction k as [|k IH]; intros i n Hlen;
    cbn [makeNonce_loop].
  - exists n. repeat split; auto. intros j Hj. lia.
  - pose proof (Nat.mod_upper_bound i (length d) ltac:(lia)) as Hc.
    destruct (lookup_lt_is_Some_2 d (i mod length d)%nat Hc) as [x Hx].
    rewrite Hx, succ_mod_wrap by exact Hd.
    destruct (IH (S i) (<[i:=x]> n)) as (n' & Hrun & Hl & Hlow & Hhigh).
    { rewrite length_insert. lia. }
    exists n'. rewrite length_insert in Hl.
    split; [exact Hrun|]. split; [exact Hl|]. split.
    + intros j Hj. rewrite Hlow by lia.
      apply list_lookup_insert_ne. lia.
    + intros j Hj. destruct (decide (j = i)) as [->|Hne].
      * rewrite Hlow by lia. rewrite list_lookup_insert_eq by lia.
        symmetry. exact Hx.
      * apply Hhigh. lia.
Qed.

(** With an empty [d] the first iteration reads [d[0]] and panics. *)
Lemma makeNonce_loop_empty (k i c : nat) (n : bytes) :
  makeNonce_loop [] (S k) i c n = Panics (IndexOutOfRange c 0).
Proof. reflexivity. Qed.

(** C10. For a non-empty domain, makeNonce returns a buffer of the AEAD
    nonce size whose byte at index i is d[i mod len(d)].  For an empty
    domain (the nonce size being positive, as it is for every AEAD) the read
    of d[0] is out of range, so makeNonce panics, and so does newNode once
    the scrambler secret has been built. *)
Theorem makeNonce_cycles_domain (s : secret) (d : bytes) :
  (d <> [] ->
   exists n,
     makeNonce s d = Returns n /\
     length n = gcm_NonceSize (secret_crypto s) /\
     forall i, (i < gcm_NonceSize (secret_crypto s))%nat ->
               n !! i = d !! (i mod length d)%nat) /\
  ((0 < gcm_NonceSize (secret_crypto s))%nat ->
   makeNonce s [] = Panics (IndexOutOfRange 0 0) /\
   forall newSecretFromKey network' created' expires' role' scrambleKey,
     newSecretFromKey scrambleKey created' = (Some s, None) ->
     newNode newSecretFromKey network' "" created' expires' role' scrambleKey
     = Panics (IndexOutOfRange 0 0)).
Proof.
  split.
  - intros Hd. unfold makeNonce.
    set (size := gcm_NonceSize (secret_crypto s)).
    assert (Hpos : (0 < length d)%nat)
      by (destruct d; [congruence | simpl; lia]).
    destruct (makeNonce_loop_spec d size Hpos 0 (replicate size "000"%byte))
      as (n' & Hrun & Hl & _ & Hhigh).
    { rewrite length_replicate. reflexivity. }
    rewrite Nat.Div0.mod_0_l in Hrun.
    rewrite length_replicate in *.
    exists n'. split; [exact Hrun|]. split; [exact Hl|].
    intros i Hi. apply Hhigh. lia.
  - intros Hsize.
    assert (Hpanic : makeNonce s [] = Panics (IndexOutOfRange 0 0)).
    { unfold makeNonce. rewrite length_replicate.
      destruct (gcm_NonceSize (secret_crypto s)); [lia | reflexivity]. }
    split; [exact Hpanic|].
    intros nsk nw cr ex rl key Hkey. unfold newNode. rewrite Hkey.
    change (bytes_of_string "") with (@nil byte).
    rewrite Hpanic. reflexivity.
Qed.

Lemma makeNonce_cycles_domain_witness :
  (exists n,
     makeNonce Fixture.scrambleSecret (list_byte_of_string "a.example")
     = Returns n /\
     length n = 12%nat /\
     n !! 10%nat = Some "."%byte) /\
  newNode Fixture.newSecretFromKey "net" "" 500 9000 roleAccess "key"
  = Panics (IndexOutOfRange 0 0).
Proof.
  pose proof (makeNonce_cycles_domain Fixture.scrambleSecret
                (list_byte_of_string "a.example")) as [Hfull _].
  pose proof (makeNonce_cycles_domain
                {| timeStamp := 500; secret_crypto := Fixture.cipher "007" |}
                []) as [_ Hempty].
  split.
  - destruct Hfull as (n & Hrun & Hlen & Hnth); [discriminate|].
    exists n. split; [exact Hrun|]. split; [exact Hlen|].
    rewrite (Hnth 10%nat) by (simpl; lia). reflexivity.
  - destruct Hempty as [_ Hnew]; [simpl; lia|].
    apply Hnew. reflexivity.
Defined.

(** ** sortSecrets and getSecret *)

(** The comparison of [sortSecrets] is "strictly earlier": the saturation of
    [Sub] never changes the sign of the difference. *)
Lemma secretLess_lt (a b : secret) :
  secretLess a b = true <-> timeStamp a < timeStamp b.
Proof.
  unfold secretLess, Sub.
  assert (Hmin : minDuration = -9223372036854775808) by reflexivity.
  assert (Hmax : maxDuration = 9223372036854775807) by reflexivity.
  destruct (Z.ltb_spec (timeStamp a - timeStamp b) minDuration) as [Hlow|Hlow].
  - rewrite Hmin. split; [lia | reflexivity].
  - destruct (Z.ltb_spec maxDuration (timeStamp a - timeStamp b))
      as [Hhigh|Hhigh].
    + rewrite Hmax. split; [discriminate | lia].
    + rewrite Z.ltb_lt. lia.
Qed.

Lemma secretLess_ge (a b : secret) :
  secretLess a b = false <-> timeStamp b <= timeStamp a.
Proof.
  pose proof (secretLess_lt a b) as H.
  destruct (secretLess a b); split; intros; try discriminate; try reflexivity.
  - assert (timeStamp a < timeStamp b) by (apply H; reflexivity). lia.
  - destruct (Z.lt_ge_cases (timeStamp a) (timeStamp b)) as [Hlt|Hge].
    + apply H in Hlt. discriminate.
    + exact Hge.
Qed.

Lemma secretLess_strict_weak_order : strict_weak_order secretLess.
Proof.
  repeat split.
  - intros a. apply secretLess_ge. lia.
  - intros a b c H1 H2. apply secretLess_lt in H1, H2. apply secretLess_lt. lia.
  - intros a b c H1 H2. apply secretLess_ge in H1, H2. apply secretLess_ge. lia.
Qed.

(** In a slice [ordered_by less], nothing is [less] than the element at
    index 0. *)
Lemma ordered_by_head {A} (less : A -> A -> bool) (x : A) (l : list A) :
  (forall a, less a a = false) ->
  ordered_by less (x :: l) ->
  forall y, In y (x :: l) -> less y x = false.
Proof.
  intros Hirr Hord y [<-|Hy]; [apply Hirr|].
  apply list_elem_of_In, list_elem_of_lookup in Hy as [j Hj].
  apply (Hord 0%nat (S j) x y); [lia | reflexivity | exact Hj].
Qed.

(** *** Insertion sort meets the contract of [sort.Slice] *)

Section InsertionSort.
Context {A : Type} (less : A -> A -> bool).
Hypothesis Hswo : strict_weak_order less.

Lemma less_asym (a b : A) : less a b = true -> less b a = false.
Proof.
  destruct Hswo as (Hirr & Htrans & _). intros Hab.
  destruct (less b a) eqn:Hba; [|reflexivity].
  rewrite <- (Hirr a). symmetry. exact (Htrans a b a Hab Hba).
Qed.

Lemma sink_Permutation (x : A) (front : list A) :
  Permutation (x :: front) (sink less x front).
Proof.
  induction front as [|y front IH]; simpl; [reflexivity|].
  destruct (less x y); [|reflexivity].
  rewrite perm_swap. constructor. exact IH.
Qed.

Lemma sink_sorted (x : A) (front : list A) :
  StronglySorted (back less) front ->
  StronglySorted (back less) (sink less x front).
Proof.
  destruct Hswo as (_ & _ & Hneg).
  induction 1 as [|y front Hs IH Hall]; simpl.
  - repeat constructor.
  - destruct (less x y) eqn:Hxy.
    + constructor; [exact IH|].
      apply (Permutation_Forall (sink_Permutation x front)).
      constructor; [apply less_asym, Hxy | exact Hall].
    + constructor; [constructor; assumption|].
      constructor; [exact Hxy|].
      eapply Forall_impl; [exact Hall|].
      intros z Hyz. exact (Hneg x y z Hxy Hyz).
Qed.

Lemma fold_sink_Permutation (l front : list A) :
  Permutation (front ++ l) (fold_left (fun f x => sink less x f) l front).
Proof.
  revert front. induction l as [|x l IH]; intros front; simpl.
  - rewrite app_nil_r. reflexivity.
  - rewrite <- IH, <- (sink_Permutation x front).
    symmetry. apply Permutation_middle.
Qed.

Lemma fold_sink_sorted (l front : list A) :
  StronglySorted (back less) front ->
  StronglySorted (back less) (fold_left (fun f x => sink less x f) l front).
Proof.
  revert front. induction l as [|x l IH]; intros front Hs; simpl.
  - exact Hs.
  - apply IH, sink_sorted, Hs.
Qed.

Lemma StronglySorted_lookup (R : A -> A -> Prop) (l : list A) :
  StronglySorted R l ->
  forall (i j : nat) (a b : A),
    (i < j)%nat -> l !! i = Some a -> l !! j = Some b -> R a b.
Proof.
  induction 1 as [|x l Hs IH Hall]; intros i j a b Hij Hi Hj.
  - discriminate.
  - destruct j as [|j]; [lia|]. destruct i as [|i]; simpl in Hi, Hj.
    + injection Hi as <-.
      rewrite Forall_forall in Hall. apply Hall.
      apply list_elem_of_lookup. eauto.
    + apply (IH i j); [lia | assumption | assumption].
Qed.

Lemma insertionSort_ordered (l : list A) :
  ordered_by less (insertionSort A less l).
Proof.
  unfold insertionSort. intros i j a b Hij Hi Hj.
  apply reverse_lookup_Some in Hi as [Hi2 Hi1], Hj as [Hj2 Hj1].
  refine (StronglySorted_lookup (back less) _ (fold_sink_sorted l [] _)
            _ _ b a _ Hj2 Hi2).
  - constructor.
  - lia.
Qed.

End InsertionSort.

Lemma insertionSort_sorts : sorts insertionSort.
Proof.
  intros A less l Hswo. split.
  - unfold insertionSort. rewrite reverse_Permutation.
    exact (fold_sink_Permutation less l []).
  - apply insertionSort_ordered, Hswo.
Qed.

(** C2, as stated, fails: on the node that received its older secret and
    then its newer one, getSecret after sortSecrets returns the older. *)
Lemma getSecret_newest_counterexample :
  getSecret (sortSecrets insertionSort Fixture.rotated)
  = (Some Fixture.older, None) /\
  In Fixture.newer (secrets Fixture.rotated) /\
  timeStamp Fixture.older < timeStamp Fixture.newer /\
  ~ getSecret_returns_newest insertionSort.
Proof.
  assert (Hget : getSecret (sortSecrets insertionSort Fixture.rotated)
                 = (Some Fixture.older, None)) by reflexivity.
  assert (Hin : In Fixture.newer (secrets Fixture.rotated))
    by (simpl; auto).
  repeat split; try assumption; try reflexivity.
  intros Hclaim.
  specialize (Hclaim Fixture.rotated Fixture.older Hget Fixture.newer Hin).
  simpl in Hclaim. lia.
Qed.

(** C2, amended.  After sortSecrets (with any sorting routine that meets the
    contract of sort.Slice), getSecret on a node that has secrets returns
    one of them whose timeStamp is the least, that is the oldest, and
    encrypt seals under that secret. *)
Theorem getSecret_after_sort_is_oldest (srt : sorter) (n : node) :
  sorts srt ->
  secrets n <> [] ->
  exists s,
    getSecret (sortSecrets srt n) = (Some s, None) /\
    In s (secrets n) /\
    (forall s', In s' (secrets n) -> timeStamp s <= timeStamp s') /\
    (forall rand d,
        encrypt (sortSecrets srt n) rand d
        = compressAndEncrypt (secret_crypto s) rand d).
Proof.
  intros Hsorts Hne.
  destruct (Hsorts secret secretLess (secrets n) secretLess_strict_weak_order)
    as [Hperm Hord].
  unfold getSecret, encrypt, getSecret, sortSecrets. simpl.
  destruct (srt secret secretLess (secrets n)) as [|s rest] eqn:Hsorted.
  - apply Permutation_sym, Permutation_nil in Hperm. contradiction.
  - exists s. split; [reflexivity|]. split; [|split].
    + apply (Permutation_in s (Permutation_sym Hperm)). left. reflexivity.
    + intros s' Hs'. apply secretLess_ge.
      apply (ordered_by_head secretLess s rest).
      * apply secretLess_strict_weak_order.
      * exact Hord.
      * apply (Permutation_in s' Hperm Hs').
    + reflexivity.
Qed.

Lemma getSecret_after_sort_is_oldest_witness :
  exists s,
    getSecret (sortSecrets insertionSort Fixture.rotated) = (Some s, None) /\
    In s (secrets Fixture.rotated) /\
    (forall s', In s' (secrets Fixture.rotated) ->
                timeStamp s <= timeStamp s') /\
    (forall rand d,
        encrypt (sortSecrets insertionSort Fixture.rotated) rand d
        = compressAndEncrypt (secret_crypto s) rand d).
Proof.
  apply (getSecret_after_sort_is_oldest insertionSort Fixture.rotated).
  - exact insertionSort_sorts.
  - discriminate.
Defined.

(** ** createPair *)

Lemma countOperationCharacters_cons (c : ascii) (k : string) :
  countOperationCharacters (String c k)
  = ((if isOperationCharacter c then 1 else 0)
     + countOperationCharacters k)%nat.
Proof.
  unfold countOperationCharacters. simpl.
  destruct (isOperationCharacter c); reflexivity.
Qed.

(** Without an operation character the pattern does not match. *)
Lemma findFrom_none (k : string) (i : nat) :
  countOperationCharacters k = 0%nat -> findFrom k i = None.
Proof.
  revert i. induction k as [|c k IH]; intros i H; [reflexivity|].
  rewrite countOperationCharacters_cons in H. simpl.
  destruct (isOperationCharacter c); [discriminate|]. apply IH. exact H.
Qed.

(** The leftmost match is the first operation character, one character
    wide. *)
Lemma findFrom_first (pre post : string) (c : ascii) (i : nat) :
  countOperationCharacters pre = 0%nat ->
  isOperationCharacter c = true ->
  findFrom (pre ++ String c post) i
  = Some [(i + String.length pre)%nat; S (i + String.length pre)].
Proof.
  revert i. induction pre as [|a pre IH]; intros i Hpre Hc; simpl.
  - rewrite Hc, Nat.add_0_r. reflexivity.
  - rewrite countOperationCharacters_cons in Hpre.
    destruct (isOperationCharacter a); [discriminate|].
    rewrite IH by assumption.
    replace (S i + String.length pre)%nat
      with (i + S (String.length pre))%nat by lia.
    reflexivity.
Qed.

(** A key with an operation character splits at the first one. *)
Lemma split_at_operation (k : string) :
  (0 < countOperationCharacters k)%nat ->
  exists pre c post,
    k = pre ++ String c post /\
    countOperationCharacters pre = 0%nat /\
    isOperationCharacter c = true /\
    countOperationCharacters k = S (countOperationCharacters post).
Proof.
  induction k as [|a k IH]; intros H.
  - inversion H.
  - rewrite countOperationCharacters_cons in *.
    destruct (isOperationCharacter a) eqn:Ha.
    + exists "", a, k. repeat split; auto.
    + destruct (IH H) as (pre & c & post & -> & Hpre & Hc & Hcount).
      exists (String a pre), c, post. repeat split; auto.
      rewrite countOperationCharacters_cons, Ha. exact Hpre.
Qed.

Lemma charAt_split (pre post : string) (c : ascii) :
  charAt (pre ++ String c post) (String.length pre) = c.
Proof.
  unfold charAt. induction pre as [|a pre IH]; simpl; [reflexivity|exact IH].
Qed.

Lemma substring_all (s : string) : substring 0 (String.length s) s = s.
Proof.
  induction s as [|a s IH]; simpl; [reflexivity | rewrite IH; reflexivity].
Qed.

Lemma slice_from_split (pre post : string) (c : ascii) :
  slice_from (pre ++ String c post) (String.length pre + 1) = post.
Proof.
  unfold slice_from. induction pre as [|a pre IH]; simpl.
  - rewrite Nat.sub_0_r. apply substring_all.
  - exact IH.
Qed.

Lemma slice_to_split (pre post : string) (c : ascii) :
  slice_to (pre ++ String c post) (String.length pre) = pre.
Proof.
  unfold slice_to. induction pre as [|a pre IH]; simpl.
  - reflexivity.
  - rewrite IH. reflexivity.
Qed.

Lemma policyOf_operation (c : ascii) :
  isOperationCharacter c = true ->
  (if Ascii.eqb c "+" then Some conflictAdd
   else if Ascii.eqb c "<" then Some conflictOldest
   else if Ascii.eqb c ">" then Some conflictNewest
   else None) = Some (policyOf c).
Proof.
  unfold isOperationCharacter, policyOf.
  destruct (Ascii.eqb c "+"), (Ascii.eqb c "<"), (Ascii.eqb c ">");
    simpl; congruence.
Qed.

(** What createPair does on a key whose first operation character is [c]:
    everything is decided by the text after [c] and by the clock. *)
Lemma createPair_split (clk : time.Clock) (pre post v : string) (c : ascii) :
  countOperationCharacters pre = 0%nat ->
  isOperationCharacter c = true ->
  createPair clk (pre ++ String c post) v
  = match time.Parse post with
    | Err e => (Err e, clk)
    | Ok t =>
        if Before t (time.reading clk (time.ticks clk))
        then (Err (errNotFuture post), advance 1 clk)
        else (Ok {| Pair.key := pre;
                    Pair.value := v;
                    Pair.conflict := policyOf c;
                    Pair.created := time.reading clk (S (time.ticks clk));
                    Pair.expires := t;
                    Pair.cookieWriteTime := time.zero |},
              advance 2 clk)
    end.
Proof.
  intros Hpre Hc. unfold createPair, FindStringIndex.
  rewrite (findFrom_first pre post c 0 Hpre Hc).
  cbn [length at_ nth Nat.add Nat.ltb Nat.leb orb].
  replace (Z.of_nat (S (String.length pre)) - Z.of_nat (String.length pre) =? 1)
    with true by (symmetry; apply Z.eqb_eq; lia).
  cbn [negb]. rewrite charAt_split, (policyOf_operation c Hc).
  rewrite slice_from_split, slice_to_split.
  destruct (time.Parse post) as [t|e]; reflexivity.
Qed.

(** A digit is not an operation character, and neither is the hyphen. *)
Lemma isDigit_not_operation (c : ascii) :
  isDigit c = true -> isOperationCharacter c = false.
Proof.
  destruct c as [[] [] [] [] [] [] [] []]; vm_compute; congruence.
Qed.

(** What [time.Parse] accepts under the layout 2006-01-02 is ten characters
    long: four digits, a hyphen, two digits, a hyphen, two digits. *)
Lemma Parse_shape (s : string) (t : Time) :
  time.Parse s = Ok t ->
  exists y1 y2 y3 y4 m1 m2 d1 d2,
    s = String y1 (String y2 (String y3 (String y4 (String "-"
          (String m1 (String m2 (String "-" (String d1 (String d2 "")))))))))
    /\ Forall (fun c => isDigit c = true) [y1; y2; y3; y4; m1; m2; d1; d2].
Proof.
  unfold time.Parse, time.getyear, time.getnum, time.skip.
  destruct s as [|y1 [|y2 [|y3 [|y4 s]]]]; try discriminate.
  destruct (isDigit y1) eqn:?, (isDigit y2) eqn:?, (isDigit y3) eqn:?,
    (isDigit y4) eqn:?; try discriminate.
  cbn [andb].
  destruct s as [|h1 s]; try discriminate.
  destruct (Ascii.eqb_spec h1 "-") as [->|Hh1].
  2:{ destruct h1 as [[] [] [] [] [] [] [] []]; try discriminate.
      contradiction Hh1; reflexivity. }
  destruct s as [|m1 [|m2 s]]; try discriminate.
  destruct (isDigit m1) eqn:?, (isDigit m2) eqn:?; try discriminate.
  cbn [andb].
  destruct (_ || _) eqn:Hmonth; try discriminate.
  destruct s as [|h2 s]; try discriminate.
  destruct (Ascii.eqb_spec h2 "-") as [->|Hh2].
  2:{ destruct h2 as [[] [] [] [] [] [] [] []]; try discriminate.
      contradiction Hh2; reflexivity. }
  destruct s as [|d1 [|d2 s]]; try discriminate.
  destruct (isDigit d1) eqn:?, (isDigit d2) eqn:?; try discriminate.
  cbn [andb].
  destruct s; try discriminate.
  intros _. exists y1, y2, y3, y4, m1, m2, d1, d2.
  split; [reflexivity|]. repeat constructor; assumption.
Qed.

Lemma Parse_no_operation (s : string) (t : Time) :
  time.Parse s = Ok t -> countOperationCharacters s = 0%nat.
Proof.
  intros H. apply Parse_shape in H
    as (y1 & y2 & y3 & y4 & m1 & m2 & d1 & d2 & -> & Hd).
  repeat match goal with
         | H : Forall _ (_ :: _) |- _ => inversion H; clear H; subst
         end.
  rewrite !countOperationCharacters_cons.
  repeat match goal with
         | H : isDigit ?c = true |- _ =>
             rewrite (isDigit_not_operation c H); clear H
         end.
  reflexivity.
Qed.

(** The error of time.Parse names the layout and the text it was given. *)
Lemma Parse_Err_inv (s : string) (e : error) :
  time.Parse s = Err e ->
  exists reason, e = ParseError time.layout s reason.
Proof.
  unfold time.Parse. intros H.
  repeat match type of H with
         | match ?x with _ => _ end = _ => destruct x
         | (if ?b then _ else _) = _ => destruct b
         | (let (_, _) := ?x in _) = _ => destruct x
         end; try discriminate H;
    injection H as <-; eauto.
Qed.

(** The match of the pattern is always two indices, one apart. *)
Lemma findFrom_width (k : string) (j : nat) (i : list nat) :
  findFrom k j = Some i -> length i = 2%nat /\ at_ i 1 = S (at_ i 0).
Proof.
  revert j. induction k as [|c k IH]; intros j H; simpl in H.
  - discriminate H.
  - destruct (isOperationCharacter c).
    + injection H as <-. split; reflexivity.
    + exact (IH _ H).
Qed.

Lemma append_inj_l (p s t : string) : p ++ s = p ++ t -> s = t.
Proof.
  induction p as [|c p IH]; simpl; intros H; [exact H|].
  injection H as H. exact (IH H).
Qed.

(** The two messages about operation characters differ on every key. *)
Lemma errNoOperation_not_errOnlyOne (k : string) :
  errNoOperation k <> errOnlyOne k.
Proof.
  unfold errNoOperation, errOnlyOne. intros H. injection H as H.
  apply (append_inj_l EmptyString) in H. apply (append_inj_l k) in H.
  cbv in H. discriminate H.
Qed.

(** C3. Without an operation character createPair returns the message that
    asks for one.  With more than one it fails as well, but never with the
    message written for that case, "must contained only one '+', '<' or '>'
    character": FindStringIndex gives the leftmost match only, always two
    indices one apart, so the test [len(i) > 2 || i[1]-i[0] != 1] is false
    on every key.  What createPair returns for such a key is the error of
    time.Parse on the text after the first operation character. *)
Theorem createPair_only_one_never_reported
    (clk : time.Clock) (k v : string) :
  (countOperationCharacters k = 0%nat ->
   createPair clk k v = (Err (errNoOperation k), clk)) /\
  (forall i, FindStringIndex k = Some i ->
             length i = 2%nat /\ at_ i 1 = S (at_ i 0)) /\
  ((1 < countOperationCharacters k)%nat ->
   exists pre c post reason,
     k = pre ++ String c post /\
     countOperationCharacters pre = 0%nat /\
     isOperationCharacter c = true /\
     createPair clk k v
     = (Err (ParseError time.layout post reason), clk)) /\
  (forall e clk', createPair clk k v = (Err e, clk') -> e <> errOnlyOne k).
Proof.
  split; [|split; [|split]].
  - intros H. unfold createPair, FindStringIndex.
    rewrite (findFrom_none k 0 H). reflexivity.
  - intros i H. exact (findFrom_width k 0 i H).
  - intros H.
    destruct (split_at_operation k ltac:(lia))
      as (pre & c & post & -> & Hpre & Hc & Hcount).
    rewrite (createPair_split clk pre post v c Hpre Hc).
    destruct (time.Parse post) as [t|e] eqn:Hparse.
    + apply Parse_no_operation in Hparse. lia.
    + destruct (Parse_Err_inv post e Hparse) as [reason ->].
      exists pre, c, post, reason. repeat split; assumption.
  - intros e clk' H.
    destruct (Nat.eq_dec (countOperationCharacters k) 0%nat) as [H0|H0].
    + unfold createPair, FindStringIndex in H.
      rewrite (findFrom_none k 0 H0) in H. injection H as <- <-.
      apply errNoOperation_not_errOnlyOne.
    + destruct (split_at_operation k ltac:(lia))
        as (pre & c & post & Hk & Hpre & Hc & _).
      rewrite Hk in H.
      rewrite (createPair_split clk pre post v c Hpre Hc) in H.
      destruct (time.Parse post) as [t|e'] eqn:Hparse.
      * destruct (Before t _); [|discriminate H].
        injection H as <- <-. unfold errNotFuture, errOnlyOne.
        discriminate.
      * injection H as <- <-.
        destruct (Parse_Err_inv post e' Hparse) as [reason ->].
        unfold errOnlyOne. discriminate.
Qed.

Lemma createPair_only_one_never_reported_witness :
  createPair (Fixture.clockAt 0) "age2099-01-01" "30"
  = (Err (errNoOperation "age2099-01-01"), Fixture.clockAt 0) /\
  createPair (Fixture.clockAt 0) "a+b>2099-01-01" "30"
  = (Err (ParseError time.layout "b>2099-01-01" ""), Fixture.clockAt 0) /\
  (exists pre c post reason,
     "a+b>2099-01-01" = pre ++ String c post /\
     countOperationCharacters pre = 0%nat /\
     isOperationCharacter c = true /\
     createPair (Fixture.clockAt 0) "a+b>2099-01-01" "30"
     = (Err (ParseError time.layout post reason), Fixture.clockAt 0)) /\
  ParseError time.layout "b>2099-01-01" "" <> errOnlyOne "a+b>2099-01-01".
Proof.
  pose proof (createPair_only_one_never_reported
                (Fixture.clockAt 0) "age2099-01-01" "30") as [Hnone _].
  pose proof (createPair_only_one_never_reported
                (Fixture.clockAt 0) "a+b>2099-01-01" "30")
    as (_ & _ & Hmany & Hnever).
  split; [apply Hnone; reflexivity|].
  split; [reflexivity|].
  split; [apply Hmany; vm_compute; lia|].
  apply (Hnever _ (Fixture.clockAt 0)). reflexivity.
Defined.

(** *** Dates in the layout 2006-01-02 *)

Lemma digitChar_digit (n : Z) :
  isDigit (digitChar n) = true /\ digitVal (digitChar n) = n mod 10.
Proof.
  unfold digitChar.
  assert (H : 0 <= n mod 10 < 10) by (apply Z.mod_pos_bound; lia).
  assert (Hcases : n mod 10 = 0 \/ n mod 10 = 1 \/ n mod 10 = 2 \/
                   n mod 10 = 3 \/ n mod 10 = 4 \/ n mod 10 = 5 \/
                   n mod 10 = 6 \/ n mod 10 = 7 \/ n mod 10 = 8 \/
                   n mod 10 = 9) by lia.
  repeat destruct Hcases as [Hc|Hcases]; try rename Hcases into Hc;
    rewrite Hc; split; reflexivity.
Qed.

(** [time.Parse] reads every valid date back from its YYYY-MM-DD form. *)
Lemma Parse_formatDate (year month day : Z) :
  validDate year month day ->
  time.Parse (formatDate year month day) = Ok (time.Date year month day).
Proof.
  intros (Hy & Hm & Hd).
  assert (Hyear : ((year / 1000 mod 10 * 10 + (year / 100) mod 10) * 10
                   + (year / 10) mod 10) * 10 + year mod 10 = year)
    by (Z.div_mod_to_equations; lia).
  assert (Hmonth : (month / 10) mod 10 * 10 + month mod 10 = month)
    by (Z.div_mod_to_equations; lia).
  assert (Hday : (day / 10) mod 10 * 10 + day mod 10 = day).
  { assert (time.daysIn month year <= 31)
      by (unfold time.daysIn;
          repeat match goal with |- context [if ?b then _ else _] =>
                   destruct b end; lia).
    Z.div_mod_to_equations. lia. }
  unfold time.Parse, formatDate, time.getyear, time.getnum, time.skip.
  repeat first
    [ rewrite (proj1 (digitChar_digit _))
    | rewrite (proj2 (digitChar_digit _))
    | progress cbn [andb] ].
  rewrite Hyear, Hmonth.
  destruct (Z.leb_spec month 0); [lia|].
  destruct (Z.ltb_spec 12 month); [lia|].
  cbn [orb].
  repeat first
    [ rewrite (proj1 (digitChar_digit _))
    | rewrite (proj2 (digitChar_digit _))
    | progress cbn [andb] ].
  rewrite Hday.
  destruct (Z.ltb_spec day 1); [lia|].
  destruct (Z.ltb_spec (time.daysIn month year) day); [lia|].
  reflexivity.
Qed.

(** C4. On a key [name op YYYY-MM-DD] whose name holds no operation
    character, whose [op] is one of [+], [<], [>] and whose date is a day of
    the calendar after the current time, createPair returns the pair with
    the name as key, the supplied value, the clock reading taken at
    completion as created time, that date as expiry, and the conflict policy
    Add for [+], OldestWins for [<], NewestWins for [>].  In particular
    createPair("age+2099-01-01", "30") before 2099 gives key "age", conflict
    Add, expires 2099-01-01. *)
Theorem createPair_well_formed :
  (forall (clk : time.Clock) (name v : string) (op : ascii)
          (year month day : Z),
      countOperationCharacters name = 0%nat ->
      isOperationCharacter op = true ->
      validDate year month day ->
      time.reading clk (time.ticks clk) < time.Date year month day ->
      createPair clk (name ++ String op (formatDate year month day)) v
      = (Ok {| Pair.key := name;
               Pair.value := v;
               Pair.conflict := policyOf op;
               Pair.created := time.reading clk (S (time.ticks clk));
               Pair.expires := time.Date year month day;
               Pair.cookieWriteTime := time.zero |},
         advance 2 clk)) /\
  (policyOf "+" = conflictAdd /\
   policyOf "<" = conflictOldest /\
   policyOf ">" = conflictNewest) /\
  (forall clk : time.Clock,
      time.reading clk (time.ticks clk) < time.Date 2099 1 1 ->
      createPair clk "age+2099-01-01" "30"
      = (Ok {| Pair.key := "age";
               Pair.value := "30";
               Pair.conflict := conflictAdd;
               Pair.created := time.reading clk (S (time.ticks clk));
               Pair.expires := time.Date 2099 1 1;
               Pair.cookieWriteTime := time.zero |},
         advance 2 clk)).
Proof.
  assert (Hgen :
    forall (clk : time.Clock) (name v : string) (op : ascii)
           (year month day : Z),
      countOperationCharacters name = 0%nat ->
      isOperationCharacter op = true ->
      validDate year month day ->
      time.reading clk (time.ticks clk) < time.Date year month day ->
      createPair clk (name ++ String op (formatDate year month day)) v
      = (Ok {| Pair.key := name;
               Pair.value := v;
               Pair.conflict := policyOf op;
               Pair.created := time.reading clk (S (time.ticks clk));
               Pair.expires := time.Date year month day;
               Pair.cookieWriteTime := time.zero |},
         advance 2 clk)).
  { intros clk name v op year month day Hname Hop Hdate Hfuture.
    rewrite (createPair_split clk name _ v op Hname Hop).
    rewrite (Parse_formatDate year month day Hdate).
    unfold Before.
    destruct (Z.ltb_spec (time.Date year month day)
                (time.reading clk (time.ticks clk))); [lia|].
    reflexivity. }
  split; [exact Hgen|]. split; [repeat split|].
  intros clk Hnow.
  apply (Hgen clk "age" "30" "+"%char 2099 1 1);
    [reflexivity | reflexivity | | exact Hnow].
  repeat split; vm_compute; discriminate.
Qed.

Lemma createPair_well_formed_witness :
  createPair (Fixture.clockAt 1700000000000000000) "seen<2030-06-15" "yes"
  = (Ok {| Pair.key := "seen";
           Pair.value := "yes";
           Pair.conflict := conflictOldest;
           Pair.created := 1700000000000000001;
           Pair.expires := time.Date 2030 6 15;
           Pair.cookieWriteTime := time.zero |},
     advance 2 (Fixture.clockAt 1700000000000000000)) /\
  createPair (Fixture.clockAt 1700000000000000000) "age+2099-01-01" "30"
  = (Ok {| Pair.key := "age";
           Pair.value := "30";
           Pair.conflict := conflictAdd;
           Pair.created := 1700000000000000001;
           Pair.expires := time.Date 2099 1 1;
           Pair.cookieWriteTime := time.zero |},
     advance 2 (Fixture.clockAt 1700000000000000000)).
Proof.
  destruct createPair_well_formed as (Hgen & _ & Hage).
  split.
  - apply (Hgen (Fixture.clockAt 1700000000000000000)
             "seen" "yes" "<"%char 2030 6 15);
      [reflexivity | reflexivity | | vm_compute; reflexivity].
    repeat split; vm_compute; discriminate.
  - apply (Hage (Fixture.clockAt 1700000000000000000)).
    vm_compute. reflexivity.
Defined.

(** C5, as stated, fails: when the clock reads exactly midnight of the
    expiry date, the date is not strictly after the current time and
    createPair returns the pair all the same. *)
Lemma createPair_strictly_after_counterexample :
  time.Parse "2099-01-01" = Ok (time.Date 2099 1 1) /\
  ~ time.reading (Fixture.clockAt (time.Date 2099 1 1)) 0
    < time.Date 2099 1 1 /\
  fst (createPair (Fixture.clockAt (time.Date 2099 1 1))
         "age+2099-01-01" "30")
  = Ok {| Pair.key := "age";
          Pair.value := "30";
          Pair.conflict := conflictAdd;
          Pair.created := time.Date 2099 1 1 + 1;
          Pair.expires := time.Date 2099 1 1;
          Pair.cookieWriteTime := time.zero |} /\
  ~ createPair_requires_strictly_after.
Proof.
  split; [reflexivity|].
  split; [vm_compute; discriminate|].
  split; [reflexivity|].
  intros Hclaim.
  destruct (Hclaim (Fixture.clockAt (time.Date 2099 1 1))
              "age" "2099-01-01" "30" "+"%char (time.Date 2099 1 1)
              eq_refl eq_refl eq_refl eq_refl) as [e He].
  - vm_compute. discriminate.
  - vm_compute in He. discriminate.
Qed.

(** C5, amended.  A key with exactly one operation character splits at it;
    createPair parses the text after it as a YYYY-MM-DD date and fails when
    that text does not parse and when the parsed date is before the current
    time.  A parsed date that is not before the current time, the current
    instant included, is accepted as the expiry. *)
Theorem createPair_expiry_check (clk : time.Clock) (k v : string) :
  countOperationCharacters k = 1%nat ->
  exists pre c post,
    k = pre ++ String c post /\
    countOperationCharacters pre = 0%nat /\
    isOperationCharacter c = true /\
    countOperationCharacters post = 0%nat /\
    (forall e, time.Parse post = Err e ->
               createPair clk k v = (Err e, clk)) /\
    (forall t, time.Parse post = Ok t ->
               t < time.reading clk (time.ticks clk) ->
               createPair clk k v = (Err (errNotFuture post), advance 1 clk)) /\
    (forall t, time.Parse post = Ok t ->
               time.reading clk (time.ticks clk) <= t ->
               exists p,
                 createPair clk k v = (Ok p, advance 2 clk) /\
                 Pair.expires p = t).
Proof.
  intros Hone.
  destruct (split_at_operation k ltac:(lia))
    as (pre & c & post & -> & Hpre & Hc & Hcount).
  exists pre, c, post.
  rewrite (createPair_split clk pre post v c Hpre Hc).
  split; [reflexivity|]. split; [exact Hpre|]. split; [exact Hc|].
  split; [lia|]. unfold Before. repeat split.
  - intros e ->. reflexivity.
  - intros t -> Hpast.
    destruct (Z.ltb_spec t (time.reading clk (time.ticks clk))); [|lia].
    reflexivity.
  - intros t -> Hnow.
    destruct (Z.ltb_spec t (time.reading clk (time.ticks clk))); [lia|].
    eexists. split; reflexivity.
Qed.

Lemma createPair_expiry_check_witness :
  exists pre c post,
    "age+2000-01-01" = pre ++ String c post /\
    countOperationCharacters pre = 0%nat /\
    isOperationCharacter c = true /\
    countOperationCharacters post = 0%nat /\
    (forall e, time.Parse post = Err e ->
               createPair (Fixture.clockAt 1700000000000000000)
                 "age+2000-01-01" "30"
               = (Err e, Fixture.clockAt 1700000000000000000)) /\
    (forall t, time.Parse post = Ok t ->
               t < 1700000000000000000 ->
               createPair (Fixture.clockAt 1700000000000000000)
                 "age+2000-01-01" "30"
               = (Err (errNotFuture post),
                  advance 1 (Fixture.clockAt 1700000000000000000))) /\
    (forall t, time.Parse post = Ok t ->
               1700000000000000000 <= t ->
               exists p,
                 createPair (Fixture.clockAt 1700000000000000000)
                   "age+2000-01-01" "30"
                 = (Ok p, advance 2 (Fixture.clockAt 1700000000000000000)) /\
                 Pair.expires p = t).
Proof.
  apply (createPair_expiry_check (Fixture.clockAt 1700000000000000000)
           "age+2000-01-01" "30").
  reflexivity.
Defined.

(** ** base64.RawURLEncoding: decoding undoes encoding *)

Module base64_facts.
Import base64.

(** Bits of a multiple of [2^k] and of a number below [2^k] never meet, so
    their [lor] is their sum. *)
Lemma lor_disjoint_add (k x y : Z) :
  0 <= k -> x mod 2 ^ k = 0 -> 0 <= y < 2 ^ k -> Z.lor x y = x + y.
Proof.
  intros Hk Hx Hy. symmetry. apply Z.add_nocarry_lor.
  apply Z.bits_inj'. intros n Hn.
  rewrite Z.land_spec, Z.bits_0.
  destruct (Z.lt_ge_cases n k) as [Hlow|Hhigh].
  - rewrite <- (Z.mod_pow2_bits_low x k n) by lia.
    rewrite Hx, Z.bits_0. reflexivity.
  - destruct (Z.eq_dec y 0) as [->|Hy0].
    + rewrite Z.bits_0. apply andb_false_r.
    + rewrite (Z.bits_above_log2 y n); [apply andb_false_r | lia |].
      assert (Z.log2 y < k) by (apply Z.log2_lt_pow2; lia). lia.
Qed.

Lemma land_63 (x : Z) : Z.land x 63 = x mod 64.
Proof. exact (Z.land_ones x 6 ltac:(lia)). Qed.

Lemma land_255 (x : Z) : Z.land x 255 = x mod 256.
Proof. exact (Z.land_ones x 8 ltac:(lia)). Qed.

Lemma uint_of_byte_range (b : byte) : 0 <= uint_of_byte b < 256.
Proof.
  unfold uint_of_byte. pose proof (Byte.to_N_bounded b). lia.
Qed.

Lemma byte_of_uint_of_byte (b : byte) (x : Z) :
  x mod 256 = uint_of_byte b -> byte_of_uint x = b.
Proof.
  intros H. unfold byte_of_uint. rewrite land_255, H.
  unfold uint_of_byte. rewrite N2Z.id, Byte.of_to_N. reflexivity.
Qed.

(** The 24 bits of three bytes, as [Encode] assembles them. *)
Lemma pack3 (a b c : Z) :
  0 <= a < 256 -> 0 <= b < 256 -> 0 <= c < 256 ->
  Z.lor (Z.lor (Z.shiftl a 16) (Z.shiftl b 8)) c
  = a * 65536 + b * 256 + c.
Proof.
  intros Ha Hb Hc. rewrite !Z.shiftl_mul_pow2 by lia.
  change (2 ^ 16) with 65536. change (2 ^ 8) with 256.
  rewrite (lor_disjoint_add 16 (a * 65536) (b * 256));
    [| lia | change (2 ^ 16) with 65536; apply Z.mod_mul; lia
     | change (2 ^ 16) with 65536; lia].
  rewrite (lor_disjoint_add 8); [reflexivity | lia | | exact Hc].
  change (2 ^ 8) with 256.
  replace (a * 65536 + b * 256) with ((a * 256 + b) * 256) by lia.
  apply Z.mod_mul. lia.
Qed.

(** The 24 bits of four sextets, as [decodeQuantum] assembles them. *)
Lemma quantum_sum (d0 d1 d2 d3 : Z) :
  0 <= d0 < 64 -> 0 <= d1 < 64 -> 0 <= d2 < 64 -> 0 <= d3 < 64 ->
  quantum d0 d1 d2 d3 = ((d0 * 64 + d1) * 64 + d2) * 64 + d3.
Proof.
  intros H0 H1 H2 H3. unfold quantum.
  rewrite !Z.shiftl_mul_pow2 by lia.
  change (2 ^ 18) with 262144. change (2 ^ 12) with 4096.
  change (2 ^ 6) with 64.
  rewrite (lor_disjoint_add 18 (d0 * 262144) (d1 * 4096));
    [| lia | change (2 ^ 18) with 262144; apply Z.mod_mul; lia
     | change (2 ^ 18) with 262144; lia].
  rewrite (lor_disjoint_add 12 (d0 * 262144 + d1 * 4096) (d2 * 64));
    [| lia | | change (2 ^ 12) with 4096; lia].
  2:{ change (2 ^ 12) with 4096.
      replace (d0 * 262144 + d1 * 4096) with ((d0 * 64 + d1) * 4096) by lia.
      apply Z.mod_mul. lia. }
  rewrite (lor_disjoint_add 6 _ d3); [lia | lia | | exact H3].
  change (2 ^ 6) with 64.
  replace (d0 * 262144 + d1 * 4096 + d2 * 64)
    with (((d0 * 64 + d1) * 64 + d2) * 64) by lia.
  apply Z.mod_mul. lia.
Qed.

(** Every sextet is read back from the character that encodes it. *)
Lemma decodeChar_encodeChar (i : Z) :
  0 <= i < 64 -> decodeChar (encodeChar i) = Some i.
Proof.
  intros Hi.
  assert (Hall : forallb
            (fun n => match decodeChar (encodeChar (Z.of_nat n)) with
                      | Some j => j =? Z.of_nat n
                      | None => false
                      end) (seq 0 64) = true) by (vm_compute; reflexivity).
  rewrite forallb_forall in Hall.
  specialize (Hall (Z.to_nat i)). rewrite Z2Nat.id in Hall by lia.
  destruct (decodeChar (encodeChar i)) as [j|].
  - f_equal. apply Z.eqb_eq. apply Hall. apply in_seq. lia.
  - discriminate Hall. apply in_seq. lia.
Qed.

Lemma encodeChar_not_ignored (i : Z) :
  0 <= i < 64 -> ignored (encodeChar i) = false.
Proof.
  intros Hi.
  assert (Hall : forallb
            (fun n => negb (ignored (encodeChar (Z.of_nat n))))
            (seq 0 64) = true) by (vm_compute; reflexivity).
  rewrite forallb_forall in Hall.
  specialize (Hall (Z.to_nat i)). rewrite Z2Nat.id in Hall by lia.
  apply negb_true_iff, Hall, in_seq. lia.
Qed.

Lemma sextet_div (v shift : Z) :
  0 <= shift -> sextet v shift = (v / 2 ^ shift) mod 64.
Proof.
  intros Hs. unfold sextet. rewrite land_63, Z.shiftr_div_pow2 by lia.
  reflexivity.
Qed.

Lemma sextet_range (v shift : Z) : 0 <= shift -> 0 <= sextet v shift < 64.
Proof. intros Hs. rewrite sextet_div by lia. apply Z.mod_pos_bound. lia. Qed.

Lemma land_63_range (v : Z) : 0 <= Z.land v 63 < 64.
Proof. rewrite land_63. apply Z.mod_pos_bound. lia. Qed.

(** Reassembling the sextets of a 24-bit value gives the value back. *)
Lemma quantum_sextets (v : Z) :
  0 <= v < 16777216 ->
  quantum (sextet v 18) (sextet v 12) (sextet v 6) (Z.land v 63) = v.
Proof.
  intros Hv.
  rewrite quantum_sum by (try apply sextet_range; try apply land_63_range; lia).
  rewrite !sextet_div, land_63 by lia.
  change (2 ^ 18) with 262144. change (2 ^ 12) with 4096.
  change (2 ^ 6) with 64.
  Z.div_mod_to_equations. lia.
Qed.

Lemma quantum_sextets_2 (v : Z) :
  0 <= v < 16777216 -> v mod 64 = 0 ->
  quantum (sextet v 18) (sextet v 12) (sextet v 6) 0 = v.
Proof.
  intros Hv Hlow.
  transitivity (quantum (sextet v 18) (sextet v 12) (sextet v 6)
                  (Z.land v 63)).
  - rewrite land_63, Hlow. reflexivity.
  - apply quantum_sextets, Hv.
Qed.

Lemma quantum_sextets_1 (v : Z) :
  0 <= v < 16777216 -> v mod 4096 = 0 ->
  quantum (sextet v 18) (sextet v 12) 0 0 = v.
Proof.
  intros Hv Hlow.
  transitivity (quantum (sextet v 18) (sextet v 12) (sextet v 6) 0).
  - rewrite (sextet_div v 6) by lia. change (2 ^ 6) with 64.
    replace ((v / 64) mod 64) with 0; [reflexivity|].
    Z.div_mod_to_equations. lia.
  - apply quantum_sextets_2; [exact Hv|].
    Z.div_mod_to_equations. lia.
Qed.

(** Induction three bytes at a time, the way [Encode] consumes its input. *)
Lemma by_triples (P : bytes -> Prop) :
  P [] -> (forall a, P [a]) -> (forall a b, P [a; b]) ->
  (forall a b c rest, P rest -> P (a :: b :: c :: rest)) ->
  forall src, P src.
Proof.
  intros H0 H1 H2 H3 src.
  assert (Hall : forall n (l : bytes), (length l <= n)%nat -> P l).
  { induction n as [|n IH]; intros l Hl.
    - destruct l; [exact H0 | simpl in Hl; lia].
    - destruct l as [|a [|b [|c rest]]]; auto.
      apply H3, IH. simpl in Hl. lia. }
  apply (Hall (length src)). lia.
Qed.

Lemma decode_byte (a : byte) (v : Z) :
  v / 65536 mod 256 = uint_of_byte a ->
  byte_of_uint (Z.shiftr v 16) = a.
Proof.
  intros H. apply byte_of_uint_of_byte.
  rewrite Z.shiftr_div_pow2 by lia. exact H.
Qed.

Theorem Decode_Encode (src : bytes) : Decode (Encode src) = Some src.
Proof.
  induction src as [|a|a b|a b c rest IH] using by_triples.
  - reflexivity.
  - pose proof (uint_of_byte_range a) as Ha.
    cbn [Encode Decode]. fold (sextet (Z.shiftl (uint_of_byte a) 16) 18).
    fold (sextet (Z.shiftl (uint_of_byte a) 16) 12).
    rewrite !decodeChar_encodeChar by (apply sextet_range; lia).
    rewrite Z.shiftl_mul_pow2 by lia. change (2 ^ 16) with 65536.
    rewrite quantum_sextets_1 by (Z.div_mod_to_equations; lia).
    do 2 f_equal. apply byte_of_uint_of_byte.
    rewrite Z.shiftr_div_pow2 by lia. change (2 ^ 16) with 65536.
    Z.div_mod_to_equations. lia.
  - pose proof (uint_of_byte_range a) as Ha.
    pose proof (uint_of_byte_range b) as Hb.
    cbn [Encode Decode].
    set (v := Z.lor _ _).
    assert (Hv : v = uint_of_byte a * 65536 + uint_of_byte b * 256).
    { subst v. rewrite <- (Z.lor_0_r (Z.lor _ _)).
      rewrite pack3 by lia. lia. }
    fold (sextet v 18). fold (sextet v 12). fold (sextet v 6).
    rewrite !decodeChar_encodeChar by (apply sextet_range; lia).
    rewrite quantum_sextets_2 by (rewrite Hv; Z.div_mod_to_equations; lia).
    do 2 f_equal; [|f_equal]; apply byte_of_uint_of_byte;
      rewrite Z.shiftr_div_pow2 by lia; rewrite Hv;
      [change (2 ^ 16) with 65536 | change (2 ^ 8) with 256];
      Z.div_mod_to_equations; lia.
  - pose proof (uint_of_byte_range a) as Ha.
    pose proof (uint_of_byte_range b) as Hb.
    pose proof (uint_of_byte_range c) as Hc.
    cbn [Encode Decode].
    set (v := Z.lor _ _).
    assert (Hv : v = uint_of_byte a * 65536 + uint_of_byte b * 256
                     + uint_of_byte c)
      by (subst v; apply pack3; lia).
    fold (sextet v 18). fold (sextet v 12). fold (sextet v 6).
    rewrite !decodeChar_encodeChar
      by (try apply sextet_range; try apply land_63_range; lia).
    rewrite quantum_sextets by lia. rewrite IH.
    do 2 f_equal; [|f_equal; [|f_equal]]; apply byte_of_uint_of_byte.
    + rewrite Z.shiftr_div_pow2 by lia. rewrite Hv.
      change (2 ^ 16) with 65536. Z.div_mod_to_equations. lia.
    + rewrite Z.shiftr_div_pow2 by lia. rewrite Hv.
      change (2 ^ 8) with 256. Z.div_mod_to_equations. lia.
    + rewrite Hv. Z.div_mod_to_equations. lia.
Qed.

(** [Encode] never writes a character that [Decode] skips. *)
Lemma Encode_not_ignored (src : bytes) :
  List.filter (fun c => negb (ignored c)) (Encode src) = Encode src.
Proof.
  induction src as [|a|a b|a b c rest IH] using by_triples;
    cbn [Encode List.filter];
    rewrite ?encodeChar_not_ignored by apply land_63_range;
    cbn [negb]; rewrite ?IH; reflexivity.
Qed.

Theorem DecodeString_EncodeToString (src : bytes) :
  DecodeString (EncodeToString src) = (Some src, None).
Proof.
  unfold DecodeString, EncodeToString.
  rewrite list_ascii_of_string_of_list_ascii, Encode_not_ignored,
    Decode_Encode.
  reflexivity.
Qed.

End base64_facts.

(** ** scramble and unscramble *)

(** C7. scramble takes no randomness: its output is a function of the
    scrambler secret, the fixed nonce of the node and the text alone, and the
    nonce of a node built by newNode is makeNonce of the scrambler and the
    domain.  Whenever the scrambler opens what it sealed under that nonce,
    unscramble gives the text back. *)
Theorem unscramble_scramble (n : node) (D : string) :
  opens (secret_crypto (scrambler n)) (bytes_of_string D) (nonce n) ->
  unscramble n (scramble n D) = (D, None) /\
  (forall n', scrambler n' = scrambler n -> nonce n' = nonce n ->
              scramble n' D = scramble n D) /\
  (forall newSecretFromKey network' domain' created' expires' role' key n0,
      newNode newSecretFromKey network' domain' created' expires' role' key
      = Returns (Some n0, None) ->
      makeNonce (scrambler n0) (bytes_of_string domain')
      = Returns (nonce n0)).
Proof.
  intros Hopens. split; [|split].
  - unfold unscramble, scramble.
    rewrite base64_facts.DecodeString_EncodeToString.
    cbn [from_option id]. unfold opens in Hopens. rewrite Hopens.
    cbn [from_option id]. unfold string_of_bytes, bytes_of_string.
    rewrite string_of_list_byte_of_string. reflexivity.
  - intros n' Hs Hn. unfold scramble. rewrite Hs, Hn. reflexivity.
  - intros nsk nw dom cr ex rl key n0. unfold newNode.
    destruct (nsk key cr) as [[s|] [e|]]; try discriminate.
    destruct (makeNonce s (bytes_of_string dom)) as [nonce'|p] eqn:Hnonce;
      [|discriminate].
    intros H. injection H as <-. exact Hnonce.
Qed.

Lemma unscramble_scramble_witness :
  unscramble Fixture.bare (scramble Fixture.bare "b.example")
  = ("b.example", None).
Proof.
  apply (unscramble_scramble Fixture.bare "b.example").
  vm_compute. reflexivity.
Defined.

(** ** createURL *)

(** What a successful [prepare] went through. *)
Lemma prepare_Ok (lib : Lib) (s : Services) (r : Request.t)
    (o : Operation.operation) :
  prepare lib s r = Ok o ->
  exists a nw form o1 o2 o3,
    accessNodeOf s r = Ok a /\
    getNodes (store s) (network a) = Ok nw /\
    Request.ParseForm r = (form, None) /\
    setNodeCount s form
      (Operation.set_accessNode
         (Operation.set_network (newOperation lib s a) nw) (domain a))
    = Ok o1 /\
    setReturnURL lib form o1 = Ok o2 /\
    setStateAndTable form o2 = Ok o3 /\
    o = setHTML s form (setBrowserWarning lib form o3).
Proof.
  unfold prepare, bind.
  destruct (accessNodeOf s r) as [a|] eqn:Ha; [|discriminate].
  destruct (getNodes (store s) (network a)) as [nw|] eqn:Hnw; [|discriminate].
  destruct (Request.ParseForm r) as [form [e|]] eqn:Hform; [discriminate|].
  destruct (setNodeCount s form _) as [o1|] eqn:H1; [|discriminate].
  destruct (setReturnURL lib form o1) as [o2|] eqn:H2; [|discriminate].
  destruct (setStateAndTable form o2) as [o3|] eqn:H3; [|discriminate].
  intros H. injection H as <-.
  exists a, nw, form, o1, o2, o3.
  repeat split; first [assumption | reflexivity].
Qed.

(** What a successful [buildOperation] went through. *)
Lemma buildOperation_Ok (lib : Lib) (s : Services) (r : Request.t)
    (clk clk' : time.Clock) (o : Operation.operation) :
  buildOperation lib s r clk = (Ok o, clk') ->
  exists p o',
    prepare lib s r = Ok p /\
    addPairs (range lib (fst (Request.ParseForm r))) clk p = (Ok o', clk') /\
    setHomeNode r (fst (Request.ParseForm r)) o' = Ok o.
Proof.
  unfold buildOperation.
  destruct (prepare lib s r) as [p|] eqn:Hp; [|discriminate].
  destruct (addPairs _ clk p) as [[o'|] c] eqn:Hadd; [|discriminate].
  intros H. injection H as H <-.
  exists p, o'. repeat split; first [assumption | reflexivity].
Qed.

(** An error of [prepare] is the error of createURL, and the clock has not
    been read. *)
Lemma createURL_prepare_Err (lib : Lib) (s : Services) (r : Request.t)
    (clk : time.Clock) (e : error) :
  prepare lib s r = Err e -> createURL lib s r clk = (Err e, clk).
Proof.
  intros H. unfold createURL, buildOperation. rewrite H. reflexivity.
Qed.

(** The blocks after "Set the node count" leave [nodeCount] alone, and those
    after "Set the browser warning" leave [browserWarning] alone. *)
Lemma setReturnURL_keeps lib form o o' :
  setReturnURL lib form o = Ok o' ->
  Operation.nodeCount o' = Operation.nodeCount o.
Proof.
  unfold setReturnURL, bind.
  destruct (url_Parse lib _) as [ru|]; [|discriminate].
  destruct (String.eqb (URL.Host ru) ""); [discriminate|].
  destruct (String.eqb (URL.Scheme ru) ""); [discriminate|].
  intros H. injection H as <-. reflexivity.
Qed.

Lemma setStateAndTable_keeps form o o' :
  setStateAndTable form o = Ok o' ->
  Operation.nodeCount o' = Operation.nodeCount o.
Proof.
  unfold setStateAndTable.
  destruct (String.eqb _ ""); [discriminate|].
  intros H. injection H as <-. reflexivity.
Qed.

Lemma setBrowserWarning_keeps lib form o :
  Operation.nodeCount (setBrowserWarning lib form o) = Operation.nodeCount o.
Proof.
  unfold setBrowserWarning.
  destruct (strconv_ParseFloat lib _ 32) as [b [e|]]; reflexivity.
Qed.

Lemma addPairs_keeps kvs clk clk' o o' :
  addPairs kvs clk o = (Ok o', clk') ->
  Operation.nodeCount o' = Operation.nodeCount o /\
  Operation.browserWarning o' = Operation.browserWarning o.
Proof.
  revert clk o. induction kvs as [|[k v] kvs IH]; intros clk o; simpl.
  - intros H. injection H as <- _. split; reflexivity.
  - destruct (negb (isReserved k)); [|apply IH].
    destruct v as [|v0 v]; [apply IH|].
    destruct (createPair clk k v0) as [[p|e] c]; [|discriminate].
    destruct (Pair.conflict p); [discriminate| | |];
      intros H; apply IH in H; exact H.
Qed.

Lemma setHomeNode_keeps r form o o' :
  setHomeNode r form o = Ok o' ->
  Operation.nodeCount o' = Operation.nodeCount o /\
  Operation.browserWarning o' = Operation.browserWarning o.
Proof.
  unfold setHomeNode, bind.
  destruct (getHomeNode _ _ _) as [n|]; [|discriminate].
  intros H. injection H as <-. split; reflexivity.
Qed.

(** What "Set the node count" leaves in [nodeCount] is what the finished
    operation carries. *)
Lemma buildOperation_nodeCount lib s r clk clk' o a nw form o1 :
  accessNodeOf s r = Ok a ->
  getNodes (store s) (network a) = Ok nw ->
  Request.ParseForm r = (form, None) ->
  setNodeCount s form
    (Operation.set_accessNode
       (Operation.set_network (newOperation lib s a) nw) (domain a))
  = Ok o1 ->
  buildOperation lib s r clk = (Ok o, clk') ->
  Operation.nodeCount o = Operation.nodeCount o1.
Proof.
  intros Ha Hnw Hform H1 Hbuild.
  apply buildOperation_Ok in Hbuild as (p & o' & Hp & Hadd & Hhome).
  apply prepare_Ok in Hp
    as (a' & nw' & form' & o1' & o2 & o3 & Ha' & Hnw' & Hform' & H1' & H2
        & H3 & ->).
  rewrite Ha in Ha'. injection Ha' as <-.
  rewrite Hnw in Hnw'. injection Hnw' as <-.
  rewrite Hform in Hform'. injection Hform' as <-.
  rewrite H1 in H1'. injection H1' as <-.
  apply setHomeNode_keeps in Hhome as [-> _].
  apply addPairs_keeps in Hadd as [-> _].
  cbn [setHTML Operation.set_HTML Operation.nodeCount].
  rewrite setBrowserWarning_keeps.
  rewrite (setStateAndTable_keeps _ _ _ H3).
  apply (setReturnURL_keeps _ _ _ _ H2).
Qed.

(** An error of "Set the node count" is the error of createURL. *)
Lemma createURL_setNodeCount_Err lib s r clk a nw form e :
  accessNodeOf s r = Ok a ->
  getNodes (store s) (network a) = Ok nw ->
  Request.ParseForm r = (form, None) ->
  setNodeCount s form
    (Operation.set_accessNode
       (Operation.set_network (newOperation lib s a) nw) (domain a))
  = Err e ->
  createURL lib s r clk = (Err e, clk).
Proof.
  intros Ha Hnw Hform H1. apply createURL_prepare_Err.
  unfold prepare, bind. rewrite Ha, Hnw, Hform, H1. reflexivity.
Qed.

(** C6. In createURL, once the request has come from an access node and its
    form has parsed: a non-empty bounces parameter must parse as an integer,
    else createURL returns the parse error; an integer of 0 or less gives the
    error "Bounces must be greater than 0"; one of 255 or more gives the
    error "Bounces '<c>' must be less than 255"; one strictly between sets
    the operation's nodeCount to it.  Without the parameter nodeCount is the
    configured NodeCount. *)
Theorem createURL_bounces (lib : Lib) (s : Services) (r : Request.t)
    (clk : time.Clock) (a : node) (nw : nodes) (form : Values) :
  accessNodeOf s r = Ok a ->
  getNodes (store s) (network a) = Ok nw ->
  Request.ParseForm r = (form, None) ->
  let o0 := Operation.set_accessNode
              (Operation.set_network (newOperation lib s a) nw) (domain a) in
  let b := Values_Get form bounces in
  (b <> "" ->
   forall c, strconv.Atoi b = (c, None) ->
     (c <= 0 ->
      createURL lib s r clk
      = (Err (errorString "Bounces must be greater than 0"), clk)) /\
     (255 <= c ->
      createURL lib s r clk
      = (Err (errorString
                ("Bounces '" +:+ itoa c +:+ "' must be less than 255")),
         clk)) /\
     (0 < c < 255 ->
      setNodeCount s form o0 = Ok (Operation.set_nodeCount o0 c) /\
      forall o clk', buildOperation lib s r clk = (Ok o, clk') ->
                     Operation.nodeCount o = c)) /\
  (b <> "" ->
   forall c e, strconv.Atoi b = (c, Some e) ->
               createURL lib s r clk = (Err e, clk)) /\
  (b = "" ->
   setNodeCount s form o0
   = Ok (Operation.set_nodeCount o0 (Config.NodeCount (config s))) /\
   forall o clk', buildOperation lib s r clk = (Ok o, clk') ->
                  Operation.nodeCount o = Config.NodeCount (config s)) /\
  (form !! bounces = None -> b = "").
Proof.
  intros Ha Hnw Hform o0 b.
  assert (Hpresent : b <> "" -> String.eqb b "" = false)
    by (intros Hb; apply String.eqb_neq; exact Hb).
  split; [|split; [|split]].
  - intros Hb c Hc. specialize (Hpresent Hb). split; [|split].
    + intros Hle.
      apply (createURL_setNodeCount_Err lib s r clk a nw form _ Ha Hnw Hform).
      unfold setNodeCount. fold b. rewrite Hpresent, Hc. cbn [negb].
      destruct (Z.leb_spec c 0); [reflexivity | lia].
    + intros Hge.
      apply (createURL_setNodeCount_Err lib s r clk a nw form _ Ha Hnw Hform).
      unfold setNodeCount. fold b. rewrite Hpresent, Hc. cbn [negb].
      destruct (Z.leb_spec c 0); [lia|].
      destruct (Z.ltb_spec c 255); [lia | reflexivity].
    + intros Hin.
      assert (Hset : setNodeCount s form o0
                     = Ok (Operation.set_nodeCount o0 c)).
      { unfold setNodeCount. fold b. rewrite Hpresent, Hc. cbn [negb].
        destruct (Z.leb_spec c 0); [lia|].
        destruct (Z.ltb_spec c 255); [|lia].
        unfold byte_of_int. rewrite Z.mod_small by lia. reflexivity. }
      split; [exact Hset|]. intros o clk' Hbuild.
      rewrite (buildOperation_nodeCount lib s r clk clk' o a nw form _
                 Ha Hnw Hform Hset Hbuild).
      reflexivity.
  - intros Hb c e He. specialize (Hpresent Hb).
    apply (createURL_setNodeCount_Err lib s r clk a nw form _ Ha Hnw Hform).
    unfold setNodeCount. fold b. rewrite Hpresent, He. reflexivity.
  - intros Hb.
    assert (Hset : setNodeCount s form o0
                   = Ok (Operation.set_nodeCount o0
                           (Config.NodeCount (config s)))).
    { unfold setNodeCount. fold b. rewrite Hb. reflexivity. }
    split; [exact Hset|]. intros o clk' Hbuild.
    rewrite (buildOperation_nodeCount lib s r clk clk' o a nw form _
               Ha Hnw Hform Hset Hbuild).
    reflexivity.
  - intros Hnone. subst b. unfold Values_Get. rewrite Hnone. reflexivity.
Qed.

Lemma createURL_bounces_witness :
  createURL Fixture.lib Fixture.services
    (Fixture.request (Fixture.withBounces "0")) (Fixture.clockAt 0)
  = (Err (errorString "Bounces must be greater than 0"), Fixture.clockAt 0) /\
  createURL Fixture.lib Fixture.services
    (Fixture.request (Fixture.withBounces "300")) (Fixture.clockAt 0)
  = (Err (errorString "Bounces '300' must be less than 255"),
     Fixture.clockAt 0) /\
  (exists o clk',
      buildOperation Fixture.lib Fixture.services
        (Fixture.request (Fixture.withBounces "7")) (Fixture.clockAt 0)
      = (Ok o, clk') /\
      Operation.nodeCount o = 7) /\
  (exists o clk',
      buildOperation Fixture.lib Fixture.services
        (Fixture.request Fixture.baseForm) (Fixture.clockAt 0)
      = (Ok o, clk') /\
      Operation.nodeCount o = 10).
Proof.
  pose proof (fun form =>
    createURL_bounces Fixture.lib Fixture.services (Fixture.request form)
      (Fixture.clockAt 0) Fixture.rotated Fixture.network1 form
      eq_refl eq_refl eq_refl) as H.
  split; [|split; [|split]].
  - destruct (H (Fixture.withBounces "0")) as (Hpresent & _).
    destruct (Hpresent ltac:(vm_compute; discriminate) 0
                ltac:(vm_compute; reflexivity))
      as (Hle & _).
    apply Hle. lia.
  - destruct (H (Fixture.withBounces "300")) as (Hpresent & _).
    destruct (Hpresent ltac:(vm_compute; discriminate) 300
                ltac:(vm_compute; reflexivity))
      as (_ & Hge & _).
    apply Hge. lia.
  - destruct (H (Fixture.withBounces "7")) as (Hpresent & _).
    destruct (Hpresent ltac:(vm_compute; discriminate) 7
                ltac:(vm_compute; reflexivity))
      as (_ & _ & Hin).
    destruct (Hin ltac:(lia)) as [_ Hfinal].
    destruct (buildOperation Fixture.lib Fixture.services
                (Fixture.request (Fixture.withBounces "7"))
                (Fixture.clockAt 0)) as [[o|e] clk'] eqn:Hbuild.
    + exists o, clk'. split; [reflexivity|]. apply (Hfinal o clk'). reflexivity.
    + vm_compute in Hbuild. discriminate.
  - destruct (H Fixture.baseForm) as (_ & _ & Habsent & _).
    destruct (Habsent ltac:(vm_compute; reflexivity)) as [_ Hfinal].
    destruct (buildOperation Fixture.lib Fixture.services
                (Fixture.request Fixture.baseForm)
                (Fixture.clockAt 0)) as [[o|e] clk'] eqn:Hbuild.
    + exists o, clk'. split; [reflexivity|]. apply (Hfinal o clk'). reflexivity.
    + vm_compute in Hbuild. discriminate.
Defined.

(** C8. In createURL, once the blocks before it have passed: when the
    browserWarning form value does not parse as a float, the block sets
    browserWarning to 0 and returns no error ([prepare] goes on to the user
    interface block), and the finished operation carries 0; when it parses,
    browserWarning is the parsed value converted to float32.  An absent
    parameter reads as the empty string, which is handled as any other text
    that does not parse. *)
Theorem createURL_browserWarning (lib : Lib) (s : Services) (r : Request.t)
    (clk : time.Clock) (a : node) (nw : nodes) (form : Values)
    (o1 o2 o3 : Operation.operation) :
  accessNodeOf s r = Ok a ->
  getNodes (store s) (network a) = Ok nw ->
  Request.ParseForm r = (form, None) ->
  setNodeCount s form
    (Operation.set_accessNode
       (Operation.set_network (newOperation lib s a) nw) (domain a))
  = Ok o1 ->
  setReturnURL lib form o1 = Ok o2 ->
  setStateAndTable form o2 = Ok o3 ->
  let w := Values_Get form browserWarningParam in
  (forall x e, strconv_ParseFloat lib w 32 = (x, Some e) ->
     prepare lib s r
     = Ok (setHTML s form (Operation.set_browserWarning o3 float32_zero)) /\
     forall o clk', buildOperation lib s r clk = (Ok o, clk') ->
                    Operation.browserWarning o = float32_zero) /\
  (forall x, strconv_ParseFloat lib w 32 = (x, None) ->
     prepare lib s r
     = Ok (setHTML s form
             (Operation.set_browserWarning o3 (float32_of lib x))) /\
     forall o clk', buildOperation lib s r clk = (Ok o, clk') ->
                    Operation.browserWarning o = float32_of lib x) /\
  (form !! browserWarningParam = None -> w = "").
Proof.
  intros Ha Hnw Hform H1 H2 H3 w.
  assert (Hprep : prepare lib s r
                  = Ok (setHTML s form (setBrowserWarning lib form o3))).
  { unfold prepare, bind. rewrite Ha, Hnw, Hform, H1, H2, H3. reflexivity. }
  assert (Hfinal : forall o clk',
             buildOperation lib s r clk = (Ok o, clk') ->
             Operation.browserWarning o
             = Operation.browserWarning (setBrowserWarning lib form o3)).
  { intros o clk' Hbuild.
    apply buildOperation_Ok in Hbuild as (p & o' & Hp & Hadd & Hhome).
    rewrite Hprep in Hp. injection Hp as <-.
    apply setHomeNode_keeps in Hhome as [_ ->].
    apply addPairs_keeps in Hadd as [_ ->].
    reflexivity. }
  split; [|split].
  - intros x e Hparse.
    assert (Hset : setBrowserWarning lib form o3
                   = Operation.set_browserWarning o3 float32_zero).
    { unfold setBrowserWarning. fold w. rewrite Hparse. reflexivity. }
    rewrite Hset in Hprep, Hfinal. split; [exact Hprep | exact Hfinal].
  - intros x Hparse.
    assert (Hset : setBrowserWarning lib form o3
                   = Operation.set_browserWarning o3 (float32_of lib x)).
    { unfold setBrowserWarning. fold w. rewrite Hparse. reflexivity. }
    rewrite Hset in Hprep, Hfinal. split; [exact Hprep | exact Hfinal].
  - intros Hnone. subst w. unfold Values_Get. rewrite Hnone. reflexivity.
Qed.

Lemma createURL_browserWarning_witness :
  (exists o3,
      prepare Fixture.lib Fixture.services
        (Fixture.request (Fixture.withWarning "lots"))
      = Ok (setHTML Fixture.services (Fixture.withWarning "lots")
              (Operation.set_browserWarning o3 float32_zero)) /\
      forall o clk',
        buildOperation Fixture.lib Fixture.services
          (Fixture.request (Fixture.withWarning "lots")) (Fixture.clockAt 0)
        = (Ok o, clk') ->
        Operation.browserWarning o = float32_zero) /\
  (exists o3,
      prepare Fixture.lib Fixture.services
        (Fixture.request (Fixture.withWarning "0.5"))
      = Ok (setHTML Fixture.services (Fixture.withWarning "0.5")
              (Operation.set_browserWarning o3
                 (Float32frombits 1056964608))) /\
      forall o clk',
        buildOperation Fixture.lib Fixture.services
          (Fixture.request (Fixture.withWarning "0.5")) (Fixture.clockAt 0)
        = (Ok o, clk') ->
        Operation.browserWarning o = Float32frombits 1056964608) /\
  fst (createURL Fixture.lib Fixture.services
         (Fixture.request (Fixture.withWarning "lots")) (Fixture.clockAt 0))
  = Ok "https://a.example".
Proof.
  split; [|split].
  - pose proof (createURL_browserWarning Fixture.lib Fixture.services
                  (Fixture.request (Fixture.withWarning "lots"))
                  (Fixture.clockAt 0) Fixture.rotated Fixture.network1
                  (Fixture.withWarning "lots")) as H.
    eexists. edestruct H as (Hfail & _);
      [reflexivity | reflexivity | reflexivity | reflexivity | reflexivity
      | reflexivity |].
    exact (Hfail (Float64frombits 0)
             (NumError "ParseFloat" "lots" strconv.ErrSyntax) eq_refl).
  - pose proof (createURL_browserWarning Fixture.lib Fixture.services
                  (Fixture.request (Fixture.withWarning "0.5"))
                  (Fixture.clockAt 0) Fixture.rotated Fixture.network1
                  (Fixture.withWarning "0.5")) as H.
    eexists. edestruct H as (_ & Hok & _);
      [reflexivity | reflexivity | reflexivity | reflexivity | reflexivity
      | reflexivity |].
    exact (Hok (Float64frombits 4602678819172646912) eq_refl).
  - vm_compute. reflexivity.
Defined.

(** ** HandlerDecodeAsJSON *)

(** C9. The decode-as-JSON handler answers: 500 when the form does not
    parse; 401 when the caller is not allowed; 500 when the access node
    cannot be found; 400 when the data is not base64, when no secret of the
    node opens it, and when the plaintext does not decode; 400 with "Results
    expired and can no longer be decrypted", and nothing written, when the
    decoded Results have a time stamp that is no longer valid; 500 when the
    values cannot be marshalled or the response cannot be written. *)
Theorem HandlerDecodeAsJSON_statuses (lib : DecodeLib) (s : Services)
    (r : Request.t) :
  let out := HandlerDecodeAsJSON lib s r in
  let data := Values_Get (fst (Request.ParseForm r)) "data" in
  (forall e, snd (Request.ParseForm r) = Some e ->
     out = [returnAPIError e 500]) /\
  (snd (Request.ParseForm r) = None ->
   (getAccessAllowed s r = false ->
    out = [returnAPIError (errorString "Not authorized") 401]) /\
   (getAccessAllowed s r = true ->
    (forall e, getAccessNode lib s r = Err e ->
       out = [returnAPIError e 500]) /\
    (forall n, getAccessNode lib s r = Ok n ->
     (forall x e, base64.DecodeString data = (x, Some e) ->
        out = [returnAPIError e 400]) /\
     (forall x, base64.DecodeString data = (x, None) ->
      (Forall (fun k => failsOn k (default [] x)) (secrets n) ->
       exists e, out = [returnAPIError e 400]) /\
      (forall d, decrypt n (default [] x) = (Some d, None) ->
       (forall e, DecodeResults lib d = Err e ->
          out = [returnAPIError e 400]) /\
       (forall a, DecodeResults lib d = Ok a ->
        (IsTimeStampValid lib a = false ->
         out = [returnAPIError
                  (errorString
                     "Results expired and can no longer be decrypted") 400]
         /\ forall b, ~ In (Write b) out) /\
        (IsTimeStampValid lib a = true ->
         (forall x' e,
             json_Marshal lib (Results_Values lib a) = (x', Some e) ->
             out = [returnAPIError e 500]) /\
         (forall b e,
             json_Marshal lib (Results_Values lib a) = (b, None) ->
             w_Write lib b = Some e ->
             last out = Some (returnAPIError e 500))))))))).
Proof.
  intros out data. subst out data. unfold HandlerDecodeAsJSON.
  destruct (Request.ParseForm r) as [form perr]. cbn [fst snd].
  split.
  { intros e ->. reflexivity. }
  intros ->. split.
  { intros ->. reflexivity. }
  intros ->. cbn [negb]. split.
  { intros e ->. reflexivity. }
  intros n ->. split.
  { intros x e ->. reflexivity. }
  intros x ->. split.
  { intros Hfail. rewrite (decrypt_none_succeeds n _ Hfail).
    eexists. reflexivity. }
  intros d ->. split.
  { intros e ->. reflexivity. }
  intros a ->. split.
  { intros ->. cbn [negb]. split; [reflexivity|].
    intros b [Hb|[]]. discriminate Hb. }
  intros ->. cbn [negb]. split.
  { intros x' e ->. reflexivity. }
  intros b e -> ->. reflexivity.
Qed.

Lemma HandlerDecodeAsJSON_statuses_witness :
  HandlerDecodeAsJSON (Fixture.decodeLib false) Fixture.services
    (Fixture.request (Fixture.dataForm (Fixture.sealed "Stale results")))
  = [returnAPIError
       (errorString "Results expired and can no longer be decrypted") 400] /\
  (exists e,
      HandlerDecodeAsJSON (Fixture.decodeLib false) Fixture.services
        (Fixture.request (Fixture.dataForm "AAAAAAAAAAAAAAAAAAAAAA"))
      = [returnAPIError e 400]) /\
  HandlerDecodeAsJSON (Fixture.decodeLib false) Fixture.services
    (Fixture.request (Fixture.dataForm "not base64!"))
  = [returnAPIError CorruptInputError 400] /\
  last (HandlerDecodeAsJSON (Fixture.decodeLib true) Fixture.services
          (Fixture.request (Fixture.dataForm (Fixture.sealed "Fresh"))))
  = Some (returnAPIError (Foreign "Write") 500).
Proof.
  pose proof (fun lib data =>
    proj2 (HandlerDecodeAsJSON_statuses lib Fixture.services
             (Fixture.request (Fixture.dataForm data))) eq_refl) as H.
  split; [|split; [|split]].
  - destruct (H (Fixture.decodeLib false) (Fixture.sealed "Stale results"))
      as [_ Hallowed].
    destruct (Hallowed eq_refl) as [_ Hnode].
    destruct (Hnode Fixture.rotated eq_refl) as [_ Hdata].
    destruct (Hdata (Some (Fixture.seal "002"
                             (list_byte_of_string "Stale results")
                             (list_byte_of_string "000000000000")))
                ltac:(vm_compute; reflexivity)) as [_ Hplain].
    destruct (Hplain (list_byte_of_string "Stale results")
                ltac:(vm_compute; reflexivity)) as [_ Hdecoded].
    destruct (Hdecoded (list_byte_of_string "Stale results") eq_refl)
      as [Hstale _].
    exact (proj1 (Hstale eq_refl)).
  - destruct (H (Fixture.decodeLib false) "AAAAAAAAAAAAAAAAAAAAAA")
      as [_ Hallowed].
    destruct (Hallowed eq_refl) as [_ Hnode].
    destruct (Hnode Fixture.rotated eq_refl) as [_ Hdata].
    destruct (Hdata (Some (repeat "000"%byte 16))
                ltac:(vm_compute; reflexivity)) as [Hnone _].
    apply Hnone.
    repeat constructor; eexists; vm_compute; reflexivity.
  - destruct (H (Fixture.decodeLib false) "not base64!") as [_ Hallowed].
    destruct (Hallowed eq_refl) as [_ Hnode].
    destruct (Hnode Fixture.rotated eq_refl) as [Hbad _].
    apply (Hbad None). vm_compute. reflexivity.
  - destruct (H (Fixture.decodeLib true) (Fixture.sealed "Fresh"))
      as [_ Hallowed].
    destruct (Hallowed eq_refl) as [_ Hnode].
    destruct (Hnode Fixture.rotated eq_refl) as [_ Hdata].
    destruct (Hdata (Some (Fixture.seal "002" (list_byte_of_string "Fresh")
                             (list_byte_of_string "000000000000")))
                ltac:(vm_compute; reflexivity)) as [_ Hplain].
    destruct (Hplain (list_byte_of_string "Fresh")
                ltac:(vm_compute; reflexivity)) as [_ Hdecoded].
    destruct (Hdecoded (list_byte_of_string "Fresh") eq_refl) as [_ Hfresh].
    destruct (Hfresh eq_refl) as [_ Hwrite].
    exact (Hwrite (list_byte_of_string "[]") (Foreign "Write")
             eq_refl eq_refl).
Defined.

(** * Further properties *)

(** ** newNode, makeNonce, isActive *)

(** On a non-empty [d] makeNonce returns: the buffer has the nonce size and
    is filled cyclically from [d]. *)
Lemma makeNonce_Returns (s : secret) (d : bytes) :
  d <> [] ->
  exists n,
    makeNonce s d = Returns n /\
    length n = gcm_NonceSize (secret_crypto s) /\
    forall i, (i < gcm_NonceSize (secret_crypto s))%nat ->
              n !! i = d !! (i mod length d)%nat.
Proof.
  intros Hd. unfold makeNonce.
  set (size := gcm_NonceSize (secret_crypto s)).
  assert (Hpos : (0 < length d)%nat)
    by (destruct d; [congruence | simpl; lia]).
  destruct (makeNonce_loop_spec d size Hpos 0 (replicate size "000"%byte))
    as (n' & Hrun & Hl & _ & Hhigh).
  { rewrite length_replicate. reflexivity. }
  rewrite Nat.Div0.mod_0_l in Hrun. rewrite length_replicate in *.
  exists n'. split; [exact Hrun|]. split; [exact Hl|].
  intros i Hi. apply Hhigh. lia.
Qed.

Lemma bytes_of_string_nonempty (s : string) :
  s <> "" -> bytes_of_string s <> [].
Proof. destruct s; [congruence | discriminate]. Qed.


Lemma fnv32a_range (d : bytes) : 0 <= fnv32a d < 2 ^ 32.
Proof.
  unfold fnv32a.
  assert (Hgen : forall (l : bytes) (h : Z), 0 <= h < 2 ^ 32 ->
            0 <= fold_left
                   (fun h b => (Z.lxor h (Z.of_N (Byte.to_N b)) * fnv_prime32)
                               mod 2 ^ 32) l h < 2 ^ 32).
  { induction l as [|b l IH]; intros h Hh; simpl; [exact Hh|].
    apply IH. apply Z.mod_pos_bound. lia. }
  apply Hgen. unfold fnv_offset32. lia.
Qed.

(** X1. newNode hands back the error of newSecretFromKey with no node; with
    a scrambler secret and a non-empty domain it returns a node that carries
    the arguments, a 32-bit hash of the domain, no secrets, the nonce that
    makeNonce derives from the scrambler and the domain (of the AEAD nonce
    size), and [alive = false]. *)
Theorem newNode_builds
    (newSecretFromKey : string -> Time -> option secret * option error)
    (network' domain' : string) (created' expires' : Time) (role' : role_t)
    (scrambleKey : string) :
  (forall x e, newSecretFromKey scrambleKey created' = (x, Some e) ->
     newNode newSecretFromKey network' domain' created' expires' role'
       scrambleKey = Returns (None, Some e)) /\
  (forall s, newSecretFromKey scrambleKey created' = (Some s, None) ->
     domain' <> "" ->
     exists nonce',
       newNode newSecretFromKey network' domain' created' expires' role'
         scrambleKey
       = Returns
           (Some {| network := network'; domain := domain';
                    hash := fnv32a (bytes_of_string domain');
                    created := created'; expires := expires';
                    role := role'; secrets := []; scrambler := s;
                    nonce := nonce'; alive := false |}, None) /\
       makeNonce s (bytes_of_string domain') = Returns nonce' /\
       length nonce' = gcm_NonceSize (secret_crypto s) /\
       0 <= fnv32a (bytes_of_string domain') < 2 ^ 32).
Proof.
  split.
  - intros x e H. unfold newNode. rewrite H. destruct x; reflexivity.
  - intros s H Hdom. unfold newNode. rewrite H.
    destruct (makeNonce_Returns s (bytes_of_string domain')
                (bytes_of_string_nonempty _ Hdom)) as (n & Hn & Hlen & _).
    exists n. rewrite Hn.
    split; [reflexivity|]. split; [reflexivity|]. split; [exact Hlen|].
    apply fnv32a_range.
Qed.

Lemma newNode_builds_witness :
  exists nonce',
    newNode Fixture.newSecretFromKey "net" "a.example" 500 9000 roleAccess
      "key"
    = Returns
        (Some {| network := "net"; domain := "a.example";
                 hash := fnv32a (bytes_of_string "a.example");
                 created := 500; expires := 9000;
                 role := roleAccess; secrets := [];
                 scrambler := {| timeStamp := 500;
                                 secret_crypto := Fixture.cipher "007" |};
                 nonce := nonce'; alive := false |}, None) /\
    makeNonce {| timeStamp := 500; secret_crypto := Fixture.cipher "007" |}
      (bytes_of_string "a.example") = Returns nonce' /\
    length nonce' = 12%nat /\
    0 <= fnv32a (bytes_of_string "a.example") < 2 ^ 32.
Proof.
  apply (proj2 (newNode_builds Fixture.newSecretFromKey "net" "a.example"
                  500 9000 roleAccess "key")).
  - reflexivity.
  - discriminate.
Defined.

(** X2. A node as newNode returns it cannot be used yet: it is not active
    at any time, getSecret and encrypt fail with "No secrets for node
    '<domain>'", and decrypt opens nothing.  newNode sets no secret, so a
    node serves only after addSecret. *)
Theorem newNode_has_no_secret
    (newSecretFromKey : string -> Time -> option secret * option error)
    (network' domain' : string) (created' expires' : Time) (role' : role_t)
    (scrambleKey : string) (n : node) :
  newNode newSecretFromKey network' domain' created' expires' role'
    scrambleKey = Returns (Some n, None) ->
  (forall clk, fst (isActive n clk) = false) /\
  getSecret n
  = (None, Some (errorString ("No secrets for node '" +:+ domain' +:+ "'")))
  /\
  (forall rand d,
      encrypt n rand d
      = (None,
         Some (errorString ("No secrets for node '" +:+ domain' +:+ "'"))))
  /\
  (forall d, decrypt n d = (None, None)).
Proof.
  unfold newNode.
  destruct (newSecretFromKey scrambleKey created') as [[s|] [e|]];
    try discriminate.
  destruct (makeNonce s (bytes_of_string domain')) as [nonce'|p];
    [|discriminate].
  intros H. injection H as <-.
  split; [|split; [|split]]; try reflexivity.
  intros clk. unfold isActive. cbn. apply andb_false_r.
Qed.

Lemma newNode_has_no_secret_witness :
  exists n,
    newNode Fixture.newSecretFromKey "net" "a.example" 500 9000 roleAccess
      "key" = Returns (Some n, None) /\
    (forall clk, fst (isActive n clk) = false) /\
    getSecret n
    = (None, Some (errorString "No secrets for node 'a.example'")) /\
    (forall rand d,
        encrypt n rand d
        = (None, Some (errorString "No secrets for node 'a.example'"))) /\
    (forall d, decrypt n d = (None, None)).
Proof.
  eexists. split; [reflexivity|].
  apply (newNode_has_no_secret Fixture.newSecretFromKey "net" "a.example"
           500 9000 roleAccess "key").
  reflexivity.
Defined.

(** X3. When the domain is at least as long as the nonce, makeNonce returns
    its first bytes and nothing else of it: two domains that agree on their
    first NonceSize bytes get the same nonce. *)
Theorem makeNonce_prefix (s : secret) (d : bytes) :
  (gcm_NonceSize (secret_crypto s) <= length d)%nat ->
  makeNonce s d = Returns (take (gcm_NonceSize (secret_crypto s)) d) /\
  forall d',
    (gcm_NonceSize (secret_crypto s) <= length d')%nat ->
    take (gcm_NonceSize (secret_crypto s)) d'
    = take (gcm_NonceSize (secret_crypto s)) d ->
    makeNonce s d' = makeNonce s d.
Proof.
  assert (Hone : forall d0 : bytes,
             (gcm_NonceSize (secret_crypto s) <= length d0)%nat ->
             makeNonce s d0
             = Returns (take (gcm_NonceSize (secret_crypto s)) d0)).
  { intros d0 Hlen. destruct d0 as [|b d0].
    - simpl in Hlen. unfold makeNonce.
      replace (gcm_NonceSize (secret_crypto s)) with O by lia. reflexivity.
    - destruct (makeNonce_Returns s (b :: d0) ltac:(discriminate))
        as (n & Hn & Hl & Hnth).
      rewrite Hn. f_equal. apply list_eq. intros i.
      destruct (Nat.lt_ge_cases i (gcm_NonceSize (secret_crypto s)))
        as [Hi|Hi].
      + rewrite Hnth by exact Hi. rewrite lookup_take_lt by exact Hi.
        rewrite Nat.mod_small by lia. reflexivity.
      + rewrite lookup_ge_None_2 by lia.
        rewrite lookup_ge_None_2; [reflexivity|].
        rewrite length_take. lia. }
  intros Hlen. split; [apply Hone, Hlen|].
  intros d' Hlen' Heq. rewrite (Hone d' Hlen'), (Hone d Hlen), Heq.
  reflexivity.
Qed.

Lemma makeNonce_prefix_witness :
  makeNonce Fixture.scrambleSecret (list_byte_of_string "shop.example.com")
  = Returns (list_byte_of_string "shop.example") /\
  makeNonce Fixture.scrambleSecret (list_byte_of_string "shop.example.org")
  = makeNonce Fixture.scrambleSecret (list_byte_of_string "shop.example.com").
Proof.
  destruct (makeNonce_prefix Fixture.scrambleSecret
              (list_byte_of_string "shop.example.com"))
    as [Htake Hsame]; [simpl; lia|].
  split; [exact Htake|].
  apply Hsame; [simpl; lia | reflexivity].
Defined.

(** X4. isActive reads the clock once; it holds exactly when the node
    expires after that reading and has a secret.  An active node always has
    a secret to encrypt with: getSecret returns its first secret and
    encrypt seals under it. *)
Theorem isActive_spec (n : node) (clk : time.Clock) :
  snd (isActive n clk) = advance 1 clk /\
  (fst (isActive n clk) = true <->
   time.reading clk (time.ticks clk) < expires n /\ secrets n <> []) /\
  (fst (isActive n clk) = true ->
   exists s rest,
     secrets n = s :: rest /\
     getSecret n = (Some s, None) /\
     forall rand d,
       encrypt n rand d = compressAndEncrypt (secret_crypto s) rand d).
Proof.
  unfold isActive, time.Now, After. cbn [fst snd].
  split; [reflexivity|].
  assert (Hiff : (time.reading clk (time.ticks clk) <? expires n)
                 && (0 <? length (secrets n))%nat = true <->
                 time.reading clk (time.ticks clk) < expires n /\
                 secrets n <> []).
  { rewrite andb_true_iff, Z.ltb_lt, Nat.ltb_lt.
    destruct (secrets n); simpl; split; intros [H1 H2]; split;
      try assumption; try lia; try congruence. }
  split; [exact Hiff|].
  intros H. apply Hiff in H as [_ Hne].
  unfold getSecret, encrypt, getSecret.
  destruct (secrets n) as [|s rest]; [congruence|].
  exists s, rest. repeat split.
Qed.

Lemma isActive_spec_witness :
  fst (isActive Fixture.rotated (Fixture.clockAt 8999)) = true /\
  exists s rest,
    secrets Fixture.rotated = s :: rest /\
    getSecret Fixture.rotated = (Some s, None) /\
    forall rand d,
      encrypt Fixture.rotated rand d
      = compressAndEncrypt (secret_crypto s) rand d.
Proof.
  destruct (isActive_spec Fixture.rotated (Fixture.clockAt 8999))
    as (_ & Hiff & Hsecret).
  assert (Hact : fst (isActive Fixture.rotated (Fixture.clockAt 8999)) = true).
  { apply Hiff. split; [vm_compute; reflexivity | discriminate]. }
  split; [exact Hact | exact (Hsecret Hact)].
Defined.

(** ** addSecret, decrypt, sortSecrets, encrypt *)

(** Every secret either opens a ciphertext or fails on it. *)
Lemma opens_or_fails (s : secret) (d : bytes) :
  (exists b, opensWith s d b) \/ failsOn s d.
Proof.
  unfold opensWith, failsOn.
  destruct (decryptAndDecompress (secret_crypto s) d) as [b [e|]].
  - right. exists e. reflexivity.
  - left. exists b. reflexivity.
Qed.

Lemma opens_not_fails (s : secret) (d : bytes) (b : option bytes) :
  opensWith s d b -> ~ failsOn s d.
Proof. unfold opensWith. intros H [e He]. rewrite H in He. discriminate. Qed.

(** The loop stops in the first list when one of its secrets opens the
    ciphertext, and goes on into the second when none does. *)
Lemma decrypt_loop_app_opens (l1 l2 : list secret) (d : bytes)
    (outer : option error) :
  Exists (fun s => exists b, opensWith s d b) l1 ->
  decrypt_loop (l1 ++ l2) d outer = decrypt_loop l1 d outer.
Proof.
  induction l1 as [|s l1 IH]; intros H; [inversion H|].
  destruct (opens_or_fails s d) as [[b Hb]|Hf].
  - simpl. unfold opensWith in Hb. rewrite Hb. reflexivity.
  - change ((s :: l1) ++ l2)%list with (s :: (l1 ++ l2))%list.
    rewrite !decrypt_loop_skip by exact Hf. apply IH.
    inversion H as [? ? [b Hb]|]; subst; [|assumption].
    exfalso. exact (opens_not_fails _ _ _ Hb Hf).
Qed.

Lemma decrypt_loop_app_fails (l1 l2 : list secret) (d : bytes)
    (outer : option error) :
  Forall (fun s => failsOn s d) l1 ->
  decrypt_loop (l1 ++ l2) d outer = decrypt_loop l2 d outer.
Proof.
  induction 1 as [|s l1 Hs _ IH]; [reflexivity|].
  change ((s :: l1) ++ l2)%list with (s :: (l1 ++ l2))%list.
  rewrite decrypt_loop_skip by exact Hs. exact IH.
Qed.

(** What the loop returns: the result of the first secret that opens the
    ciphertext, or nothing and the untouched outer error. *)
Lemma decrypt_loop_result (ss : list secret) (d : bytes)
    (outer : option error) :
  (exists pre s post b,
      ss = (pre ++ s :: post)%list /\
      Forall (fun k => failsOn k d) pre /\
      opensWith s d b /\
      decrypt_loop ss d outer = (b, None)) \/
  (Forall (fun k => failsOn k d) ss /\
   decrypt_loop ss d outer = (None, outer)).
Proof.
  induction ss as [|s ss IH].
  - right. split; [constructor | reflexivity].
  - destruct (opens_or_fails s d) as [[b Hb]|Hf].
    + left. exists [], s, ss, b. repeat split; [constructor | exact Hb |].
      apply decrypt_loop_success, Hb.
    + rewrite decrypt_loop_skip by exact Hf.
      destruct IH as [(pre & k & post & b & -> & Hpre & Hk & Hrun)
                     |[Hall Hrun]].
      * left. exists (s :: pre), k, post, b.
        repeat split; [constructor; assumption | exact Hk | exact Hrun].
      * right. split; [constructor; assumption | exact Hrun].
Qed.

(** addSecret appends: on a node that has a secret it changes neither
    the secret getSecret returns nor what encrypt does; on a node without
    secrets the added secret becomes the one getSecret returns. *)
Lemma addSecret_getSecret_first (n : node) (s : secret) :
  (secrets n <> [] ->
   getSecret (addSecret n s) = getSecret n /\
   forall rand d, encrypt (addSecret n s) rand d = encrypt n rand d) /\
  (secrets n = [] ->
   getSecret (addSecret n s) = (Some s, None) /\
   forall rand d,
     encrypt (addSecret n s) rand d
     = compressAndEncrypt (secret_crypto s) rand d).
Proof.
  unfold encrypt, getSecret, addSecret, set_secrets. cbn [secrets domain].
  split; intros H.
  - destruct (secrets n) as [|k rest]; [congruence|]. split; reflexivity.
  - rewrite H. split; reflexivity.
Qed.

(** X5. Adding a secret never takes away what a node could decrypt: when
    some secret of the node opens the ciphertext, decrypt returns the same
    after addSecret; when none does, decrypt after addSecret is what the
    added secret alone makes of it. *)
Theorem addSecret_decrypt (n : node) (s : secret) (d : bytes) :
  (Exists (fun k => exists b, opensWith k d b) (secrets n) ->
   decrypt (addSecret n s) d = decrypt n d) /\
  (Forall (fun k => failsOn k d) (secrets n) ->
   decrypt (addSecret n s) d = decrypt_loop [s] d None).
Proof.
  unfold decrypt, addSecret, set_secrets. cbn [secrets].
  split; intros H.
  - apply decrypt_loop_app_opens, H.
  - apply decrypt_loop_app_fails, H.
Qed.

Lemma addSecret_decrypt_witness :
  decrypt (addSecret Fixture.rotated Fixture.scrambleSecret)
    (Fixture.seal "002" (list_byte_of_string "payload")
       (list_byte_of_string "000000000000"))
  = decrypt Fixture.rotated
      (Fixture.seal "002" (list_byte_of_string "payload")
         (list_byte_of_string "000000000000")) /\
  decrypt (addSecret Fixture.bare Fixture.newer)
    (Fixture.seal "002" (list_byte_of_string "payload")
       (list_byte_of_string "000000000000"))
  = (Some (list_byte_of_string "payload"), None).
Proof.
  split.
  - apply (proj1 (addSecret_decrypt Fixture.rotated Fixture.scrambleSecret _)).
    apply Exists_cons_tl, Exists_cons_hd.
    eexists. unfold opensWith. vm_compute. reflexivity.
  - rewrite (proj2 (addSecret_decrypt Fixture.bare Fixture.newer _));
      [vm_compute; reflexivity | constructor].
Defined.

(** The error decrypt returns is nil, whatever the node and the
    ciphertext. *)
Lemma decrypt_error_nil (n : node) (d : bytes) :
  snd (decrypt n d) = None.
Proof.
  unfold decrypt.
  destruct (decrypt_loop_result (secrets n) d None)
    as [(pre & k & post & b & _ & _ & _ & Hrun)|[_ Hrun]];
    rewrite Hrun; reflexivity.
Qed.

(** X6. decrypt never returns an error: its second result is nil on every
    node and every ciphertext, so a failure shows only as a nil plaintext.
    What it returns is the result of the first secret, in sequence order,
    whose decryptAndDecompress returns no error. *)
Theorem decrypt_error_always_nil (n : node) (d : bytes) :
  snd (decrypt n d) = None /\
  ((exists pre s post,
       secrets n = (pre ++ s :: post)%list /\
       Forall (fun k => failsOn k d) pre /\
       opensWith s d (fst (decrypt n d))) \/
   (Forall (fun k => failsOn k d) (secrets n) /\ fst (decrypt n d) = None)).
Proof.
  unfold decrypt.
  destruct (decrypt_loop_result (secrets n) d None)
    as [(pre & k & post & b & Hss & Hpre & Hk & Hrun)|[Hall Hrun]];
    rewrite Hrun; cbn [fst snd]; split; try reflexivity.
  - left. exists pre, k, post. repeat split; assumption.
  - right. split; [exact Hall | reflexivity].
Qed.

(** A permutation keeps the secrets that open a ciphertext. *)
Lemma Exists_opens_Permutation (l l' : list secret) (d : bytes) :
  Permutation l l' ->
  Exists (fun k => exists b, opensWith k d b) l ->
  Exists (fun k => exists b, opensWith k d b) l'.
Proof.
  intros Hperm H. apply Exists_exists in H as (k & Hin & Hk).
  apply Exists_exists. exists k. split; [|exact Hk].
  rewrite <- Hperm. exact Hin.
Qed.

(** X7. sortSecrets only reorders: whatever sorting routine meets the
    contract of sort.Slice, the secrets afterwards are a permutation of
    those before, in ascending order of timeStamp, and every other field of
    the node is untouched. *)
Theorem sortSecrets_reorders (srt : sorter) (n : node) :
  sorts srt ->
  Permutation (secrets n) (secrets (sortSecrets srt n)) /\
  (forall (i j : nat) (a b : secret),
      (i < j)%nat ->
      secrets (sortSecrets srt n) !! i = Some a ->
      secrets (sortSecrets srt n) !! j = Some b ->
      timeStamp a <= timeStamp b) /\
  sortSecrets srt n = set_secrets n (secrets (sortSecrets srt n)) /\
  scrambler (sortSecrets srt n) = scrambler n /\
  nonce (sortSecrets srt n) = nonce n /\
  domain (sortSecrets srt n) = domain n.
Proof.
  intros Hsorts.
  destruct (Hsorts secret secretLess (secrets n) secretLess_strict_weak_order)
    as [Hperm Hord].
  unfold sortSecrets. cbn [secrets set_secrets scrambler nonce domain].
  split; [exact Hperm|]. split; [|repeat split].
  intros i j a b Hij Ha Hb. apply secretLess_ge.
  exact (Hord i j a b Hij Ha Hb).
Qed.

Lemma sortSecrets_reorders_witness :
  Permutation (secrets Fixture.rotated)
    (secrets (sortSecrets insertionSort Fixture.rotated)) /\
  forall (i j : nat) (a b : secret),
    (i < j)%nat ->
    secrets (sortSecrets insertionSort Fixture.rotated) !! i = Some a ->
    secrets (sortSecrets insertionSort Fixture.rotated) !! j = Some b ->
    timeStamp a <= timeStamp b.
Proof.
  destruct (sortSecrets_reorders insertionSort Fixture.rotated
              insertionSort_sorts) as (Hperm & Hord & _).
  split; [exact Hperm | exact Hord].
Defined.

(** X8. Sorting the secrets never takes away what a node could decrypt:
    when some secret of the node opens the ciphertext, decrypt after
    sortSecrets returns, with a nil error, what one of the node's secrets
    that open it gives. *)
Theorem sortSecrets_decrypt (srt : sorter) (n : node) (d : bytes) :
  sorts srt ->
  Exists (fun k => exists b, opensWith k d b) (secrets n) ->
  exists s b,
    In s (secrets n) /\
    opensWith s d b /\
    decrypt (sortSecrets srt n) d = (b, None).
Proof.
  intros Hsorts Hopen.
  destruct (Hsorts secret secretLess (secrets n) secretLess_strict_weak_order)
    as [Hperm _].
  pose proof (Exists_opens_Permutation _ _ d Hperm Hopen) as Hopen'.
  unfold decrypt, sortSecrets. cbn [secrets set_secrets].
  destruct (decrypt_loop_result (srt secret secretLess (secrets n)) d None)
    as [(pre & k & post & b & Hss & Hpre & Hk & Hrun)|[Hall Hrun]].
  - exists k, b. split; [|split; [exact Hk | exact Hrun]].
    apply (Permutation_in k (Permutation_sym Hperm)).
    rewrite Hss. apply in_or_app. right. left. reflexivity.
  - exfalso. apply Exists_exists in Hopen' as (k & Hin & b & Hk).
    rewrite Forall_forall in Hall.
    apply (opens_not_fails k d b Hk). apply Hall. exact Hin.
Qed.

Lemma sortSecrets_decrypt_witness :
  exists s b,
    In s (secrets Fixture.rotated) /\
    opensWith s
      (Fixture.seal "002" (list_byte_of_string "payload")
         (list_byte_of_string "000000000000")) b /\
    decrypt (sortSecrets insertionSort Fixture.rotated)
      (Fixture.seal "002" (list_byte_of_string "payload")
         (list_byte_of_string "000000000000")) = (b, None).
Proof.
  apply (sortSecrets_decrypt insertionSort Fixture.rotated _
           insertionSort_sorts).
  apply Exists_cons_tl, Exists_cons_hd.
  eexists. unfold opensWith. vm_compute. reflexivity.
Defined.

(** X9. What a node encrypts it decrypts again.  encrypt seals under the
    first secret, and decrypt tries that secret first: so whenever the first
    secret opens what it sealed, decrypt returns the plaintext, and it still
    does after any further secret is added. *)
Theorem encrypt_decrypt (n : node) (s : secret) (rest : list secret)
    (rand p ct : bytes) :
  secrets n = s :: rest ->
  compressAndEncrypt (secret_crypto s) rand p = (Some ct, None) ->
  opensWith s ct (Some p) ->
  encrypt n rand p = (Some ct, None) /\
  decrypt n ct = (Some p, None) /\
  forall s', decrypt (addSecret n s') ct = (Some p, None).
Proof.
  intros Hss Hseal Hopen.
  assert (Hdec : decrypt n ct = (Some p, None)).
  { unfold decrypt. rewrite Hss. apply decrypt_loop_success, Hopen. }
  split; [|split; [exact Hdec|]].
  - unfold encrypt, getSecret. rewrite Hss. exact Hseal.
  - intros s'. rewrite <- Hdec.
    unfold decrypt, addSecret, set_secrets. cbn [secrets].
    apply decrypt_loop_app_opens. rewrite Hss.
    apply Exists_cons_hd. exists (Some p). exact Hopen.
Qed.

Lemma encrypt_decrypt_witness :
  encrypt Fixture.rotated (list_byte_of_string "random-bytes-go-here")
    (list_byte_of_string "payload")
  = (Some (Fixture.seal "001" (list_byte_of_string "payload")
             (list_byte_of_string "random-bytes")), None) /\
  decrypt Fixture.rotated
    (Fixture.seal "001" (list_byte_of_string "payload")
       (list_byte_of_string "random-bytes"))
  = (Some (list_byte_of_string "payload"), None).
Proof.
  destruct (encrypt_decrypt Fixture.rotated Fixture.older [Fixture.newer]
              (list_byte_of_string "random-bytes-go-here")
              (list_byte_of_string "payload")
              (Fixture.seal "001" (list_byte_of_string "payload")
                 (list_byte_of_string "random-bytes")))
    as (Henc & Hdec & _).
  - reflexivity.
  - vm_compute. reflexivity.
  - unfold opensWith. vm_compute. reflexivity.
  - split; [exact Henc | exact Hdec].
Defined.

(** ** scramble, unscramble, getValueFromCookie *)

Lemma length_string_of_list_ascii (l : list ascii) :
  String.length (string_of_list_ascii l) = length l.
Proof.
  induction l as [|c l IH]; simpl; [reflexivity | rewrite IH; reflexivity].
Qed.

Lemma encodeChar_urlSafe (i : Z) :
  0 <= i < 64 -> urlSafe (base64.encodeChar i) = true.
Proof.
  intros Hi.
  assert (Hall : forallb
            (fun n => urlSafe (base64.encodeChar (Z.of_nat n)))
            (seq 0 64) = true) by (vm_compute; reflexivity).
  rewrite forallb_forall in Hall.
  specialize (Hall (Z.to_nat i)). rewrite Z2Nat.id in Hall by lia.
  apply Hall, in_seq. lia.
Qed.

(** Three bytes give four characters, one byte two, two bytes three. *)
Lemma Encode_length (src : bytes) :
  length (base64.Encode src) = ((4 * length src + 2) / 3)%nat.
Proof.
  induction src as [|a|a b|a b c rest IH] using base64_facts.by_triples;
    try reflexivity.
  cbn [base64.Encode length]. rewrite IH.
  replace (4 * S (S (S (length rest))) + 2)%nat
    with ((4 * length rest + 2) + 4 * 3)%nat by lia.
  rewrite Nat.div_add by lia. lia.
Qed.

Lemma Encode_urlSafe (src : bytes) :
  Forall (fun c => urlSafe c = true) (base64.Encode src).
Proof.
  induction src as [|a|a b|a b c rest IH] using base64_facts.by_triples;
    cbn [base64.Encode];
    repeat (constructor;
            [apply encodeChar_urlSafe, base64_facts.land_63_range|]);
    first [exact IH | constructor].
Qed.

(** X10. A scrambled token can go into a URL as it is: it holds only
    letters, digits, [-] and [_], has no padding, and is [(4 L + 2) / 3]
    characters long for a sealed text of [L] bytes. *)
Theorem scramble_urlSafe (n : node) (s : string) :
  Forall (fun c => urlSafe c = true) (list_ascii_of_string (scramble n s)) /\
  String.length (scramble n s)
  = ((4 * length (encryptWithNonce (secret_crypto (scrambler n))
                    (bytes_of_string s) (nonce n)) + 2) / 3)%nat.
Proof.
  unfold scramble, base64.EncodeToString. split.
  - rewrite list_ascii_of_string_of_list_ascii. apply Encode_urlSafe.
  - rewrite length_string_of_list_ascii. apply Encode_length.
Qed.

(** unscramble undoes scramble wherever the scrambler opens what it
    sealed. *)
Lemma unscramble_scramble_opens (n : node) (D : string) :
  opens (secret_crypto (scrambler n)) (bytes_of_string D) (nonce n) ->
  unscramble n (scramble n D) = (D, None).
Proof.
  intros Hopens. unfold unscramble, scramble.
  rewrite base64_facts.DecodeString_EncodeToString.
  cbn [from_option id]. unfold opens in Hopens. rewrite Hopens.
  cbn [from_option id]. unfold string_of_bytes, bytes_of_string.
  rewrite string_of_list_byte_of_string. reflexivity.
Qed.

(** X11. Different texts never share a token: on a node whose scrambler
    opens what it sealed for both, two different texts have different
    scrambled tokens. *)
Theorem scramble_injective (n : node) (D1 D2 : string) :
  opens (secret_crypto (scrambler n)) (bytes_of_string D1) (nonce n) ->
  opens (secret_crypto (scrambler n)) (bytes_of_string D2) (nonce n) ->
  D1 <> D2 ->
  scramble n D1 <> scramble n D2.
Proof.
  intros H1 H2 Hne Heq. apply Hne.
  pose proof (unscramble_scramble_opens n D1 H1) as U1.
  pose proof (unscramble_scramble_opens n D2 H2) as U2.
  rewrite Heq, U2 in U1. congruence.
Qed.

Lemma scramble_injective_witness :
  scramble Fixture.bare "b.example" <> scramble Fixture.bare "c.example".
Proof.
  apply (scramble_injective Fixture.bare "b.example" "c.example");
    [vm_compute; reflexivity | vm_compute; reflexivity | discriminate].
Defined.




(** X13. getValueFromCookie returns a pair or an error, never both and
    never neither.  A value that is not base64 gives the decoder's error.  A
    cookie that no secret of the node opens is reported as "Value for
    cookie '<name>' zero length", like one whose plaintext is empty.  A pair
    is returned only when the plaintext is not empty, readTime reads a time
    from it, and setFromBuffer fills the pair from the rest. *)
Theorem getValueFromCookie_outcomes (lib : CookieLib) (n : node)
    (c : Cookie.t) :
  ((exists p, getValueFromCookie lib n c = (Some p, None)) \/
   (exists e, getValueFromCookie lib n c = (None, Some e))) /\
  (forall x e, base64.DecodeString (Cookie.Value c) = (x, Some e) ->
     getValueFromCookie lib n c = (None, Some e)) /\
  (forall v, base64.DecodeString (Cookie.Value c) = (v, None) ->
     Forall (fun k => failsOn k (default [] v)) (secrets n) ->
     getValueFromCookie lib n c
     = (None, Some (errZeroLength (Cookie.Name c)))) /\
  (forall p, getValueFromCookie lib n c = (Some p, None) ->
     exists v d t b,
       base64.DecodeString (Cookie.Value c) = (v, None) /\
       decrypt n (default [] v) = (Some d, None) /\
       d <> [] /\
       readTime lib d = ((t, None), b) /\
       setFromBuffer lib (set_cookieWriteTime (zeroPair lib) t) b
       = (p, None)).
Proof.
  unfold getValueFromCookie.
  destruct (base64.DecodeString (Cookie.Value c)) as [v [e|]] eqn:Hv.
  { split; [right; eauto|]. split; [|split].
    - intros x e' H. injection H as _ <-. reflexivity.
    - intros v' H. discriminate H.
    - intros p H. discriminate H. }
  destruct (decrypt n (default [] v)) as [d err] eqn:Hd.
  pose proof (decrypt_error_nil n (default [] v)) as Herr.
  rewrite Hd in Herr. cbn [snd] in Herr. subst err.
  assert (Hfail : forall v', (v, @None error) = (v', None) ->
            Forall (fun k => failsOn k (default [] v')) (secrets n) ->
            d = None).
  { intros v' H Hall. injection H as <-.
    rewrite (decrypt_none_succeeds n _ Hall) in Hd. congruence. }
  destruct d as [[|d0 d]|]; cbn [from_option id].
  - split; [right; eauto|]. split; [discriminate|]. split; [reflexivity|].
    discriminate.
  - destruct (readTime lib (d0 :: d)) as [[t [e|]] b] eqn:Ht.
    { split; [right; eauto|]. split; [discriminate|].
      split; [|discriminate].
      intros v' H Hall. discriminate (Hfail v' H Hall). }
    destruct (setFromBuffer lib _ b) as [p [e|]] eqn:Hp.
    { split; [right; eauto|]. split; [discriminate|].
      split; [|discriminate].
      intros v' H Hall. discriminate (Hfail v' H Hall). }
    split; [left; eauto|]. split; [discriminate|]. split.
    + intros v' H Hall. discriminate (Hfail v' H Hall).
    + intros p' H. injection H as <-.
      exists v, (d0 :: d), t, b. repeat split; try assumption. discriminate.
  - split; [right; eauto|]. split; [discriminate|]. split; [reflexivity|].
    discriminate.
Qed.

Lemma getValueFromCookie_outcomes_witness :
  getValueFromCookie Scenario.cookieLib Fixture.rotated
    (Scenario.cookie "AAAAAAAAAAAAAAAAAAAAAA")
  = (None, Some (errZeroLength "swift")) /\
  getValueFromCookie Scenario.cookieLib Fixture.rotated
    (Scenario.cookie "not base64!")
  = (None, Some CorruptInputError) /\
  exists v d t b,
    base64.DecodeString (Fixture.sealed "Tage") = (v, None) /\
    decrypt Fixture.rotated (default [] v) = (Some d, None) /\
    d <> [] /\
    readTime Scenario.cookieLib d = ((t, None), b) /\
    setFromBuffer Scenario.cookieLib
      (set_cookieWriteTime (zeroPair Scenario.cookieLib) t) b
    = ({| Pair.key := "age"; Pair.value := "";
          Pair.conflict := conflictAdd; Pair.created := time.zero;
          Pair.expires := time.zero; Pair.cookieWriteTime := 84 |}, None).
Proof.
  split; [|split].
  - destruct (getValueFromCookie_outcomes Scenario.cookieLib Fixture.rotated
                (Scenario.cookie "AAAAAAAAAAAAAAAAAAAAAA"))
      as (_ & _ & Hzero & _).
    apply (Hzero (Some (repeat "000"%byte 16))); [vm_compute; reflexivity|].
    repeat constructor; eexists; vm_compute; reflexivity.
  - destruct (getValueFromCookie_outcomes Scenario.cookieLib Fixture.rotated
                (Scenario.cookie "not base64!"))
      as (_ & Hbad & _).
    apply (Hbad None). vm_compute. reflexivity.
  - destruct (getValueFromCookie_outcomes Scenario.cookieLib Fixture.rotated
                (Scenario.cookie (Fixture.sealed "Tage")))
      as (_ & _ & _ & Hpair).
    apply Hpair. vm_compute. reflexivity.
Defined.

(** ** createPair: which keys it accepts *)

Lemma digitChar_mod (n k : Z) :
  n mod 10 = k mod 10 -> digitChar n = digitChar k.
Proof. unfold digitChar. intros ->. reflexivity. Qed.

(** A digit is the character of its own value. *)
Lemma digit_digitChar (c : ascii) :
  isDigit c = true -> digitChar (digitVal c) = c /\ 0 <= digitVal c <= 9.
Proof.
  destruct c as [[] [] [] [] [] [] [] []]; intros H;
    try (cbv in H; discriminate H);
    (split; [reflexivity | cbv; split; discriminate]).
Qed.

(** What [time.Parse] makes of a text of the shape NNNN-NN-NN. *)
Lemma Parse_formatDate_cases (year month day : Z) :
  0 <= year <= 9999 -> 0 <= month <= 99 -> 0 <= day <= 99 ->
  time.Parse (formatDate year month day)
  = if (month <=? 0) || (12 <? month)
    then Err (ParseError time.layout (formatDate year month day)
                ": month out of range")
    else if (day <? 1) || (time.daysIn month year <? day)
    then Err (ParseError time.layout (formatDate year month day)
                ": day out of range")
    else Ok (time.Date year month day).
Proof.
  intros Hy Hm Hd.
  assert (Hyear : ((year / 1000 mod 10 * 10 + (year / 100) mod 10) * 10
                   + (year / 10) mod 10) * 10 + year mod 10 = year)
    by (Z.div_mod_to_equations; lia).
  assert (Hmonth : (month / 10) mod 10 * 10 + month mod 10 = month)
    by (Z.div_mod_to_equations; lia).
  assert (Hday : (day / 10) mod 10 * 10 + day mod 10 = day)
    by (Z.div_mod_to_equations; lia).
  unfold time.Parse, time.getyear, time.getnum, time.skip.
  unfold formatDate at 1.
  repeat first
    [ rewrite (proj1 (digitChar_digit _))
    | rewrite (proj2 (digitChar_digit _))
    | progress cbn [andb] ].
  rewrite Hyear, Hmonth.
  destruct ((month <=? 0) || (12 <? month)); [reflexivity|].
  repeat first
    [ rewrite (proj1 (digitChar_digit _))
    | rewrite (proj2 (digitChar_digit _))
    | progress cbn [andb] ].
  rewrite Hday.
  destruct ((day <? 1) || (time.daysIn month year <? day)); reflexivity.
Qed.

(** Whatever [time.Parse] accepts is a day of the calendar in its
    YYYY-MM-DD form, and the result is that day. *)
Lemma Parse_Ok_inv (s : string) (t : Time) :
  time.Parse s = Ok t ->
  exists year month day,
    validDate year month day /\
    s = formatDate year month day /\
    t = time.Date year month day.
Proof.
  intros H. destruct (Parse_shape s t H)
    as (y1 & y2 & y3 & y4 & m1 & m2 & d1 & d2 & Hs & Hdig).
  repeat match goal with
         | H : Forall _ (_ :: _) |- _ => inversion H; clear H; subst
         end.
  repeat match goal with
         | H : isDigit ?c = true |- _ =>
             let E := fresh "E" in let R := fresh "R" in
             destruct (digit_digitChar c H) as [E R]; clear H
         end.
  set (year := ((digitVal y1 * 10 + digitVal y2) * 10 + digitVal y3) * 10
               + digitVal y4).
  set (month := digitVal m1 * 10 + digitVal m2).
  set (day := digitVal d1 * 10 + digitVal d2).
  assert (Hform :
    String y1 (String y2 (String y3 (String y4 (String "-"
      (String m1 (String m2 (String "-" (String d1 (String d2 "")))))))))
    = formatDate year month day).
  { unfold formatDate.
    rewrite (digitChar_mod (year / 1000) (digitVal y1))
      by (subst year; Z.div_mod_to_equations; lia).
    rewrite (digitChar_mod (year / 100) (digitVal y2))
      by (subst year; Z.div_mod_to_equations; lia).
    rewrite (digitChar_mod (year / 10) (digitVal y3))
      by (subst year; Z.div_mod_to_equations; lia).
    rewrite (digitChar_mod year (digitVal y4))
      by (subst year; Z.div_mod_to_equations; lia).
    rewrite (digitChar_mod (month / 10) (digitVal m1))
      by (subst month; Z.div_mod_to_equations; lia).
    rewrite (digitChar_mod month (digitVal m2))
      by (subst month; Z.div_mod_to_equations; lia).
    rewrite (digitChar_mod (day / 10) (digitVal d1))
      by (subst day; Z.div_mod_to_equations; lia).
    rewrite (digitChar_mod day (digitVal d2))
      by (subst day; Z.div_mod_to_equations; lia).
    congruence. }
  rewrite Hform in H.
  rewrite Parse_formatDate_cases in H by (subst year month day; lia).
  exists year, month, day.
  destruct (Z.leb_spec month 0); [discriminate H|].
  destruct (Z.ltb_spec 12 month); [discriminate H|].
  cbn [orb] in H.
  destruct (Z.ltb_spec day 1); [discriminate H|].
  destruct (Z.ltb_spec (time.daysIn month year) day); [discriminate H|].
  cbn [orb] in H. injection H as <-.
  split; [|split; [exact Hform | reflexivity]].
  unfold validDate. subst year. lia.
Qed.

(** A key without exactly one operation character is rejected, whatever the
    clock shows, and the clock is not read. *)
Lemma createPair_count_Err (clk : time.Clock) (k v : string) :
  countOperationCharacters k <> 1%nat ->
  exists e, createPair clk k v = (Err e, clk).
Proof.
  intros Hcount.
  destruct (Nat.eq_dec (countOperationCharacters k) 0%nat) as [H0|H0].
  - exists (errNoOperation k). unfold createPair, FindStringIndex.
    rewrite (findFrom_none k 0 H0). reflexivity.
  - destruct (split_at_operation k ltac:(lia))
      as (pre & c & post & -> & Hpre & Hc & Hcnt).
    rewrite (createPair_split clk pre post v c Hpre Hc).
    destruct (time.Parse post) as [t|e] eqn:Hparse.
    + apply Parse_no_operation in Hparse. lia.
    + exists e. reflexivity.
Qed.

(** A pair comes only from a key of the accepted form. *)
Lemma createPair_Ok_inv (clk clk' : time.Clock) (k v : string)
    (p : Pair.pair) :
  createPair clk k v = (Ok p, clk') ->
  exists (name : string) (op : ascii) (year month day : Z),
    k = name ++ String op (formatDate year month day) /\
    countOperationCharacters name = 0%nat /\
    isOperationCharacter op = true /\
    validDate year month day /\
    time.reading clk (time.ticks clk) <= time.Date year month day /\
    p = {| Pair.key := name;
           Pair.value := v;
           Pair.conflict := policyOf op;
           Pair.created := time.reading clk (S (time.ticks clk));
           Pair.expires := time.Date year month day;
           Pair.cookieWriteTime := time.zero |} /\
    clk' = advance 2 clk.
Proof.
  intros H.
  destruct (Nat.eq_dec (countOperationCharacters k) 0%nat) as [H0|H0].
  { destruct (createPair_count_Err clk k v ltac:(lia)) as [e He].
    rewrite He in H. discriminate H. }
  destruct (split_at_operation k ltac:(lia))
    as (name & op & post & -> & Hname & Hop & _).
  rewrite (createPair_split clk name post v op Hname Hop) in H.
  destruct (time.Parse post) as [t|e] eqn:Hparse; [|discriminate H].
  destruct (Parse_Ok_inv post t Hparse)
    as (year & month & day & Hvalid & -> & ->).
  unfold Before in H.
  destruct (Z.ltb_spec (time.Date year month day)
              (time.reading clk (time.ticks clk))); [discriminate H|].
  injection H as <- <-.
  exists name, op, year, month, day. repeat split; auto; apply Hvalid.
Qed.

(** The errors createPair can return, and the clock readings they cost. *)
Lemma createPair_Err_inv (clk clk' : time.Clock) (k v : string) (e : error) :
  createPair clk k v = (Err e, clk') ->
  (e = errNoOperation k /\ clk' = clk) \/
  (exists value reason, e = ParseError time.layout value reason /\
                        clk' = clk) \/
  (exists date, e = errNotFuture date /\ clk' = advance 1 clk).
Proof.
  intros H.
  destruct (Nat.eq_dec (countOperationCharacters k) 0%nat) as [H0|H0].
  { unfold createPair, FindStringIndex in H.
    rewrite (findFrom_none k 0 H0) in H. injection H as <- <-.
    left. split; reflexivity. }
  destruct (split_at_operation k ltac:(lia))
    as (name & op & post & -> & Hname & Hop & _).
  rewrite (createPair_split clk name post v op Hname Hop) in H.
  destruct (time.Parse post) as [t|e'] eqn:Hparse.
  - destruct (Before t _); [|discriminate H].
    injection H as <- <-. right. right. exists post. split; reflexivity.
  - injection H as <- <-. right. left.
    unfold time.Parse in Hparse.
    repeat match type of Hparse with
           | match ?x with _ => _ end = _ => destruct x
           | (if ?b then _ else _) = _ => destruct b
           | (let (_, _) := ?x in _) = _ => destruct x
           end; try discriminate Hparse;
      injection Hparse as <-; eauto.
Qed.

Lemma policyOf_valid (op : ascii) :
  isOperationCharacter op = true -> policyOf op <> conflictInvalid.
Proof.
  unfold policyOf, isOperationCharacter.
  destruct (Ascii.eqb op "+"), (Ascii.eqb op "<"), (Ascii.eqb op ">");
    simpl; congruence.
Qed.

(** Midnight of a calendar day is a whole number of days from the epoch. *)
Lemma Date_whole_days (year month day : Z) :
  time.Date year month day mod nsPerDay = 0.
Proof.
  unfold time.Date, nsPerDay. rewrite <- Z.mul_assoc. apply Z.mod_mul. lia.
Qed.

(** X14. createPair accepts exactly the keys of the form
    [name op YYYY-MM-DD] where the name holds no operation character, [op]
    is one of [+], [<], [>], the date is a day of the calendar and its
    midnight is not before the clock reading; the pair it returns is then
    fixed by the key, the value and the next clock reading.  Every other key
    is rejected. *)
Theorem createPair_accepts_iff (clk clk' : time.Clock) (k v : string)
    (p : Pair.pair) :
  createPair clk k v = (Ok p, clk') <->
  exists (name : string) (op : ascii) (year month day : Z),
    k = name ++ String op (formatDate year month day) /\
    countOperationCharacters name = 0%nat /\
    isOperationCharacter op = true /\
    validDate year month day /\
    time.reading clk (time.ticks clk) <= time.Date year month day /\
    p = {| Pair.key := name;
           Pair.value := v;
           Pair.conflict := policyOf op;
           Pair.created := time.reading clk (S (time.ticks clk));
           Pair.expires := time.Date year month day;
           Pair.cookieWriteTime := time.zero |} /\
    clk' = advance 2 clk.
Proof.
  split; [apply createPair_Ok_inv|].
  intros (name & op & year & month & day & -> & Hname & Hop & Hvalid & Hnow
          & -> & ->).
  rewrite (createPair_split clk name _ v op Hname Hop).
  rewrite (Parse_formatDate year month day Hvalid).
  unfold Before.
  destruct (Z.ltb_spec (time.Date year month day)
              (time.reading clk (time.ticks clk))); [lia|].
  reflexivity.
Qed.

Lemma createPair_accepts_iff_witness :
  exists (name : string) (op : ascii) (year month day : Z),
    "seen>2031-12-31" = name ++ String op (formatDate year month day) /\
    countOperationCharacters name = 0%nat /\
    isOperationCharacter op = true /\
    validDate year month day /\
    time.reading (Fixture.clockAt 0) 0 <= time.Date year month day /\
    fst (createPair (Fixture.clockAt 0) "seen>2031-12-31" "yes")
    = Ok {| Pair.key := name;
            Pair.value := "yes";
            Pair.conflict := policyOf op;
            Pair.created := 1;
            Pair.expires := time.Date year month day;
            Pair.cookieWriteTime := time.zero |}.
Proof.
  destruct (createPair (Fixture.clockAt 0) "seen>2031-12-31" "yes")
    as [[p|e] clk'] eqn:H; [|vm_compute in H; discriminate H].
  apply (proj1 (createPair_accepts_iff _ _ _ _ _)) in H
    as (name & op & year & month & day & Hk & Hname & Hop & Hvalid & Hnow
        & -> & _).
  exists name, op, year, month, day. repeat split; try assumption;
    apply Hvalid.
Defined.

(** X15. Whatever pair createPair returns has a conflict policy other than
    conflictInvalid, a key without operation character, an expiry at
    midnight UTC that is not before the clock reading of the check, and the
    following clock reading as created time; createPair then read the clock
    twice.  When it fails it read the clock at most once, and the error is
    the missing-operation message, the error of time.Parse, or "must be in
    the future". *)
Theorem createPair_result (clk : time.Clock) (k v : string) :
  match createPair clk k v with
  | (Ok p, clk') =>
      Pair.conflict p <> conflictInvalid /\
      countOperationCharacters (Pair.key p) = 0%nat /\
      Pair.value p = v /\
      Pair.expires p mod nsPerDay = 0 /\
      time.reading clk (time.ticks clk) <= Pair.expires p /\
      Pair.created p = time.reading clk (S (time.ticks clk)) /\
      clk' = advance 2 clk
  | (Err e, clk') =>
      (e = errNoOperation k /\ clk' = clk) \/
      (exists value reason, e = ParseError time.layout value reason /\
                            clk' = clk) \/
      (exists date, e = errNotFuture date /\ clk' = advance 1 clk)
  end.
Proof.
  destruct (createPair clk k v) as [[p|e] clk'] eqn:H.
  - apply createPair_Ok_inv in H
      as (name & op & year & month & day & -> & Hname & Hop & Hvalid & Hnow
          & -> & ->).
    cbn [Pair.conflict Pair.key Pair.value Pair.expires Pair.created].
    repeat split; try assumption; try apply Date_whole_days.
    apply policyOf_valid, Hop.
  - apply (createPair_Err_inv _ _ _ _ _ H).
Qed.

(** ** The loop of createURL over the form *)

Lemma advance_advance (m k : nat) (c : time.Clock) :
  advance m (advance k c) = advance (m + k) c.
Proof. unfold advance. cbn. f_equal. lia. Qed.

Lemma advance_0 (c : time.Clock) : advance 0 c = c.
Proof. destruct c. reflexivity. Qed.

(** A field that is reserved or has no value is passed over. *)
Lemma addPairs_skip (k : string) (v : list string)
    (rest : list (string * list string)) (clk : time.Clock)
    (o : Operation.operation) :
  eligible (k, v) = false ->
  addPairs ((k, v) :: rest) clk o = addPairs rest clk o.
Proof.
  unfold eligible. cbn [fst snd addPairs].
  destruct (negb (isReserved k)); [|reflexivity].
  destruct v; [reflexivity | discriminate].
Qed.

(** An eligible field goes through createPair with its first value. *)
Lemma addPairs_step (k v0 : string) (vs : list string)
    (rest : list (string * list string)) (clk : time.Clock)
    (o : Operation.operation) :
  isReserved k = false ->
  addPairs ((k, v0 :: vs) :: rest) clk o
  = match createPair clk k v0 with
    | (Err err, clk') => (Err err, clk')
    | (Ok p, clk') =>
        match Pair.conflict p with
        | conflictInvalid =>
            (Err (errorString "Pair does not contain valid conflict flag"),
             clk')
        | _ =>
            addPairs rest clk'
              (Operation.set_values o (Operation.values o ++ [p]))
        end
    end.
Proof. intros H. cbn [addPairs]. rewrite H. reflexivity. Qed.

Lemma eligible_cases (k : string) (v : list string) :
  (eligible (k, v) = false) \/
  (exists v0 vs, v = v0 :: vs /\ isReserved k = false /\
                 eligible (k, v) = true).
Proof.
  unfold eligible. cbn [fst snd].
  destruct (isReserved k); [left; reflexivity|].
  destruct v as [|v0 vs]; [left; reflexivity|].
  right. exists v0, vs. repeat split.
Qed.

(** X16. When the loop over the form succeeds, it has appended to the
    operation's values one pair for every field that is not reserved and has
    a value, in the order of the walk, each made from its field: key, policy
    and expiry from the field name, value from the field's first value.
    Nothing else of the operation has changed, and the clock was read twice
    per pair. *)
Theorem addPairs_appends (kvs : list (string * list string))
    (clk clk' : time.Clock) (o o' : Operation.operation) :
  addPairs kvs clk o = (Ok o', clk') ->
  exists ps,
    o' = Operation.set_values o (Operation.values o ++ ps) /\
    Forall2 madeFrom (List.filter eligible kvs) ps /\
    clk' = advance (2 * length ps) clk.
Proof.
  revert clk o. induction kvs as [|[k v] kvs IH]; intros clk o H.
  - cbn in H. injection H as <- <-. exists [].
    rewrite app_nil_r, advance_0. destruct o. repeat split. constructor.
  - destruct (eligible_cases k v) as [Hskip|(v0 & vs & -> & Hres & Hel)].
    + rewrite addPairs_skip in H by exact Hskip.
      cbn [List.filter]. rewrite Hskip. apply IH, H.
    + rewrite addPairs_step in H by exact Hres.
      destruct (createPair clk k v0) as [[p|e] clk1] eqn:Hp;
        [|discriminate H].
      apply createPair_Ok_inv in Hp
        as (name & op & year & month & day & -> & Hname & Hop & Hvalid
            & Hnow & -> & ->).
      cbn [Pair.conflict] in H.
      pose proof (policyOf_valid op Hop) as Hpol.
      destruct (policyOf op) eqn:Hpo; [congruence| | |];
        (apply IH in H as (ps & -> & Hall & ->);
         eexists (_ :: ps); cbn [List.filter]; rewrite Hel;
         split; [cbn; rewrite <- app_assoc; reflexivity|];
         split; [|rewrite advance_advance; f_equal; cbn [length]; lia];
         constructor; [|exact Hall];
         exists op, year, month, day, v0, vs;
         cbn [Pair.key Pair.conflict Pair.expires Pair.value
              Pair.cookieWriteTime];
         rewrite Hpo; repeat split; try assumption; try apply Hvalid;
         discriminate).
Qed.

Lemma addPairs_appends_witness :
  exists ps,
    fst (addPairs (map_to_list Scenario.pairForm) (Fixture.clockAt 0)
           (newOperation Fixture.lib Fixture.services Fixture.rotated))
    = Ok (Operation.set_values
            (newOperation Fixture.lib Fixture.services Fixture.rotated)
            ps) /\
    Forall2 madeFrom
      (List.filter eligible (map_to_list Scenario.pairForm)) ps /\
    length ps = 1%nat.
Proof.
  destruct (addPairs (map_to_list Scenario.pairForm) (Fixture.clockAt 0)
              (newOperation Fixture.lib Fixture.services Fixture.rotated))
    as [[o'|e] clk'] eqn:H; [|vm_compute in H; discriminate H].
  pose proof (addPairs_appends _ _ _ _ _ H) as (ps & -> & Hall & _).
  exists ps. split; [reflexivity|]. split; [exact Hall|].
  apply Forall2_length in Hall. rewrite <- Hall. vm_compute. reflexivity.
Defined.

(** X17. The loop is all or nothing: one field that is not reserved, has a
    value, and whose name does not hold exactly one operation character
    makes the loop fail, wherever the walk meets it, and with it createURL
    once the blocks before the loop have passed. *)
Theorem addPairs_rejects (kvs : list (string * list string))
    (k v0 : string) (vs : list string) :
  In (k, v0 :: vs) kvs ->
  isReserved k = false ->
  countOperationCharacters k <> 1%nat ->
  (forall clk o, exists e clk', addPairs kvs clk o = (Err e, clk')) /\
  (forall lib s r clk o,
      prepare lib s r = Ok o ->
      range lib (fst (Request.ParseForm r)) = kvs ->
      exists e clk', createURL lib s r clk = (Err e, clk')).
Proof.
  intros Hin Hres Hcount.
  assert (Hloop : forall clk o,
             exists e clk', addPairs kvs clk o = (Err e, clk')).
  { induction kvs as [|[k1 v1] kvs IH]; intros clk o; [destruct Hin|].
    destruct Hin as [Heq|Hin].
    - injection Heq as -> ->. rewrite addPairs_step by exact Hres.
      destruct (createPair_count_Err clk k v0 Hcount) as [e He].
      rewrite He. eauto.
    - destruct (eligible_cases k1 v1) as [Hskip|(w0 & ws & -> & Hres1 & _)].
      + rewrite addPairs_skip by exact Hskip. apply IH, Hin.
      + rewrite addPairs_step by exact Hres1.
        destruct (createPair clk k1 w0) as [[p|e] clk1]; [|eauto].
        destruct (Pair.conflict p); [eauto| | |]; apply IH, Hin. }
  split; [exact Hloop|].
  intros lib s r clk o Hprep Hrange.
  unfold createURL, buildOperation. rewrite Hprep, Hrange.
  destruct (Hloop clk o) as (e & clk' & ->). eauto.
Qed.

Lemma addPairs_rejects_witness :
  exists e clk',
    createURL Fixture.lib Fixture.services
      (Fixture.request Scenario.brokenForm) (Fixture.clockAt 0)
    = (Err e, clk').
Proof.
  destruct (prepare Fixture.lib Fixture.services
              (Fixture.request Scenario.brokenForm)) as [o|e] eqn:Hprep;
    [|vm_compute in Hprep; discriminate Hprep].
  assert (Hin : In ("colour", ["red"]) (map_to_list Scenario.brokenForm)).
  { vm_compute. repeat (first [left; reflexivity | right]). }
  assert (Hcount : countOperationCharacters "colour" <> 1%nat)
    by (vm_compute; discriminate).
  exact (proj2 (addPairs_rejects (map_to_list Scenario.brokenForm)
                  "colour" "red" [] Hin eq_refl Hcount)
           Fixture.lib Fixture.services
           (Fixture.request Scenario.brokenForm) (Fixture.clockAt 0) o
           Hprep eq_refl).
Defined.

(** X18. The check for conflictInvalid after createPair never fires: the
    loop over the form does not return the error "Pair does not contain
    valid conflict flag", whatever the form and the clock. *)
Theorem addPairs_conflict_check_dead (kvs : list (string * list string))
    (clk clk' : time.Clock) (o : Operation.operation) :
  addPairs kvs clk o
  <> (Err (errorString "Pair does not contain valid conflict flag"), clk').
Proof.
  revert clk o. induction kvs as [|[k v] kvs IH]; intros clk o.
  - discriminate.
  - destruct (eligible_cases k v) as [Hskip|(v0 & vs & -> & Hres & _)].
    + rewrite addPairs_skip by exact Hskip. apply IH.
    + rewrite addPairs_step by exact Hres.
      destruct (createPair clk k v0) as [[p|e] clk1] eqn:Hp.
      * apply createPair_Ok_inv in Hp
          as (name & op & year & month & day & _ & _ & Hop & _ & _ & ->
              & _).
        cbn [Pair.conflict].
        pose proof (policyOf_valid op Hop) as Hpol.
        destruct (policyOf op); [congruence| | |]; apply IH.
      * apply createPair_Err_inv in Hp
          as [[-> _]|[(value & reason & -> & _)|(date & -> & _)]];
          intros H; discriminate H.
Qed.

(** ** isReserved *)

(** X19. isReserved holds exactly for the thirteen parameter names of the
    create request, compared letter for letter.  None of them holds an
    operation character, so createPair would reject each of them: the
    filter is what lets a request carry these parameters at all. *)
Theorem isReserved_spec (s : string) :
  (isReserved s = true <-> In s reservedNames) /\
  (isReserved s = true ->
   countOperationCharacters s = 0%nat /\
   forall clk v, createPair clk s v = (Err (errNoOperation s), clk)).
Proof.
  assert (Hiff : isReserved s = true <-> In s reservedNames).
  { unfold isReserved, reservedNames. cbn [In].
    rewrite !orb_true_iff, !String.eqb_eq.
    split; intros H; intuition (subst; auto). }
  split; [exact Hiff|].
  intros H. apply Hiff in H.
  assert (Hcount : countOperationCharacters s = 0%nat).
  { unfold reservedNames in H. cbn [In] in H.
    repeat destruct H as [<-|H]; try reflexivity. destruct H. }
  split; [exact Hcount|].
  intros clk v. unfold createPair, FindStringIndex.
  rewrite (findFrom_none s 0 Hcount). reflexivity.
Qed.

Lemma isReserved_spec_witness :
  countOperationCharacters "X-FORWARDED-FOR" = 0%nat /\
  forall clk v,
    createPair clk "X-FORWARDED-FOR" v
    = (Err (errNoOperation "X-FORWARDED-FOR"), clk).
Proof.
  apply (proj2 (isReserved_spec "X-FORWARDED-FOR")). reflexivity.
Defined.

(** ** createURL: what each block demands and what the operation holds *)

Lemma accessNodeOf_Ok_inv (s : Services) (r : Request.t) (a : node) :
  accessNodeOf s r = Ok a ->
  getNode (store s) (Request.Host r) = (Some a, None) /\
  role a = roleAccess.
Proof.
  unfold accessNodeOf.
  destruct (getNode (store s) (Request.Host r)) as [[a'|] [e|]];
    try discriminate.
  destruct (role a') eqn:Hrole; [|discriminate].
  intros H. injection H as <-. split; [reflexivity | exact Hrole].
Qed.

Lemma setNodeCount_Ok_inv (s : Services) (form : Values)
    (o o' : Operation.operation) :
  setNodeCount s form o = Ok o' ->
  exists c,
    o' = Operation.set_nodeCount o c /\
    ((Values_Get form bounces = "" /\ c = Config.NodeCount (config s)) \/
     (Values_Get form bounces <> "" /\
      strconv.Atoi (Values_Get form bounces) = (c, None) /\ 0 < c < 255)).
Proof.
  unfold setNodeCount.
  destruct (String.eqb_spec (Values_Get form bounces) "") as [Hb|Hb];
    cbn [negb].
  - intros H. injection H as <-. eexists. split; [reflexivity|]. left. auto.
  - destruct (strconv.Atoi (Values_Get form bounces)) as [c [e|]];
      [discriminate|].
    destruct (Z.leb_spec c 0) as [|Hlow]; [discriminate|].
    destruct (Z.ltb_spec c 255) as [Hhigh|]; [|discriminate].
    intros H. injection H as <-. exists c. split.
    + unfold byte_of_int. rewrite Z.mod_small by lia. reflexivity.
    + right. repeat split; auto; lia.
Qed.

Lemma setReturnURL_Ok_inv (lib : Lib) (form : Values)
    (o o' : Operation.operation) :
  setReturnURL lib form o = Ok o' ->
  exists ru,
    url_Parse lib (Values_Get form returnURLParam) = Ok ru /\
    URL.Host ru <> "" /\ URL.Scheme ru <> "" /\
    o' = Operation.set_returnURL o (URL.String ru).
Proof.
  unfold setReturnURL, bind.
  destruct (url_Parse lib _) as [ru|]; [|discriminate].
  destruct (String.eqb_spec (URL.Host ru) "") as [|Hhost]; [discriminate|].
  destruct (String.eqb_spec (URL.Scheme ru) "") as [|Hscheme];
    [discriminate|].
  intros H. injection H as <-. exists ru.
  repeat split; first [assumption | reflexivity].
Qed.

Lemma setStateAndTable_Ok_inv (form : Values) (o o' : Operation.operation) :
  setStateAndTable form o = Ok o' ->
  Values_Get form tableParam <> "" /\
  o' = Operation.set_table
         (Operation.set_state o (Values_Get form stateParam))
         (Values_Get form tableParam).
Proof.
  unfold setStateAndTable. cbn [Operation.table Operation.set_table].
  destruct (String.eqb_spec (Values_Get form tableParam) "") as [|Htable];
    [discriminate|].
  intros H. injection H as <-. split; [assumption | reflexivity].
Qed.

Lemma setHomeNode_Ok_inv (r : Request.t) (form : Values)
    (o o' : Operation.operation) :
  setHomeNode r form o = Ok o' ->
  exists n,
    getHomeNode (Operation.network o)
      (orDefault (Values_Get form xforwarededfor)
         (Request.Header_Get r "X-FORWARDED-FOR"))
      (orDefault (Values_Get form remoteAddr) (Request.RemoteAddr r))
    = Ok n /\
    o' = Operation.set_homeNode (Operation.set_nextNode o (Some n))
           (domain n).
Proof.
  unfold setHomeNode, bind.
  destruct (getHomeNode _ _ _) as [n|]; [|discriminate].
  intros H. injection H as <-. exists n. split; reflexivity.
Qed.

(** The operation createURL has built when it asks for the next URL, as the
    chain of assignments that made it. *)
Lemma buildOperation_inv (lib : Lib) (s : Services) (r : Request.t)
    (clk clk' : time.Clock) (o : Operation.operation) :
  buildOperation lib s r clk = (Ok o, clk') ->
  exists a nw form c ru ps n,
    getNode (store s) (Request.Host r) = (Some a, None) /\
    role a = roleAccess /\
    getNodes (store s) (network a) = Ok nw /\
    Request.ParseForm r = (form, None) /\
    ((Values_Get form bounces = "" /\ c = Config.NodeCount (config s)) \/
     (Values_Get form bounces <> "" /\
      strconv.Atoi (Values_Get form bounces) = (c, None) /\ 0 < c < 255)) /\
    url_Parse lib (Values_Get form returnURLParam) = Ok ru /\
    URL.Host ru <> "" /\ URL.Scheme ru <> "" /\
    Values_Get form tableParam <> "" /\
    Forall2 madeFrom (List.filter eligible (range lib form)) ps /\
    clk' = advance (2 * length ps) clk /\
    getHomeNode nw
      (orDefault (Values_Get form xforwarededfor)
         (Request.Header_Get r "X-FORWARDED-FOR"))
      (orDefault (Values_Get form remoteAddr) (Request.RemoteAddr r))
    = Ok n /\
    o = Operation.set_homeNode
          (Operation.set_nextNode
             (Operation.set_values
                (setHTML s form
                   (setBrowserWarning lib form
                      (Operation.set_table
                         (Operation.set_state
                            (Operation.set_returnURL
                               (Operation.set_nodeCount
                                  (Operation.set_accessNode
                                     (Operation.set_network
                                        (newOperation lib s a) nw)
                                     (domain a)) c)
                               (URL.String ru))
                            (Values_Get form stateParam))
                         (Values_Get form tableParam))))
                (Operation.values (newOperation lib s a) ++ ps))
             (Some n))
          (domain n).
Proof.
  intros H.
  apply buildOperation_Ok in H as (p & o' & Hp & Hadd & Hhome).
  apply prepare_Ok in Hp
    as (a & nw & form & o1 & o2 & o3 & Ha & Hnw & Hform & H1 & H2 & H3 & ->).
  rewrite Hform in Hadd, Hhome. cbn [fst] in Hadd, Hhome.
  apply accessNodeOf_Ok_inv in Ha as [Hget Hrole].
  apply setNodeCount_Ok_inv in H1 as (c & -> & Hc).
  apply setReturnURL_Ok_inv in H2 as (ru & Hru & Hhost & Hscheme & ->).
  apply setStateAndTable_Ok_inv in H3 as (Htable & ->).
  apply addPairs_appends in Hadd as (ps & -> & Hps & ->).
  apply setHomeNode_Ok_inv in Hhome as (n & Hn & ->).
  exists a, nw, form, c, ru, ps, n.
  repeat (split; [assumption|]).
  split; [reflexivity|].
  split.
  - revert Hn. unfold setHTML, setBrowserWarning.
    destruct (strconv_ParseFloat lib _ 32) as [b [e|]]; intros Hn; exact Hn.
  - unfold setHTML, setBrowserWarning.
    destruct (strconv_ParseFloat lib _ 32) as [b [e|]]; reflexivity.
Qed.

(** X20. createURL fails before it looks at the form when the store fails,
    when the host is no node of the network ("Host '<host>' is not a Swift
    node"), when the node is a storage node ("Domain '<domain>' is not an
    access node"), or when the nodes of the network cannot be read; it fails
    with the error of ParseForm when the form does not parse.  None of these
    reads the clock. *)
Theorem createURL_node_errors (lib : Lib) (s : Services) (r : Request.t)
    (clk : time.Clock) :
  (forall x e, getNode (store s) (Request.Host r) = (x, Some e) ->
     createURL lib s r clk = (Err e, clk)) /\
  (getNode (store s) (Request.Host r) = (None, None) ->
   createURL lib s r clk
   = (Err (errorString
             ("Host '" +:+ Request.Host r +:+ "' is not a Swift node")),
      clk)) /\
  (forall a, getNode (store s) (Request.Host r) = (Some a, None) ->
     (role a = roleStorage ->
      createURL lib s r clk
      = (Err (errorString
                ("Domain '" +:+ domain a +:+ "' is not an access node")),
         clk)) /\
     (role a = roleAccess ->
      (forall e, getNodes (store s) (network a) = Err e ->
         createURL lib s r clk = (Err e, clk)) /\
      (forall nw x e, getNodes (store s) (network a) = Ok nw ->
         Request.ParseForm r = (x, Some e) ->
         createURL lib s r clk = (Err e, clk)))).
Proof.
  split; [|split].
  - intros x e H. apply createURL_prepare_Err.
    unfold prepare, bind, accessNodeOf. rewrite H. destruct x; reflexivity.
  - intros H. apply createURL_prepare_Err.
    unfold prepare, bind, accessNodeOf. rewrite H. reflexivity.
  - intros a H. split.
    + intros Hrole. apply createURL_prepare_Err.
      unfold prepare, bind, accessNodeOf. rewrite H, Hrole. reflexivity.
    + intros Hrole. split.
      * intros e He. apply createURL_prepare_Err.
        unfold prepare, bind, accessNodeOf. rewrite H, Hrole, He.
        reflexivity.
      * intros nw x e Hnw Hform. apply createURL_prepare_Err.
        unfold prepare, bind, accessNodeOf. rewrite H, Hrole, Hnw, Hform.
        reflexivity.
Qed.

Lemma createURL_node_errors_witness :
  createURL Fixture.lib
    {| config := config Fixture.services;
       store := {| getNode := fun _ => (None, None);
                   getNodes := fun _ => Ok Fixture.network1 |};
       getAccessAllowed := fun _ => true |}
    (Fixture.request Fixture.baseForm) (Fixture.clockAt 0)
  = (Err (errorString "Host 'a.example' is not a Swift node"),
     Fixture.clockAt 0).
Proof.
  apply (proj1 (proj2 (createURL_node_errors Fixture.lib _
                         (Fixture.request Fixture.baseForm)
                         (Fixture.clockAt 0)))).
  reflexivity.
Defined.

(** X21. Once the node count is set, createURL demands a return URL that
    parses and has a host and a scheme, and then a table name: it fails with
    the error of url.Parse, with "Missing host from URL '<url>'", with
    "Missing scheme from URL '<url>'", or with "Missing table name", in this
    order of precedence, and without reading the clock. *)
Theorem createURL_form_errors (lib : Lib) (s : Services) (r : Request.t)
    (clk : time.Clock) (a : node) (nw : nodes) (form : Values)
    (o1 : Operation.operation) :
  accessNodeOf s r = Ok a ->
  getNodes (store s) (network a) = Ok nw ->
  Request.ParseForm r = (form, None) ->
  setNodeCount s form
    (Operation.set_accessNode
       (Operation.set_network (newOperation lib s a) nw) (domain a))
  = Ok o1 ->
  (forall e, url_Parse lib (Values_Get form returnURLParam) = Err e ->
     createURL lib s r clk = (Err e, clk)) /\
  (forall ru, url_Parse lib (Values_Get form returnURLParam) = Ok ru ->
     (URL.Host ru = "" ->
      createURL lib s r clk
      = (Err (errorString
                ("Missing host from URL '" +:+ URL.String ru +:+ "'")),
         clk)) /\
     (URL.Host ru <> "" -> URL.Scheme ru = "" ->
      createURL lib s r clk
      = (Err (errorString
                ("Missing scheme from URL '" +:+ URL.String ru +:+ "'")),
         clk)) /\
     (URL.Host ru <> "" -> URL.Scheme ru <> "" ->
      Values_Get form tableParam = "" ->
      createURL lib s r clk
      = (Err (errorString "Missing table name"), clk))).
Proof.
  intros Ha Hnw Hform H1.
  assert (Hprep : forall res,
            (attempt o <- setReturnURL lib form o1;
             attempt o <- setStateAndTable form o;
             Ok (setHTML s form (setBrowserWarning lib form o))) = res ->
            prepare lib s r = res).
  { intros res <-. unfold prepare, bind at 1 2 3.
    rewrite Ha, Hnw, Hform, H1. reflexivity. }
  split.
  - intros e He. apply createURL_prepare_Err, Hprep.
    unfold setReturnURL, bind. rewrite He. reflexivity.
  - intros ru Hru. split; [|split].
    + intros Hhost. apply createURL_prepare_Err, Hprep.
      unfold setReturnURL, bind. rewrite Hru, Hhost. reflexivity.
    + intros Hhost Hscheme. apply createURL_prepare_Err, Hprep.
      unfold setReturnURL, bind. rewrite Hru, Hscheme.
      apply String.eqb_neq in Hhost. rewrite Hhost. reflexivity.
    + intros Hhost Hscheme Htable. apply createURL_prepare_Err, Hprep.
      unfold setReturnURL, setStateAndTable, bind. rewrite Hru.
      apply String.eqb_neq in Hhost, Hscheme. rewrite Hhost, Hscheme.
      cbn [Operation.table Operation.set_table]. rewrite Htable.
      reflexivity.
Qed.

Lemma createURL_form_errors_witness :
  createURL Fixture.lib Fixture.services
    (Fixture.request {[ "returnUrl" := ["https://r.example/"] ]})
    (Fixture.clockAt 0)
  = (Err (errorString "Missing table name"), Fixture.clockAt 0).
Proof.
  pose proof (createURL_form_errors Fixture.lib Fixture.services
                (Fixture.request {[ "returnUrl" := ["https://r.example/"] ]})
                (Fixture.clockAt 0) Fixture.rotated Fixture.network1
                {[ "returnUrl" := ["https://r.example/"] ]}) as H.
  edestruct H as (_ & Hru);
    [reflexivity | reflexivity | reflexivity | reflexivity |].
  edestruct Hru as (_ & _ & Htable); [reflexivity|].
  apply Htable; [discriminate | discriminate | reflexivity].
Defined.

(** X22. What createURL has when it builds the URL: the request came from
    an access node of the store; the operation carries that node's network
    and domain, a return URL with host and scheme, a non-empty table, the
    state of the form, a node count that is the configured one or lies
    between 1 and 254, the pairs of the form appended to its values, and as
    next node the home node that the network returned for the addresses of
    the request, whose domain is the operation's home node. *)
Theorem buildOperation_postcondition (lib : Lib) (s : Services)
    (r : Request.t) (clk clk' : time.Clock) (o : Operation.operation) :
  buildOperation lib s r clk = (Ok o, clk') ->
  exists a nw form ru ps n,
    getNode (store s) (Request.Host r) = (Some a, None) /\
    role a = roleAccess /\
    getNodes (store s) (network a) = Ok nw /\
    Request.ParseForm r = (form, None) /\
    url_Parse lib (Values_Get form returnURLParam) = Ok ru /\
    URL.Host ru <> "" /\ URL.Scheme ru <> "" /\
    Forall2 madeFrom (List.filter eligible (range lib form)) ps /\
    getHomeNode nw
      (orDefault (Values_Get form xforwarededfor)
         (Request.Header_Get r "X-FORWARDED-FOR"))
      (orDefault (Values_Get form remoteAddr) (Request.RemoteAddr r))
    = Ok n /\
    Operation.network o = nw /\
    Operation.accessNode o = domain a /\
    Operation.nextNode o = Some n /\
    Operation.homeNode o = domain n /\
    Operation.returnURL o = URL.String ru /\
    Operation.state o = Values_Get form stateParam /\
    Operation.table o = Values_Get form tableParam /\
    Operation.table o <> "" /\
    Operation.values o
    = (Operation.values (newOperation lib s a) ++ ps)%list /\
    (Operation.nodeCount o = Config.NodeCount (config s) \/
     1 <= Operation.nodeCount o <= 254) /\
    clk' = advance (2 * length ps) clk.
Proof.
  intros H. apply buildOperation_inv in H
    as (a & nw & form & c & ru & ps & n & Hget & Hrole & Hnw & Hform & Hc
        & Hru & Hhost & Hscheme & Htable & Hps & Hclk & Hn & ->).
  exists a, nw, form, ru, ps, n.
  repeat (split; [assumption|]).
  unfold setBrowserWarning.
  destruct (strconv_ParseFloat lib _ 32) as [b [e|]]; cbn;
    (repeat (split; [reflexivity|]);
     split; [exact Htable|]; split; [reflexivity|]; split; [|exact Hclk];
     destruct Hc as [[_ ->]|(_ & _ & Hrange)];
     [left; reflexivity | right; lia]).
Qed.

Lemma buildOperation_postcondition_witness :
  exists o clk',
    buildOperation Fixture.lib Fixture.services
      (Fixture.request Scenario.pairForm) (Fixture.clockAt 0)
    = (Ok o, clk') /\
    Operation.homeNode o = "a.example" /\
    Operation.table o = "tbl" /\
    length (Operation.values o) = 1%nat /\
    clk' = advance 2 (Fixture.clockAt 0).
Proof.
  destruct (buildOperation Fixture.lib Fixture.services
              (Fixture.request Scenario.pairForm) (Fixture.clockAt 0))
    as [[o|e] clk'] eqn:H; [|vm_compute in H; discriminate H].
  exists o, clk'. split; [reflexivity|].
  pose proof H as Hrun.
  apply buildOperation_postcondition in H
    as (a & nw & form & ru & ps & n & _ & _ & _ & _ & _ & _ & _ & _ & _ & _
        & _ & _ & _ & _ & _ & _ & _ & _ & _ & _).
  vm_compute in Hrun. injection Hrun as <- <-.
  repeat split.
Defined.

(** X23. The user interface fields of the operation are taken field by
    field: each is the form's value when that is not empty and the
    configured value otherwise, so a field is empty only when both are. *)
Theorem buildOperation_HTML (lib : Lib) (s : Services) (r : Request.t)
    (clk clk' : time.Clock) (o : Operation.operation) :
  buildOperation lib s r clk = (Ok o, clk') ->
  let form := fst (Request.ParseForm r) in
  let pick name dflt :=
    if String.eqb (Values_Get form name) "" then dflt
    else Values_Get form name in
  Operation.HTML o
  = {| HTML.Title := pick titleParam (Config.Title (config s));
       HTML.Message := pick messageParam (Config.Message (config s));
       HTML.MessageColor :=
         pick messageColorParam (Config.MessageColor (config s));
       HTML.BackgroundColor :=
         pick backgroundColorParam (Config.BackgroundColor (config s));
       HTML.ProgressColor :=
         pick progressColorParam (Config.ProgressColor (config s)) |} /\
  (Config.Title (config s) <> "" -> HTML.Title (Operation.HTML o) <> "").
Proof.
  intros H form pick. apply buildOperation_inv in H
    as (a & nw & form' & c & ru & ps & n & _ & _ & _ & Hform & _ & _ & _ & _
        & _ & _ & _ & _ & ->).
  subst form pick. rewrite Hform. cbn [fst].
  cbn [Operation.HTML Operation.set_homeNode Operation.set_nextNode
       Operation.set_values setHTML Operation.set_HTML].
  split; [reflexivity|].
  intros Hcfg. cbn [HTML.Title]. unfold orDefault.
  destruct (String.eqb_spec (Values_Get form' titleParam) "");
    [exact Hcfg | assumption].
Qed.

Lemma buildOperation_HTML_witness :
  exists o clk',
    buildOperation Fixture.lib Fixture.services
      (Fixture.request (<["title" := ["Hello"]]> Fixture.baseForm))
      (Fixture.clockAt 0) = (Ok o, clk') /\
    HTML.Title (Operation.HTML o) = "Hello" /\
    HTML.Message (Operation.HTML o) = "m".
Proof.
  destruct (buildOperation Fixture.lib Fixture.services
              (Fixture.request (<["title" := ["Hello"]]> Fixture.baseForm))
              (Fixture.clockAt 0))
    as [[o|e] clk'] eqn:H; [|vm_compute in H; discriminate H].
  exists o, clk'. split; [reflexivity|].
  destruct (buildOperation_HTML _ _ _ _ _ _ H) as [-> _].
  split; vm_compute; reflexivity.
Defined.

(** ** SetHomeNodeHeaders and the addresses createURL routes by *)

Lemma Values_Get_Set (q : Values) (key val : string) :
  Values_Get (Values_Set q key val) key = val.
Proof.
  unfold Values_Get, Values_Set. rewrite lookup_insert_eq. reflexivity.
Qed.

Lemma Values_Get_Set_ne (q : Values) (key key' val : string) :
  key <> key' ->
  Values_Get (Values_Set q key val) key' = Values_Get q key'.
Proof.
  intros H. unfold Values_Get, Values_Set.
  rewrite lookup_insert_ne by exact H. reflexivity.
Qed.

(** X24. SetHomeNodeHeaders records the addresses of a request in a form:
    the remote address always, the X-FORWARDED-FOR header when it is not
    empty; every other field is left as it was.  Both fields are reserved,
    so createURL never turns them into pairs; and when both addresses are
    present, createURL on such a form asks for the home node of those
    addresses, not of the request that carries the form. *)
Theorem SetHomeNodeHeaders_routes (r0 : Request.t) (q : Values) :
  let q' := SetHomeNodeHeaders r0 q in
  Values_Get q' remoteAddr = Request.RemoteAddr r0 /\
  (Request.Header_Get r0 "X-FORWARDED-FOR" <> "" ->
   Values_Get q' xforwarededfor = Request.Header_Get r0 "X-FORWARDED-FOR") /\
  (Request.Header_Get r0 "X-FORWARDED-FOR" = "" ->
   Values_Get q' xforwarededfor = Values_Get q xforwarededfor) /\
  (forall key, key <> remoteAddr -> key <> xforwarededfor ->
               q' !! key = q !! key) /\
  (isReserved remoteAddr = true /\ isReserved xforwarededfor = true) /\
  (Request.RemoteAddr r0 <> "" ->
   Request.Header_Get r0 "X-FORWARDED-FOR" <> "" ->
   forall r o,
     setHomeNode r q' o
     = bind (getHomeNode (Operation.network o)
               (Request.Header_Get r0 "X-FORWARDED-FOR")
               (Request.RemoteAddr r0))
         (fun n =>
            Ok (Operation.set_homeNode
                  (Operation.set_nextNode o (Some n)) (domain n)))).
Proof.
  intros q'. subst q'. unfold SetHomeNodeHeaders.
  assert (Hra : forall q1,
             Values_Get (Values_Set q1 "remoteAddr" (Request.RemoteAddr r0))
               remoteAddr = Request.RemoteAddr r0)
    by (intros; apply Values_Get_Set).
  assert (Hxff1 : Request.Header_Get r0 "X-FORWARDED-FOR" <> "" ->
            Values_Get
              (Values_Set
                 (if negb (String.eqb
                             (Request.Header_Get r0 "X-FORWARDED-FOR") "")
                  then Values_Set q "X-FORWARDED-FOR"
                         (Request.Header_Get r0 "X-FORWARDED-FOR")
                  else q)
                 "remoteAddr" (Request.RemoteAddr r0)) xforwarededfor
            = Request.Header_Get r0 "X-FORWARDED-FOR").
  { intros Hx. apply String.eqb_neq in Hx. rewrite Hx. cbn [negb].
    rewrite Values_Get_Set_ne by discriminate. apply Values_Get_Set. }
  split; [apply Hra|]. split; [exact Hxff1|]. split; [|split; [|split]].
  - intros Hx. rewrite Hx. cbn [String.eqb negb].
    apply Values_Get_Set_ne. discriminate.
  - intros key H1 H2. unfold Values_Set.
    rewrite lookup_insert_ne by (unfold remoteAddr in H1; congruence).
    destruct (negb _); [|reflexivity].
    rewrite lookup_insert_ne by (unfold xforwarededfor in H2; congruence).
    reflexivity.
  - split; reflexivity.
  - intros Hr Hx r o. unfold setHomeNode.
    rewrite (Hxff1 Hx), Hra. unfold orDefault.
    apply String.eqb_neq in Hr, Hx. rewrite Hr, Hx. reflexivity.
Qed.

Lemma SetHomeNodeHeaders_routes_witness :
  Values_Get (SetHomeNodeHeaders Scenario.forwarded Fixture.baseForm)
    xforwarededfor = "198.51.100.9" /\
  forall r o,
    setHomeNode r (SetHomeNodeHeaders Scenario.forwarded Fixture.baseForm) o
    = bind (getHomeNode (Operation.network o) "198.51.100.9"
              "192.0.2.7:4000")
        (fun n =>
           Ok (Operation.set_homeNode
                 (Operation.set_nextNode o (Some n)) (domain n))).
Proof.
  destruct (SetHomeNodeHeaders_routes Scenario.forwarded Fixture.baseForm)
    as (_ & Hxff & _ & _ & _ & Hroute).
  split.
  - apply Hxff. discriminate.
  - apply Hroute; discriminate.
Defined.

(** ** The two handlers *)

(** X25. HandlerCreate answers 401 "Not authorized" without building
    anything (the clock is not read) when the caller is not allowed; 400
    with the error of createURL when that fails; otherwise it sets the
    content type, the cache control and the content length of the URL and
    writes the URL, and reports 500 after that if the write fails.  Its
    response always has one of these shapes. *)
Theorem HandlerCreate_responses (lib : Lib) (write : bytes -> option error)
    (s : Services) (r : Request.t) (clk : time.Clock) :
  (getAccessAllowed s r = false ->
   HandlerCreate lib write s r clk
   = ([returnAPIError (errorString "Not authorized") 401], clk)) /\
  (getAccessAllowed s r = true ->
   (forall e clk', createURL lib s r clk = (Err e, clk') ->
      HandlerCreate lib write s r clk = ([returnAPIError e 400], clk')) /\
   (forall u clk', createURL lib s r clk = (Ok u, clk') ->
      let headers :=
        [HeaderSet "Content-Type" "text/plain; charset=utf-8";
         HeaderSet "Cache-Control" "no-cache";
         HeaderSet "Content-Length"
           (itoa (Z.of_nat (length (bytes_of_string u))))] in
      (write (bytes_of_string u) = None ->
       HandlerCreate lib write s r clk
       = ((headers ++ [Write (bytes_of_string u)])%list, clk')) /\
      (forall e, write (bytes_of_string u) = Some e ->
         HandlerCreate lib write s r clk
         = ((headers ++ [Write (bytes_of_string u); returnAPIError e 500])
            %list, clk')))) /\
  responseShape (fst (HandlerCreate lib write s r clk)).
Proof.
  unfold HandlerCreate.
  destruct (getAccessAllowed s r); cbn [negb].
  2:{ split; [reflexivity|]. split; [discriminate|].
      apply shapeError. auto. }
  split; [discriminate|].
  destruct (createURL lib s r clk) as [[u|e] clk'].
  - split.
    + intros _. split; [discriminate|].
      intros u' clk'' H. injection H as <- <-. cbv zeta. split.
      * intros ->. reflexivity.
      * intros e ->. reflexivity.
    + cbn [fst].
      destruct (write (bytes_of_string u)) as [e|].
      * apply (shapeBroken
                 [HeaderSet "Content-Type" "text/plain; charset=utf-8";
                  HeaderSet "Cache-Control" "no-cache";
                  HeaderSet "Content-Length"
                    (itoa (Z.of_nat (length (bytes_of_string u))))]).
        repeat constructor; eauto.
      * apply (shapeBody
                 [HeaderSet "Content-Type" "text/plain; charset=utf-8";
                  HeaderSet "Cache-Control" "no-cache";
                  HeaderSet "Content-Length"
                    (itoa (Z.of_nat (length (bytes_of_string u))))]).
        -- repeat constructor; eauto.
        -- simpl. auto.
  - split.
    + intros _. split; [|discriminate].
      intros e' clk'' H. injection H as <- <-. reflexivity.
    + apply shapeError. auto.
Qed.

Lemma HandlerCreate_responses_witness :
  HandlerCreate Fixture.lib (fun _ => None) Fixture.services
    (Fixture.request Fixture.baseForm) (Fixture.clockAt 0)
  = ([HeaderSet "Content-Type" "text/plain; charset=utf-8";
      HeaderSet "Cache-Control" "no-cache";
      HeaderSet "Content-Length" "17";
      Write (list_byte_of_string "https://a.example")],
     Fixture.clockAt 0) /\
  HandlerCreate Fixture.lib (fun _ => None) Fixture.services
    (Fixture.request (Fixture.withBounces "0")) (Fixture.clockAt 0)
  = ([returnAPIError (errorString "Bounces must be greater than 0") 400],
     Fixture.clockAt 0).
Proof.
  pose proof (fun form =>
    proj1 (proj2 (HandlerCreate_responses Fixture.lib (fun _ => None)
                    Fixture.services (Fixture.request form)
                    (Fixture.clockAt 0)))) as H.
  split.
  - destruct (H Fixture.baseForm eq_refl) as [_ Hok].
    destruct (Hok "https://a.example" (Fixture.clockAt 0)
                ltac:(vm_compute; reflexivity)) as [Hwritten _].
    exact (Hwritten eq_refl).
  - destruct (H (Fixture.withBounces "0") eq_refl) as [Herr _].
    apply Herr. vm_compute. reflexivity.
Defined.

(** X26. Every response of the decode-as-JSON handler has one of three
    shapes: one error with status 400, 401 or 500 and nothing else; headers
    and the body; or headers, the body and the 500 of a failed write.  A
    body is written only for an allowed caller whose data decrypted and
    decoded to results with a valid time stamp, and it is the JSON of their
    values, announced with its length. *)
Theorem HandlerDecodeAsJSON_shape (lib : DecodeLib) (s : Services)
    (r : Request.t) :
  responseShape (HandlerDecodeAsJSON lib s r) /\
  forall b, In (Write b) (HandlerDecodeAsJSON lib s r) ->
    getAccessAllowed s r = true /\
    In (HeaderSet "Content-Length" (itoa (Z.of_nat (length b))))
      (HandlerDecodeAsJSON lib s r) /\
    exists n v d a,
      getAccessNode lib s r = Ok n /\
      base64.DecodeString
        (Values_Get (fst (Request.ParseForm r)) "data") = (v, None) /\
      decrypt n (default [] v) = (Some d, None) /\
      DecodeResults lib d = Ok a /\
      IsTimeStampValid lib a = true /\
      json_Marshal lib (Results_Values lib a) = (b, None).
Proof.
  assert (Hnone : forall (e : error) (code : Z) (b : bytes) (P : Prop),
             In (Write b) [returnAPIError e code] -> P).
  { intros e code b P [H|[]]. discriminate H. }
  unfold HandlerDecodeAsJSON.
  destruct (Request.ParseForm r) as [form [e|]]; cbn [fst].
  { split; [apply shapeError; auto | intros b; apply Hnone]. }
  destruct (getAccessAllowed s r); cbn [negb].
  2:{ split; [apply shapeError; auto | intros b; apply Hnone]. }
  destruct (getAccessNode lib s r) as [n|e].
  2:{ split; [apply shapeError; auto | intros b; apply Hnone]. }
  destruct (base64.DecodeString (Values_Get form "data")) as [v [e|]].
  { split; [apply shapeError; auto | intros b; apply Hnone]. }
  destruct (decrypt n (default [] v)) as [[d|] [e|]] eqn:Hd;
    try (split; [apply shapeError; auto | intros b; apply Hnone]).
  destruct (DecodeResults lib d) as [a|e] eqn:Ha.
  2:{ split; [apply shapeError; auto | intros b; apply Hnone]. }
  destruct (IsTimeStampValid lib a) eqn:Hvalid; cbn [negb].
  2:{ split; [apply shapeError; auto | intros b; apply Hnone]. }
  destruct (json_Marshal lib (Results_Values lib a)) as [b [e|]] eqn:Hb.
  { split; [apply shapeError; auto | intros b'; apply Hnone]. }
  split.
  - destruct (w_Write lib b) as [e|].
    + apply (shapeBroken
               [HeaderSet "Access-Control-Allow-Origin" "*";
                HeaderSet "Content-Type" "application/json";
                HeaderSet "Cache-Control" "no-cache";
                HeaderSet "Content-Length" (itoa (Z.of_nat (length b)))]).
      repeat constructor; eauto.
    + apply (shapeBody
               [HeaderSet "Access-Control-Allow-Origin" "*";
                HeaderSet "Content-Type" "application/json";
                HeaderSet "Cache-Control" "no-cache";
                HeaderSet "Content-Length" (itoa (Z.of_nat (length b)))]).
      * repeat constructor; eauto.
      * simpl. auto.
  - intros b' Hin.
    assert (Hsame : b' = b).
    { simpl in Hin.
      destruct Hin as [H|[H|[H|[H|[H|H]]]]]; try discriminate H.
      - injection H as ->. reflexivity.
      - destruct (w_Write lib b); simpl in H; [destruct H as [H|[]]|];
          try discriminate H; destruct H. }
    subst b'. split; [reflexivity|]. split.
    + simpl. auto 10.
    + exists n, v, d, a. repeat split; assumption.
Qed.

Lemma HandlerDecodeAsJSON_shape_witness :
  getAccessAllowed Fixture.services
    (Fixture.request (Fixture.dataForm (Fixture.sealed "Fresh"))) = true /\
  In (HeaderSet "Content-Length" "2")
    (HandlerDecodeAsJSON (Fixture.decodeLib false) Fixture.services
       (Fixture.request (Fixture.dataForm (Fixture.sealed "Fresh")))).
Proof.
  destruct (proj2 (HandlerDecodeAsJSON_shape (Fixture.decodeLib false)
                     Fixture.services
                     (Fixture.request
                        (Fixture.dataForm (Fixture.sealed "Fresh"))))
              (list_byte_of_string "[]")) as (Hallowed & Hlength & _).
  - vm_compute. repeat (first [left; reflexivity | right]).
  - split; [exact Hallowed | exact Hlength].
Defined.
